(** * MediConnect: the call-signalling core of [server/server.js] and the
    offer handler of [client/.../VideoCall.jsx]

    The server keeps three in-memory maps ([activeCalls], [userSessions],
    [rooms]) and reacts to socket.io messages.  Every handler is embedded
    as a total function from a state and a message to a new state and the
    list of [emit] calls it performs, in the order the JavaScript performs
    them.  Mutations that the JavaScript makes before it throws inside a
    [try] block are kept: the [catch] branch only adds an [error] emit.

    Conventions.
    - Identities, room names, session ids and connection ids are strings.
      A field that is absent ([undefined]) where the code only tests it
      with [!x] or uses it as a map key is the empty string, which
      JavaScript treats as falsy in the same way.  Fields with a default
      value ([type = 'video'], [reason = 'Call rejected'], ...) are options.
    - [activeCalls] and [rooms] are only accessed by key: [gmap].
      [userSessions] and the per-room member map are iterated
      ([entries()], [find], [for ... of]): insertion-ordered association
      lists with the behaviour of a JavaScript [Map].
    - [new Date()] reads a clock: the k-th read of one handler run is
      [ck k].  [uuidv4()] is an input of the run.
    - An emit is recorded with its address ([socket.emit],
      [io.to(id).emit], [socket.to(room).emit]); to which sockets
      socket.io delivers a room broadcast is not modelled.  Of socket.io
      itself only [socket.rooms], [join] and [leave] appear, with the
      behaviour of its in-memory adapter.
    - [callNotes] is the list of object literals that [saveCallDetails]
      has passed to [new CallNote(...)].  What becomes of such a literal is
      decided by the schema of the model, [callNoteSchema], which is
      embedded with mongoose's default options: keys that are not paths
      of the schema are dropped by the constructor, and [save()] first
      validates the [required] paths. *)

From stdpp Require Import gmap strings list fin_maps.
From Stdlib Require Import ZArith Lia DecimalString Ascii.

Open Scope string_scope.
Open Scope list_scope.

(* ===================================================================== *)
(** ** JavaScript [Map] and [Set] with insertion order                    *)
(* ===================================================================== *)

Section js_collections.
Context {K V : Type} `{EqDecision K}.

(** [Map.prototype.get] *)
Fixpoint jm_get (k : K) (m : list (K * V)) : option V :=
  match m with
  | [] => None
  | (k', v) :: m' => if decide (k' = k) then Some v else jm_get k m'
  end.

(** [Map.prototype.has] *)
Definition jm_has (k : K) (m : list (K * V)) : bool :=
  match jm_get k m with Some _ => true | None => false end.

(** [Map.prototype.set]: an existing key keeps its position, a new key
    goes last. *)
Fixpoint jm_set (k : K) (v : V) (m : list (K * V)) : list (K * V) :=
  match m with
  | [] => [(k, v)]
  | (k', v') :: m' =>
      if decide (k' = k) then (k, v) :: m' else (k', v') :: jm_set k v m'
  end.

(** [Map.prototype.delete] *)
Definition jm_delete (k : K) (m : list (K * V)) : list (K * V) :=
  filter (λ e, e.1 ≠ k) m.

(** [Set.prototype.add] *)
Definition js_set_add (x : K) (l : list K) : list K :=
  if decide (x ∈ l) then l else l ++ [x].

(** [Set.prototype.delete] *)
Definition js_set_delete (x : K) (l : list K) : list K :=
  filter (λ y, y ≠ x) l.
End js_collections.

(** [!s] and [s] as a condition, for a string or an absent field. *)
Definition falsy (s : string) : bool := bool_decide (s = "").
Definition truthy (s : string) : bool := negb (falsy s).

(** [String.prototype.includes] *)
Fixpoint includes (needle hay : string) : bool :=
  String.prefix needle hay ||
  match hay with
  | EmptyString => false
  | String _ hay' => includes needle hay'
  end.

(* ===================================================================== *)
(** ** Data model                                                        *)
(* ===================================================================== *)

(** Payloads the server never inspects: SDP offers and answers, ICE
    candidates, display metadata. *)
Definition blob := string.

(** The [userData] object of [register-user] and [join-room].  It is
    spread into the session object, so the keys the server itself uses
    are singled out; [ud_meta] stands for all others ([name], [role]). *)
Record UserData := {
  ud_socketId : option string;
  ud_userId : option string;
  ud_currentRoom : option string;
  ud_currentCall : option string;
  ud_userData : option blob;
  ud_meta : blob
}.

(** A value of [userSessions]. *)
Record Session := {
  s_socketId : string;
  s_userId : string;
  s_currentRoom : option string;
  s_currentCall : option string;
  s_userData : option blob;
  s_meta : blob;
  s_connectedAt : Z
}.

(** A value of a room's member map. *)
Record Member := {
  m_userId : string;
  m_userData : option UserData;
  m_joinedAt : Z
}.

Inductive CallStatus := Initiated | InProgress.

(** A value of [activeCalls]. *)
Record Call := {
  c_caller : string;
  c_callee : string;
  c_participants : list string;
  c_type : string;
  c_offer : option blob;
  c_startedAt : Z;
  c_status : CallStatus;
  c_answer : option blob;
  c_answeredAt : option Z
}.

(** The object literal [saveCallDetails] builds and passes to
    [new CallNote(...)]. *)
Record CallRecord := {
  r_sessionId : string;
  r_participants : list string;
  r_type : string;
  r_startedAt : Z;
  r_endedAt : Z;
  r_duration : Z;
  r_status : string;
  r_endedBy : string;
  r_reason : string
}.

(** The [data] object of [offer], [answer] and [ice-candidate].
    [rd_body] is the session description under the [offer] or [answer]
    key, with whatever other keys the client added ([callerInfo],
    [type]); the relay reads none of them. *)
Record RelayData := {
  rd_to : string;
  rd_caller : string;
  rd_sessionId : string;
  rd_candidate : option blob;
  rd_body : blob
}.

Record Participant := {
  p_socketId : string;
  p_userId : string;
  p_userData : option UserData
}.

(** Events the server emits. *)
Inductive OutEvent :=
| UserRegistered (userId : string)
| Error (message details : string)
| UserLeft (socketId userId : string)
| UserJoined (userId socketId : string) (userData : option UserData)
    (participants : list Participant)
| RoomJoined (room : string) (participants : list Participant)
| OfferFwd (data : RelayData)
| AnswerFwd (data : RelayData)
| IceFwd (from : string) (candidate : option blob) (sessionId : string)
| IncomingCall (sessionId caller type : string) (offer : option blob)
    (callerInfo : option blob)
| CallInitiated (sessionId callee : string)
| CallAccepted (sessionId : string) (answer : option blob) (callerId : string)
| CallRejected (sessionId reason : string)
| CallEnded (sessionId reason endedBy : string) (duration : Z).

(** Where an emit is addressed: [socket.emit], [io.to(r).emit],
    [socket.to(r).emit]. *)
Inductive Dest :=
| ToSocket (conn : string)
| ToRoom (room : string)
| ToOthers (conn room : string).

Definition Output : Type := Dest * OutEvent.

Definition Clock := nat → Z.

Record State := {
  activeCalls : gmap string Call;
  userSessions : list (string * Session);
  rooms : gmap string (list (string * Member));
  socketRooms : gmap string (list string);
  callNotes : list CallRecord
}.

Definition init : State :=
  {| activeCalls := ∅; userSessions := []; rooms := ∅; socketRooms := ∅;
     callNotes := [] |}.

Definition set_activeCalls (x : gmap string Call) (s : State) : State :=
  {| activeCalls := x; userSessions := userSessions s; rooms := rooms s;
     socketRooms := socketRooms s; callNotes := callNotes s |}.

Definition set_userSessions (x : list (string * Session)) (s : State) : State :=
  {| activeCalls := activeCalls s; userSessions := x; rooms := rooms s;
     socketRooms := socketRooms s; callNotes := callNotes s |}.

Definition set_rooms (x : gmap string (list (string * Member))) (s : State) : State :=
  {| activeCalls := activeCalls s; userSessions := userSessions s; rooms := x;
     socketRooms := socketRooms s; callNotes := callNotes s |}.

Definition set_socketRooms (x : gmap string (list string)) (s : State) : State :=
  {| activeCalls := activeCalls s; userSessions := userSessions s;
     rooms := rooms s; socketRooms := x; callNotes := callNotes s |}.

Definition set_callNotes (x : list CallRecord) (s : State) : State :=
  {| activeCalls := activeCalls s; userSessions := userSessions s;
     rooms := rooms s; socketRooms := socketRooms s; callNotes := x |}.

(** [{...u, currentCall: c}] *)
Definition with_currentCall (c : option string) (u : Session) : Session :=
  {| s_socketId := s_socketId u; s_userId := s_userId u;
     s_currentRoom := s_currentRoom u; s_currentCall := c;
     s_userData := s_userData u; s_meta := s_meta u;
     s_connectedAt := s_connectedAt u |}.

(** [{...u, currentRoom: room, socketId: conn}] *)
Definition with_room_socket (room conn : string) (u : Session) : Session :=
  {| s_socketId := conn; s_userId := s_userId u;
     s_currentRoom := Some room; s_currentCall := s_currentCall u;
     s_userData := s_userData u; s_meta := s_meta u;
     s_connectedAt := s_connectedAt u |}.

(** socket.io's [socket.rooms], [socket.join] and [socket.leave]. *)
Definition socket_rooms (s : State) (conn : string) : list string :=
  default [] (socketRooms s !! conn).

Definition socket_join (s : State) (conn room : string) : State :=
  set_socketRooms (<[conn := js_set_add room (socket_rooms s conn)]> (socketRooms s)) s.

Definition socket_leave (s : State) (conn room : string) : State :=
  match socketRooms s !! conn with
  | Some rs => set_socketRooms (<[conn := js_set_delete room rs]> (socketRooms s)) s
  | None => s
  end.

(* ===================================================================== *)
(** ** Helpers of server.js                                               *)
(* ===================================================================== *)

(** [leaveRoom(socket, room, userId)] *)
Definition leaveRoom (s : State) (conn room userId : string) : State * list Output :=
  if falsy room then (s, []) else
  let s1 := socket_leave s conn room in
  match rooms s1 !! room with
  | None => (s1, [])
  | Some roomData =>
      let '(roomData', out) :=
        match jm_get conn roomData with
        | Some userData =>
            (jm_delete conn roomData,
             [(ToOthers conn room,
               UserLeft conn (if truthy userId then userId else m_userId userData))])
        | None => (roomData, [])
        end in
      if decide (length roomData' = 0)
      then (set_rooms (delete room (rooms s1)) s1, out)
      else (set_rooms (<[room := roomData']> (rooms s1)) s1, out)
  end.

(** [saveCallDetails(sessionId, call, reason, endedBy)] up to the call
    of the constructor: the literal is appended to [callNotes].  The two
    clock reads are the second and third of the run that ends the call.
    What [new CallNote(...)] and [save()] make of the literal is
    [CallNote.stored] below. *)
Definition saveCallDetails (s : State) (sessionId : string) (call : Call)
    (reason endedBy : string) (ck : Clock) : State :=
  set_callNotes
    (callNotes s ++
     [{| r_sessionId := sessionId;
         r_participants := c_participants call;
         r_type := c_type call;
         r_startedAt := c_startedAt call;
         r_endedAt := ck 1%nat;
         r_duration := (ck 2%nat - c_startedAt call)%Z;
         r_status := if includes "rejected" reason then "rejected" else "completed";
         r_endedBy := endedBy;
         r_reason := reason |}]) s.

(** The body of the first [forEach] of [endCall]:
    [if (userSession?.socketId) socketsToNotify.add(userSession.socketId)]. *)
Definition collect_socket (us : list (string * Session)) (acc : list string)
    (participantId : string) : list string :=
  match jm_get participantId us with
  | Some userSession =>
      if truthy (s_socketId userSession)
      then js_set_add (s_socketId userSession) acc
      else acc
  | None => acc
  end.

(** The [Set] that [forEach] fills: the sockets of the participants that
    have a session. *)
Definition socketsToNotify (us : list (string * Session)) (participants : list string)
    : list string :=
  foldl (collect_socket us) [] participants.

(** The body of the [forEach] that resets [currentCall] in [endCall] and
    in the [reject-call] handler. *)
Definition clear_currentCall (sessionId : string) (us : list (string * Session))
    (id : string) : list (string * Session) :=
  match jm_get id us with
  | Some u =>
      if decide (s_currentCall u = Some sessionId)
      then jm_set id (with_currentCall None u) us
      else us
  | None => us
  end.

(** [endCall(sessionId, userId, reason)] *)
Definition endCall (s : State) (sessionId userId reason : string) (ck : Clock)
    : State * list Output :=
  if falsy sessionId then (s, []) else
  match activeCalls s !! sessionId with
  | None => (s, [])
  | Some call =>
      let participants := c_participants call in
      let endCallEvent :=
        CallEnded sessionId reason userId (ck 0%nat - c_startedAt call)%Z in
      let out :=
        (λ sock, (ToRoom sock, endCallEvent)) <$>
          socketsToNotify (userSessions s) participants in
      let s1 := set_activeCalls (delete sessionId (activeCalls s)) s in
      let s2 :=
        set_userSessions
          (foldl (clear_currentCall sessionId) (userSessions s1) participants) s1 in
      if decide (0 < length participants)
      then (saveCallDetails s2 sessionId call reason userId ck, out)
      else (s2, out)
  end.

(* ===================================================================== *)
(** ** Message handlers of server.js                                      *)
(* ===================================================================== *)

Definition to_self (conn : string) (e : OutEvent) : Output := (ToSocket conn, e).

(** The session object built by [register-user]:
    [{ socketId: socket.id, userId, ...userData, connectedAt: new Date() }].
    Keys of [userData] come after [socketId] and [userId] in the literal
    and so take precedence over them. *)
Definition new_session (conn userId : string) (userData : option UserData)
    (now : Z) : Session :=
  {| s_socketId := default conn (userData ≫= ud_socketId);
     s_userId := default userId (userData ≫= ud_userId);
     s_currentRoom := userData ≫= ud_currentRoom;
     s_currentCall := userData ≫= ud_currentCall;
     s_userData := userData ≫= ud_userData;
     s_meta := from_option ud_meta "" userData;
     s_connectedAt := now |}.

(** [socket.on('register-user', ({ userId, userData }) => ...)] *)
Definition on_register_user (s : State) (conn : string) (ck : Clock)
    (userId : string) (userData : option UserData) : State * list Output :=
  if falsy userId
  then (s, [to_self conn (Error "Failed to register user" "User ID is required")])
  else
    (set_userSessions
       (jm_set userId (new_session conn userId userData (ck 0%nat)) (userSessions s)) s,
     [to_self conn (UserRegistered userId)]).

(** The list sent as [participants]: the entries of the room other than
    the joining socket. *)
Definition participants_of (conn : string) (roomData : list (string * Member))
    : list Participant :=
  (λ e, {| p_socketId := e.1; p_userId := m_userId e.2;
           p_userData := m_userData e.2 |}) <$>
  filter (λ e, e.1 ≠ conn) roomData.

(** The block "Leave current room if any" of [join-room]. *)
Definition leave_current_room (s : State) (conn userId : string)
    : State * list Output :=
  if decide (1 < length (socket_rooms s conn)) then
    match list_find (λ r, r ≠ conn) (socket_rooms s conn) with
    | Some (_, currentRoom) =>
        if truthy currentRoom then leaveRoom s conn currentRoom userId else (s, [])
    | None => (s, [])
    end
  else (s, []).

(** [socket.on('join-room', ({ room, userId, userData }) => ...)] *)
Definition on_join_room (s : State) (conn : string) (ck : Clock)
    (room userId : string) (userData : option UserData) : State * list Output :=
  if falsy room || falsy userId
  then (s, [to_self conn (Error "Failed to join room" "Room and user ID are required")])
  else
    let '(s1, out1) := leave_current_room s conn userId in
    let s2 := socket_join s1 conn room in
    let roomData :=
      jm_set conn {| m_userId := userId; m_userData := userData;
                     m_joinedAt := ck 0%nat |}
             (default [] (rooms s2 !! room)) in
    let s3 := set_rooms (<[room := roomData]> (rooms s2)) s2 in
    let s4 :=
      match jm_get userId (userSessions s3) with
      | Some userSession =>
          set_userSessions
            (jm_set userId (with_room_socket room conn userSession) (userSessions s3)) s3
      | None => s3
      end in
    let participants := participants_of conn roomData in
    (s4,
     out1 ++
     [(ToOthers conn room, UserJoined userId conn userData participants)] ++
     (if decide (0 < length participants)
      then [to_self conn (RoomJoined room participants)]
      else [])).

Definition target_not_found (to : string) : string :=
  "Target user " +:+ to +:+ " not found".

(** [socket.on('offer', (data) => ...)] *)
Definition on_offer (s : State) (conn : string) (data : RelayData)
    : State * list Output :=
  match jm_get (rd_to data) (userSessions s) with
  | None =>
      (s, [to_self conn (Error "Failed to send offer" (target_not_found (rd_to data)))])
  | Some targetUser => (s, [(ToRoom (s_socketId targetUser), OfferFwd data)])
  end.

(** [socket.on('answer', (data) => ...)] *)
Definition on_answer (s : State) (conn : string) (data : RelayData)
    : State * list Output :=
  match jm_get (rd_to data) (userSessions s) with
  | None =>
      (s, [to_self conn (Error "Failed to send answer" (target_not_found (rd_to data)))])
  | Some targetUser => (s, [(ToRoom (s_socketId targetUser), AnswerFwd data)])
  end.

(** [socket.on('ice-candidate', (data) => ...)] *)
Definition on_ice_candidate (s : State) (conn : string) (data : RelayData)
    : State * list Output :=
  match jm_get (rd_to data) (userSessions s) with
  | None =>
      (s, [to_self conn
             (Error "Failed to send ICE candidate" (target_not_found (rd_to data)))])
  | Some targetUser =>
      (s, [(ToRoom (s_socketId targetUser),
            IceFwd conn (rd_candidate data) (rd_sessionId data))])
  end.

Record InitiateCallMsg := {
  ic_to : string;
  ic_caller : string;
  ic_type : option string;
  ic_offer : option blob;
  ic_sessionId : string
}.

(** [socket.on('initiate-call', (data) => ...)]; [uuid] is what
    [uuidv4()] returns when it is called. *)
Definition on_initiate_call (s : State) (conn : string) (ck : Clock)
    (data : InitiateCallMsg) (uuid : string) : State * list Output :=
  let to := ic_to data in
  let caller := ic_caller data in
  let type := default "video" (ic_type data) in
  if falsy to || falsy caller
  then (s, [to_self conn (Error "Failed to initiate call"
                                "Caller and callee IDs are required")])
  else
    let callerInfo :=
      match jm_get caller (userSessions s) with
      | Some callerSession => s_userData callerSession
      | None => Some "{}"
      end in
    let callSessionId := if truthy (ic_sessionId data) then ic_sessionId data else uuid in
    let s1 :=
      set_activeCalls
        (<[callSessionId :=
             {| c_caller := caller; c_callee := to; c_participants := [caller];
                c_type := type; c_offer := ic_offer data;
                c_startedAt := ck 0%nat; c_status := Initiated;
                c_answer := None; c_answeredAt := None |}]> (activeCalls s)) s in
    let s2 :=
      match jm_get caller (userSessions s1) with
      | Some userData =>
          set_userSessions
            (jm_set caller (with_currentCall (Some callSessionId) userData)
                    (userSessions s1)) s1
      | None => s1
      end in
    match jm_get to (userSessions s2) with
    | None =>
        (s2, [to_self conn (Error "Failed to initiate call" "Callee is not connected")])
    | Some calleeSession =>
        (s2, [(ToRoom (s_socketId calleeSession),
               IncomingCall callSessionId caller type (ic_offer data) callerInfo);
              to_self conn (CallInitiated callSessionId to)])
    end.

Record AcceptCallMsg := {
  ac_to : string;
  ac_answer : option blob;
  ac_sessionId : string;
  ac_callerId : string
}.

(** The four assignments under "Update call status" of [accept-call]. *)
Definition accepted (call : Call) (callerId : string) (answer : option blob)
    (now : Z) : Call :=
  {| c_caller := c_caller call; c_callee := c_callee call;
     c_participants := c_participants call ++ [callerId];
     c_type := c_type call; c_offer := c_offer call;
     c_startedAt := c_startedAt call; c_status := InProgress;
     c_answer := answer; c_answeredAt := Some now |}.

(** [socket.on('accept-call', (data) => ...)] *)
Definition on_accept_call (s : State) (conn : string) (ck : Clock)
    (data : AcceptCallMsg) : State * list Output :=
  let to := ac_to data in
  let sessionId := ac_sessionId data in
  let callerId := ac_callerId data in
  if falsy to || falsy sessionId
  then (s, [to_self conn (Error "Failed to accept call"
                                "Recipient and session ID are required")])
  else
    match activeCalls s !! sessionId with
    | None =>
        (s, [to_self conn (Error "Failed to accept call" "Call session not found")])
    | Some call =>
        let s1 :=
          set_activeCalls
            (<[sessionId := accepted call callerId (ac_answer data) (ck 0%nat)]>
               (activeCalls s)) s in
        let s2 :=
          match jm_get callerId (userSessions s1) with
          | Some userData =>
              set_userSessions
                (jm_set callerId (with_currentCall (Some sessionId) userData)
                        (userSessions s1)) s1
          | None => s1
          end in
        match jm_get to (userSessions s2) with
        | None =>
            (s2, [to_self conn (Error "Failed to accept call"
                                      "Caller is no longer connected")])
        | Some callerSession =>
            (s2, [(ToRoom (s_socketId callerSession),
                   CallAccepted sessionId (ac_answer data) callerId)])
        end
    end.

(** [socket.on('reject-call', (data) => ...)]: no document is built on
    this path. *)
Definition on_reject_call (s : State) (conn : string)
    (to sessionId : string) (reason : option string) : State * list Output :=
  let reason := default "Call rejected" reason in
  if falsy to || falsy sessionId
  then (s, [to_self conn (Error "Failed to reject call"
                                "Recipient and session ID are required")])
  else
    match activeCalls s !! sessionId with
    | None => (s, [])
    | Some call =>
        let out :=
          match jm_get to (userSessions s) with
          | Some callerSession =>
              [(ToRoom (s_socketId callerSession), CallRejected sessionId reason)]
          | None => []
          end in
        let s1 := set_activeCalls (delete sessionId (activeCalls s)) s in
        (set_userSessions
           (foldl (clear_currentCall sessionId) (userSessions s1)
                  [c_caller call; c_callee call]) s1,
         out)
    end.

(** [Array.from(userSessions.entries()).find(([id, session]) =>
    session.socketId === socket.id)], also the loop of [disconnect]. *)
Definition session_of_socket (us : list (string * Session)) (conn : string)
    : option (string * Session) :=
  snd <$> list_find (λ e, s_socketId e.2 = conn) us.

(** [socket.on('end-call', (data) => ...)] *)
Definition on_end_call (s : State) (conn : string) (ck : Clock)
    (to sessionId : string) (reason : option string) : State * list Output :=
  let reason := default "Call ended" reason in
  if falsy sessionId
  then (s, [to_self conn (Error "Failed to end call" "Session ID is required")])
  else
    let endedBy :=
      match session_of_socket (userSessions s) conn with
      | Some (userId, _) => if truthy userId then userId else to
      | None => to
      end in
    endCall s sessionId endedBy reason ck.

(** [socket.on('disconnect', (reason) => ...)].  socket.io has emptied
    [socket.rooms] when the handler runs. *)
Definition on_disconnect (s : State) (conn : string) (ck : Clock)
    : State * list Output :=
  let s0 := set_socketRooms (delete conn (socketRooms s)) s in
  match session_of_socket (userSessions s0) conn with
  | None => (s0, [])
  | Some (userId, data) =>
      let '(s1, out1) :=
        match s_currentCall data with
        | Some currentCall =>
            if truthy currentCall
            then endCall s0 currentCall userId "Participant disconnected" ck
            else (s0, [])
        | None => (s0, [])
        end in
      let '(s2, out2) :=
        match s_currentRoom data with
        | Some currentRoom =>
            if truthy currentRoom then leaveRoom s1 conn currentRoom userId
            else (s1, [])
        | None => (s1, [])
        end in
      (set_userSessions (jm_delete userId (userSessions s2)) s2, out1 ++ out2)
  end.

(** [io.on('connection', (socket) => ...)]: the socket starts in the
    room named by its own id. *)
Definition on_connection (s : State) (conn : string) : State * list Output :=
  (set_socketRooms (<[conn := [conn]]> (socketRooms s)) s, []).

(** Messages a connection can deliver. *)
Inductive Msg :=
| Connection
| RegisterUser (userId : string) (userData : option UserData)
| JoinRoom (room userId : string) (userData : option UserData)
| Offer (data : RelayData)
| Answer (data : RelayData)
| IceCandidate (data : RelayData)
| InitiateCall (data : InitiateCallMsg) (uuid : string)
| AcceptCall (data : AcceptCallMsg)
| RejectCall (to sessionId : string) (reason : option string)
| EndCall (to sessionId : string) (reason : option string)
| Disconnect.

(** One run of the event loop: connection, clock of the run, message. *)
Record Event := { ev_conn : string; ev_clock : Clock; ev_msg : Msg }.

Definition handle (s : State) (e : Event) : State * list Output :=
  let conn := ev_conn e in
  let ck := ev_clock e in
  match ev_msg e with
  | Connection => on_connection s conn
  | RegisterUser userId userData => on_register_user s conn ck userId userData
  | JoinRoom room userId userData => on_join_room s conn ck room userId userData
  | Offer data => on_offer s conn data
  | Answer data => on_answer s conn data
  | IceCandidate data => on_ice_candidate s conn data
  | InitiateCall data uuid => on_initiate_call s conn ck data uuid
  | AcceptCall data => on_accept_call s conn ck data
  | RejectCall to sessionId reason => on_reject_call s conn to sessionId reason
  | EndCall to sessionId reason => on_end_call s conn ck to sessionId reason
  | Disconnect => on_disconnect s conn ck
  end.

(** A sequence of runs, with everything emitted along the way. *)
Fixpoint run (s : State) (es : list Event) : State * list Output :=
  match es with
  | [] => (s, [])
  | e :: es' =>
      let '(s1, out1) := handle s e in
      let '(s2, out2) := run s1 es' in
      (s2, out1 ++ out2)
  end.

Inductive reachable : State → Prop :=
| reachable_init : reachable init
| reachable_step s e : reachable s → reachable (handle s e).1.

(* ===================================================================== *)
(** ** The offer handler of VideoCall.jsx                                 *)
(* ===================================================================== *)

Module Client.

(** [CALL_STATUS] *)
Inductive CallStatus :=
| IDLE | CALLING | CONNECTING | CONNECTED | REJECTED | ENDED | ERROR.

(** A [simple-peer] object: the role it was constructed with, the
    signalling target and the remote descriptions fed to [signal]. *)
Record Peer := {
  initiator : bool;
  target : string;
  signalled : list blob;
  destroyed : bool
}.

Record CallerInfo := { id : string; name : string; type : string }.

(** The [data] of an incoming [offer]. *)
Record OfferData := {
  caller : string;
  callerName : option string;
  kind : string;
  offer : blob;
  sessionId : string
}.

(** [peerRef.current] is an index into [peers], the [Peer] objects
    constructed so far.  [suspended] holds the runs of the offer
    handler that wait at [await getUserMedia(...)].  Every function
    below gives the state at the instant the handler (or the
    continuation) returns.  The renders that its state updates cause,
    and the effect clean-up such a render can bring, are events of their
    own: [VideoCall.effect_cleanup]. *)
Record State := {
  peerRef : option nat;
  peers : list Peer;
  callStatus : CallStatus;
  callerInfo : option CallerInfo;
  suspended : list OfferData
}.

(** [data.callerInfo?.name || 'Unknown User'] *)
Definition caller_name (data : OfferData) : string :=
  match callerName data with
  | Some n => if truthy n then n else "Unknown User"
  | None => "Unknown User"
  end.

(** [socket.on('offer', async (data) => ...)] up to the [await]. *)
Definition on_offer (c : State) (data : OfferData) : State :=
  match peerRef c with
  | Some _ => c
  | None =>
      {| peerRef := None;
         peers := peers c;
         callStatus := CONNECTING;
         callerInfo :=
           Some {| id := caller data; name := caller_name data; type := kind data |};
         suspended := suspended c ++ [data] |}
  end.

(** The rest of the oldest suspended run, once its [getUserMedia]
    settles: [granted] tells whether the promise resolved.  This is the
    state when the continuation returns; the peer it has constructed is
    destroyed by the next [VideoCall.effect_cleanup], which comes with
    the render that [setLocalStream] and [setCallStatus] bring. *)
Definition on_offer_resume (c : State) (granted : bool) : State :=
  match suspended c with
  | [] => c
  | data :: rest =>
      if granted then
        {| peerRef := Some (length (peers c));
           peers := peers c ++
                    [{| initiator := false; target := caller data;
                        signalled := [offer data]; destroyed := false |}];
           callStatus := callStatus c;
           callerInfo := callerInfo c;
           suspended := rest |}
      else
        {| peerRef := peerRef c; peers := peers c; callStatus := ERROR;
           callerInfo := callerInfo c; suspended := rest |}
  end.

Definition live_peers (c : State) : list Peer :=
  filter (λ p, destroyed p = false) (peers c).

End Client.

(* ===================================================================== *)
(** ** Properties stated over the model                                  *)
(* ===================================================================== *)

Global Instance Dest_eq_dec : EqDecision Dest.
Proof. solve_decision. Defined.

(** [id] is a key of [userSessions]. *)
Definition registered (s : State) (id : string) : bool :=
  jm_has id (userSessions s).

(** Caller, callee and every participant of [c] are registered. *)
Definition call_registered (s : State) (c : Call) : bool :=
  registered s (c_caller c) && registered s (c_callee c) &&
  forallb (registered s) (c_participants c).

(** The ledger references registered identities only. *)
Definition ledger_registered (s : State) : Prop :=
  map_Forall (λ _ c, call_registered s c = true) (activeCalls s).

Definition references (c : Call) (id : string) : bool :=
  bool_decide (c_caller c = id) || bool_decide (c_callee c = id) ||
  bool_decide (id ∈ c_participants c).

(** What the handlers do not check themselves: [initiate-call] names a
    registered caller and callee, [accept-call] a registered [callerId],
    and a live call that references the identity removed by [disconnect]
    is the one recorded as its [currentCall]. *)
Definition guarded (s : State) (e : Event) : bool :=
  match ev_msg e with
  | InitiateCall data _ => registered s (ic_caller data) && registered s (ic_to data)
  | AcceptCall data => registered s (ac_callerId data)
  | Disconnect =>
      match session_of_socket (userSessions s) (ev_conn e) with
      | Some (userId, data) =>
          bool_decide
            (map_Forall
               (λ sid c, references c userId = true →
                         truthy sid = true ∧ s_currentCall data = Some sid)
               (activeCalls s))
      | None => true
      end
  | _ => true
  end.

Fixpoint all_guarded (s : State) (es : list Event) : bool :=
  match es with
  | [] => true
  | e :: es' => guarded s e && all_guarded (handle s e).1 es'
  end.

Definition is_call_ended (e : OutEvent) : bool :=
  match e with CallEnded _ _ _ _ => true | _ => false end.

(** The [call-ended] events addressed to socket [sock], by
    [io.to(sock)] or by that socket's own [emit]. *)
Definition call_ended_to (sock : string) (out : list Output) : list OutEvent :=
  snd <$> filter (λ o, (o.1 = ToRoom sock ∨ o.1 = ToSocket sock) ∧
                       is_call_ended o.2 = true) out.

(** A session that can be notified: it exists and has a socket id. *)
Definition live_session (s : State) (id : string) (u : Session) : Prop :=
  jm_get id (userSessions s) = Some u ∧ truthy (s_socketId u) = true.

Inductive RelayKind := KOffer | KAnswer | KIceCandidate.

Definition relay_msg (k : RelayKind) (data : RelayData) : Msg :=
  match k with
  | KOffer => Offer data
  | KAnswer => Answer data
  | KIceCandidate => IceCandidate data
  end.

(** The [message] of the error a relay handler emits on a miss. *)
Definition relay_error (k : RelayKind) : string :=
  match k with
  | KOffer => "Failed to send offer"
  | KAnswer => "Failed to send answer"
  | KIceCandidate => "Failed to send ICE candidate"
  end.

(** The negotiation payload of a relay message: the description for an
    offer or an answer, the candidate for an ice-candidate. *)
Definition payload_of (k : RelayKind) (data : RelayData) : option blob :=
  match k with
  | KOffer | KAnswer => Some (rd_body data)
  | KIceCandidate => rd_candidate data
  end.

(** The payload a forwarded event carries. *)
Definition forwarded_payload (e : OutEvent) : option blob :=
  match e with
  | OfferFwd d | AnswerFwd d => Some (rd_body d)
  | IceFwd _ candidate _ => candidate
  | _ => None
  end.

(** The sender a forwarded event names: the [caller] key of the data (if
    the client put one) or the [from] key the server adds. *)
Definition sender_tag (e : OutEvent) : option string :=
  match e with
  | OfferFwd d | AnswerFwd d =>
      if truthy (rd_caller d) then Some (rd_caller d) else None
  | IceFwd from _ _ => Some from
  | _ => None
  end.

(** The relay in the words of the specification: a miss gives the sender
    an error, a hit forwards the payload as it came to the target's
    connection, tagged with the identity of the sender. *)
Definition relay_as_specified (s : State) (conn sender : string)
    (k : RelayKind) (data : RelayData) (out : list Output) : Prop :=
  match jm_get (rd_to data) (userSessions s) with
  | None => ∃ message details, out = [to_self conn (Error message details)]
  | Some targetUser =>
      ∃ e, out = [(ToRoom (s_socketId targetUser), e)] ∧
           forwarded_payload e = payload_of k data ∧ sender_tag e = Some sender
  end.



(** The entries of [conn] in the member map of [room]. *)
Definition memberships (s : State) (conn room : string) : list (string * Member) :=
  filter (λ e, e.1 = conn) (default [] (rooms s !! room)).

(** Same participants as a set, same status. *)
Definition same_set_and_status (c1 c2 : Call) : Prop :=
  (∀ x, x ∈ c_participants c1 ↔ x ∈ c_participants c2) ∧
  c_status c1 = c_status c2.

(** The session id under which [initiate-call] stores its call. *)
Definition initiated_id (data : InitiateCallMsg) (uuid : string) : string :=
  if truthy (ic_sessionId data) then ic_sessionId data else uuid.

(** [e] is not an [initiate-call] that stores a call under [sid]. *)
Definition not_initiate_of (sid : string) (e : Event) : Prop :=
  match ev_msg e with
  | InitiateCall data uuid => initiated_id data uuid ≠ sid
  | _ => True
  end.

(** Every member map has distinct keys, as a JavaScript [Map] has. *)
Definition rooms_distinct (s : State) : Prop :=
  ∀ room roomData, rooms s !! room = Some roomData → NoDup roomData.*1.

Definition is_user_left (o : Output) : Prop :=
  ∃ conn room socketId userId, o = (ToOthers conn room, UserLeft socketId userId).

(* ===================================================================== *)
(** ** Further properties of the server state                            *)
(* ===================================================================== *)

(** No member map of the Room Directory is empty. *)
Definition rooms_nonempty (s : State) : Prop :=
  ∀ room roomData, rooms s !! room = Some roomData → roomData ≠ [].

(** The shape of a ledger entry: the caller is the first participant,
    and the entry is [initiated] exactly as long as nobody was added. *)
Definition call_shape (c : Call) : Prop :=
  head (c_participants c) = Some (c_caller c) ∧
  (c_status c = Initiated ↔ c_participants c = [c_caller c]) ∧
  (c_status c = Initiated ↔ c_answeredAt c = None).

(** What [saveCallDetails] can have written. *)
Definition record_shape (r : CallRecord) : Prop :=
  r_participants r ≠ [] ∧
  r_status r = (if includes "rejected" (r_reason r) then "rejected" else "completed").

(** Events of the call lifecycle. *)
Definition is_call_event (e : OutEvent) : bool :=
  match e with
  | IncomingCall _ _ _ _ _ | CallInitiated _ _ | CallAccepted _ _ _
  | CallRejected _ _ | CallEnded _ _ _ _ => true
  | _ => false
  end.

Definition is_initiate_call (m : Msg) : bool :=
  match m with InitiateCall _ _ => true | _ => false end.

(** Connection [conn] holds no identity other than [userId]. *)
Definition only_identity_of (s : State) (conn userId : string) : Prop :=
  ∀ id u, (id, u) ∈ userSessions s → s_socketId u = conn → id = userId.

(** The socket id to which the relay addresses a message for [id]. *)
Definition route (s : State) (id : string) : option string :=
  s_socketId <$> jm_get id (userSessions s).

(** The messages that leave the session of [userId] at connection [conn]:
    all but a register-user of that identity, a join-room that names it
    from another connection (join-room writes the joining socket into
    the session of the identity it names) and the disconnect of [conn]. *)
Definition keeps_route (userId conn : string) (e : Event) : bool :=
  match ev_msg e with
  | RegisterUser id _ => bool_decide (id ≠ userId)
  | JoinRoom _ id _ => bool_decide (id ≠ userId ∨ ev_conn e = conn)
  | Disconnect => bool_decide (ev_conn e ≠ conn)
  | _ => true
  end.

(** The messages whose handlers reach [endCall]. *)
Definition ends_calls (e : Event) : bool :=
  match ev_msg e with
  | EndCall _ _ _ | Disconnect => true
  | _ => false
  end.

(** The keys of the Session Registry are non-empty and distinct. *)
Definition sessions_ok (us : list (string * Session)) : Prop :=
  NoDup us.*1 ∧ Forall (λ id, id ≠ "") us.*1.

(* ===================================================================== *)
(** ** The CallNote model                                                *)
(* ===================================================================== *)

(** [server.js] requires [./models/CallNote]; the text of that module is
    the last of the documents in [server/routes/callRoutes.js].  It is a
    model for the notes taken during a call.  The model with a
    [sessionId], a [duration] and a [status] is [Call]
    ([server/models/Call.js]), which [server.js] does not use. *)
Module CallNote.

(** A value under a key of an object or a path of a document. *)
Inductive Value :=
| VString (s : string)
| VNumber (n : Z)
| VDate (t : Z)
| VStrings (l : list string).

(** A path of a mongoose schema: its name, [required], and whether it
    has a [default] (here always [Date.now]). *)
Record SchemaPath := { sp_name : string; sp_required : bool; sp_default : bool }.

(** [callNoteSchema]: [session], [author], [content] and [timestamp] are
    required, [createdAt] defaults to [Date.now]. *)
Definition callNoteSchema : list SchemaPath :=
  [ {| sp_name := "session"; sp_required := true; sp_default := false |};
    {| sp_name := "author"; sp_required := true; sp_default := false |};
    {| sp_name := "content"; sp_required := true; sp_default := false |};
    {| sp_name := "timestamp"; sp_required := true; sp_default := false |};
    {| sp_name := "createdAt"; sp_required := false; sp_default := true |} ].

(** The keys and values of the literal of [saveCallDetails]. *)
Definition literal (r : CallRecord) : list (string * Value) :=
  [ ("sessionId", VString (r_sessionId r));
    ("participants", VStrings (r_participants r));
    ("type", VString (r_type r));
    ("startedAt", VDate (r_startedAt r));
    ("endedAt", VDate (r_endedAt r));
    ("duration", VNumber (r_duration r));
    ("status", VString (r_status r));
    ("endedBy", VString (r_endedBy r));
    ("reason", VString (r_reason r)) ].

(** [new Model(obj)] with the default [strict] option: the document has
    the paths of the schema only; a path that [obj] sets takes that
    value, a path with a default that [obj] does not set takes the
    default ([now] is what [Date.now] returns), any other path is
    absent.  Keys of [obj] that are not paths of the schema are dropped.
    The generated [_id] and the casting of a value to the type of its
    path are left out. *)
Definition construct (schema : list SchemaPath) (obj : list (string * Value))
    (now : Z) : list (string * Value) :=
  omap (λ p, match jm_get (sp_name p) obj with
             | Some v => Some (sp_name p, v)
             | None => if sp_default p then Some (sp_name p, VDate now) else None
             end) schema.

(** [doc.validate()]: every required path has a value. *)
Definition validate (schema : list SchemaPath) (doc : list (string * Value)) : bool :=
  forallb (λ p, implb (sp_required p) (jm_has (sp_name p) doc)) schema.

(** [await callNote.save()] inside the [try] of [saveCallDetails]: the
    document that reaches the collection, if any.  A document that
    fails validation is not written; the rejected promise ends in the
    [catch], which logs the error. *)
Definition stored (r : CallRecord) (now : Z) : option (list (string * Value)) :=
  let doc := construct callNoteSchema (literal r) now in
  if validate callNoteSchema doc then Some doc else None.

End CallNote.

(* ===================================================================== *)
(** ** More of VideoCall.jsx                                             *)
(* ===================================================================== *)

Module VideoCall.

(** [Number.prototype.toString] of a whole number. *)
Definition toString (n : Z) : string := NilZero.string_of_int (Z.to_int n).

(** [String.prototype.padStart(targetLength, pad)] with a pad of one
    character. *)
Definition padStart (targetLength : nat) (pad : ascii) (s : string) : string :=
  String.string_of_list_ascii (replicate (targetLength - String.length s) pad) +:+ s.

(** [formatTime(seconds)].  The argument is [callDuration], a whole
    number of seconds ([Math.floor] of a quotient); [None] is [NaN].
    [Math.floor(seconds / 60)] rounds down, [%] truncates. *)
Definition formatTime (seconds : option Z) : string :=
  match seconds with
  | None => "00:00"
  | Some seconds =>
      let mins := (seconds / 60)%Z in
      let secs := Z.rem seconds 60 in
      padStart 2 "0" (toString mins) +:+ ":" +:+ padStart 2 "0" (toString secs)
  end.

(** The character of a decimal digit. *)
Definition digit (d : Z) : ascii := ascii_of_nat (48 + Z.to_nat d).

Record DebugLog := { message : string; type : string; timestamp : string }.

(** [l.slice(-n)] *)
Definition slice_last {A} (n : nat) (l : list A) : list A :=
  drop (length l - n) l.

(** [addDebugLog(message, type = 'info')]: the update it gives to
    [setDebugLogs]; [now] is [new Date().toLocaleTimeString()]. *)
Definition addDebugLog (prev : list DebugLog) (message : string)
    (type : option string) (now : string) : list DebugLog :=
  slice_last 50 prev ++
  [{| message := message; type := default "info" type; timestamp := now |}].

(** The calls of [addDebugLog] applied in order to an empty log. *)
Definition logged (calls : list (string * option string * string)) : list DebugLog :=
  foldl (λ prev call, addDebugLog prev call.1.1 call.1.2 call.2) [] calls.

Inductive TrackKind := audio | video.

Global Instance TrackKind_eq_dec : EqDecision TrackKind.
Proof. solve_decision. Defined.

(** A [MediaStreamTrack] and the local media state of the component. *)
Record Track := { kind : TrackKind; enabled : bool }.

Record Media := {
  localStream : option (list Track);
  isMuted : bool;
  isVideoOff : bool
}.

(** [getAudioTracks().forEach(track => { track.enabled = !track.enabled })]
    and the same for video. *)
Definition flip_tracks (k : TrackKind) (tracks : list Track) : list Track :=
  (λ t, if decide (kind t = k)
        then {| kind := kind t; enabled := negb (enabled t) |} else t) <$> tracks.

(** [toggleMute()], in a render that has seen the state updates of the
    calls before it (each call is its own click). *)
Definition toggleMute (m : Media) : Media :=
  match localStream m with
  | Some tracks =>
      {| localStream := Some (flip_tracks audio tracks);
         isMuted := negb (isMuted m); isVideoOff := isVideoOff m |}
  | None => m
  end.

(** [toggleVideo()] *)
Definition toggleVideo (m : Media) : Media :=
  match localStream m with
  | Some tracks =>
      {| localStream := Some (flip_tracks video tracks);
         isMuted := isMuted m; isVideoOff := negb (isVideoOff m) |}
  | None => m
  end.

(** The button shows the state of the tracks: [isMuted] exactly when
    the audio tracks are disabled, [isVideoOff] exactly when the video
    tracks are. *)
Definition in_sync (m : Media) : Prop :=
  ∀ tracks t, localStream m = Some tracks → t ∈ tracks →
    enabled t = negb (match kind t with audio => isMuted m | video => isVideoOff m end).

(** [peer.signal(data)] on the peer at index [i].  On a destroyed peer
    simple-peer raises an error and takes nothing in. *)
Definition signal (i : nat) (data : blob) (c : Client.State) : Client.State :=
  {| Client.peerRef := Client.peerRef c;
     Client.peers :=
       alter (λ p, if Client.destroyed p then p else
                     {| Client.initiator := Client.initiator p;
                        Client.target := Client.target p;
                        Client.signalled := Client.signalled p ++ [data];
                        Client.destroyed := false |}) i (Client.peers c);
     Client.callStatus := Client.callStatus c;
     Client.callerInfo := Client.callerInfo c;
     Client.suspended := Client.suspended c |}.

(** [socket.on('answer', (data) => ...)] *)
Definition on_answer (c : Client.State) (answer : blob) : Client.State :=
  match Client.peerRef c with
  | Some i =>
      match Client.peers c !! i with
      | Some p => if Client.destroyed p then c else signal i answer c
      | None => c
      end
  | None => c
  end.

(** [socket.on('ice-candidate', (data) => ...)]; [candidate] is
    [data.candidate]. *)
Definition on_ice_candidate (c : Client.State) (candidate : option blob)
    : Client.State :=
  match Client.peerRef c, candidate with
  | Some i, Some candidate => signal i candidate c
  | _, _ => c
  end.

(** [endCall()]: [socket] tells whether [socketRef.current] is set.  The
    media streams it also stops are not part of this state. *)
Definition endCall (c : Client.State) (socket : bool)
    (otherParticipantId sessionId : string) : Client.State * list Msg :=
  let to :=
    if truthy otherParticipantId then otherParticipantId
    else from_option Client.id "" (Client.callerInfo c) in
  ({| Client.peerRef := None;
      Client.peers :=
        match Client.peerRef c with
        | Some i =>
            alter (λ p, {| Client.initiator := Client.initiator p;
                           Client.target := Client.target p;
                           Client.signalled := Client.signalled p;
                           Client.destroyed := true |}) i (Client.peers c)
        | None => Client.peers c
        end;
      Client.callStatus := Client.ENDED;
      Client.callerInfo := Client.callerInfo c;
      Client.suspended := Client.suspended c |},
   if socket then [EndCall to sessionId (Some "Call ended by user")] else []).

(** [rejectCall()]: the state when it returns; the current peer is not
    touched.  Its [setCallStatus] and [cleanupMediaStreams()] lead to a
    render, with which the effect clean-up can run. *)
Definition rejectCall (c : Client.State) (socket : bool) (sessionId : string)
    : Client.State * list Msg :=
  ({| Client.peerRef := Client.peerRef c;
      Client.peers := Client.peers c;
      Client.callStatus := Client.REJECTED;
      Client.callerInfo := Client.callerInfo c;
      Client.suspended := Client.suspended c |},
   match socket, Client.callerInfo c with
   | true, Some info =>
       [RejectCall (Client.id info) sessionId (Some "Call rejected by user")]
   | _, _ => []
   end).

(** The clean-up of the initialising effect (the function returned under
    "Initialize"), which React runs before the effect runs again, so
    with a render in which [initializeSocket] or [cleanupMediaStreams]
    has changed ([callStatus] and [localStream] are among their
    dependencies), and on unmount: [peerRef.current.destroy()] when a
    peer is set.  [peerRef.current] is not reset.  The socket it
    disconnects and the streams it stops are not part of this state. *)
Definition effect_cleanup (c : Client.State) : Client.State :=
  {| Client.peerRef := Client.peerRef c;
     Client.peers :=
       match Client.peerRef c with
       | Some i =>
           alter (λ p, {| Client.initiator := Client.initiator p;
                          Client.target := Client.target p;
                          Client.signalled := Client.signalled p;
                          Client.destroyed := true |}) i (Client.peers c)
       | None => Client.peers c
       end;
     Client.callStatus := Client.callStatus c;
     Client.callerInfo := Client.callerInfo c;
     Client.suspended := Client.suspended c |}.

(** The listeners that set [callStatus] and touch nothing else of this
    state: ['call-rejected'] and ['call-ended'] of the socket,
    ['stream'], ['error'] and ['close'] of a peer. *)
Definition set_callStatus (st : Client.CallStatus) (c : Client.State)
    : Client.State :=
  {| Client.peerRef := Client.peerRef c; Client.peers := Client.peers c;
     Client.callStatus := st; Client.callerInfo := Client.callerInfo c;
     Client.suspended := Client.suspended c |}.

End VideoCall.

(** What can happen to the component, one at a time: a message of the
    socket, a settled [getUserMedia] of the oldest waiting run of the
    offer handler, a listener that sets the status, a click on reject,
    a run of the effect clean-up.  [endCall()], which resets
    [peerRef.current], and [startCall] and [answerCall], which assign it
    without a test, are not among them. *)
Inductive ClientEvent :=
| OfferArrives (data : Client.OfferData)
| MediaSettles (granted : bool)
| AnswerArrives (answer : blob)
| CandidateArrives (candidate : option blob)
| StatusChanges (st : Client.CallStatus)
| RejectClicked (socket : bool) (sessionId : string)
| EffectCleanup.

Definition client_step (c : Client.State) (e : ClientEvent) : Client.State :=
  match e with
  | OfferArrives data => Client.on_offer c data
  | MediaSettles granted => Client.on_offer_resume c granted
  | AnswerArrives answer => VideoCall.on_answer c answer
  | CandidateArrives candidate => VideoCall.on_ice_candidate c candidate
  | StatusChanges st => VideoCall.set_callStatus st c
  | RejectClicked socket sessionId => (VideoCall.rejectCall c socket sessionId).1
  | EffectCleanup => VideoCall.effect_cleanup c
  end.

Definition client_run (c : Client.State) (es : list ClientEvent) : Client.State :=
  foldl client_step c es.

(** Role and target of the peer connections constructed so far. *)
Definition roles (c : Client.State) : list (bool * string) :=
  (λ p, (Client.initiator p, Client.target p)) <$> Client.peers c.

(** The events of one connection that delivers [msgs] in order. *)
Definition delivered (conn : string) (ck : Clock) (msgs : list Msg) : list Event :=
  (λ m, {| ev_conn := conn; ev_clock := ck; ev_msg := m |}) <$> msgs.

(** The outputs are addressed to the connection itself. *)
Definition only_to_self (conn : string) (out : list Output) : Prop :=
  Forall (λ o, o.1 = ToSocket conn) out.

(* ===================================================================== *)
(** ** Concrete runs used as examples                                    *)
(* ===================================================================== *)

(** A clock that reads [t] during the whole run of a handler. *)
Definition at_time (t : Z) : Clock := λ _, t.

(** A clock whose k-th read is [t + k]. *)
Definition ticking (t : Z) : Clock := λ k, (t + Z.of_nat k)%Z.

Definition event (conn : string) (t : Z) (msg : Msg) : Event :=
  {| ev_conn := conn; ev_clock := at_time t; ev_msg := msg |}.

Definition call_msg (to caller sessionId : string) : InitiateCallMsg :=
  {| ic_to := to; ic_caller := caller; ic_type := None; ic_offer := Some "sdp-offer";
     ic_sessionId := sessionId |}.

Definition accept_msg (to sessionId callerId : string) : AcceptCallMsg :=
  {| ac_to := to; ac_answer := Some "sdp-answer"; ac_sessionId := sessionId;
     ac_callerId := callerId |}.

(** What the client of this repository sends as [userData]. *)
Definition client_userData (name conn : string) : option UserData :=
  Some {| ud_socketId := Some conn; ud_userId := None; ud_currentRoom := None;
          ud_currentCall := None; ud_userData := None; ud_meta := name |}.

(** alice on connection c1 and bob on c2 register and join room "abc". *)
Definition alice_and_bob : list Event :=
  [ event "c1" 0 Connection;
    event "c1" 1 (RegisterUser "alice" (client_userData "Alice" "c1"));
    event "c1" 2 (JoinRoom "abc" "alice" (client_userData "Alice" "c1"));
    event "c2" 3 Connection;
    event "c2" 4 (RegisterUser "bob" (client_userData "Bob" "c2"));
    event "c2" 5 (JoinRoom "abc" "bob" (client_userData "Bob" "c2")) ].

(** alice calls bob under session id "s1". *)
Definition alice_calls_bob : list Event :=
  alice_and_bob ++ [ event "c1" 10 (InitiateCall (call_msg "bob" "alice" "s1") "uuid-1") ].

(** ... and bob accepts. *)
Definition call_in_progress : list Event :=
  alice_calls_bob ++ [ event "c2" 20 (AcceptCall (accept_msg "alice" "s1" "bob")) ].

(** Only bob is registered; connection c1 initiates a call in the name
    of "alice", who never registered. *)
Definition unregistered_caller : list Event :=
  [ event "c2" 0 Connection;
    event "c2" 1 (RegisterUser "bob" (client_userData "Bob" "c2"));
    event "c1" 2 Connection;
    event "c1" 3 (InitiateCall (call_msg "bob" "alice" "s1") "uuid-1") ].

(** ... and alice ends the call. *)
Definition call_ended : list Event :=
  call_in_progress ++ [ event "c1" 30 (EndCall "bob" "s1" (Some "Call ended by user")) ].

(** Messages that name session "s1", none of them an initiate-call. *)
Definition late_messages : list Event :=
  [ event "c2" 31 (Offer {| rd_to := "alice"; rd_caller := "bob"; rd_sessionId := "s1";
                            rd_candidate := None; rd_body := "sdp-offer" |});
    event "c1" 32 (Answer {| rd_to := "bob"; rd_caller := ""; rd_sessionId := "s1";
                             rd_candidate := None; rd_body := "sdp-answer" |});
    event "c2" 33 (IceCandidate {| rd_to := "alice"; rd_caller := ""; rd_sessionId := "s1";
                                   rd_candidate := Some "candidate"; rd_body := "" |});
    event "c2" 34 (AcceptCall (accept_msg "alice" "s1" "bob"));
    event "c2" 35 (RejectCall "alice" "s1" None);
    event "c2" 36 (EndCall "alice" "s1" None) ].

(** The initiate-call of [alice_calls_bob], delivered once more. *)
Definition initiate_again (t : Z) : Event :=
  event "c1" t (InitiateCall (call_msg "bob" "alice" "s1") "uuid-2").

(** alice's transport flaps: she registers again from connection c9. *)
Definition alice_reconnects : list Event :=
  alice_and_bob ++ [ event "c9" 6 Connection ].

(** An ice-candidate from bob for alice. *)
Definition candidate_for_alice : RelayData :=
  {| rd_to := "alice"; rd_caller := ""; rd_sessionId := "s1";
     rd_candidate := Some "candidate"; rd_body := "" |}.

(** What follows alice's registration from c9: her client joins the room
    again, bob sends an offer, and the server learns that the old
    connection c1 is gone. *)
Definition after_reregistration : list Event :=
  [ event "c9" 8 (JoinRoom "abc" "alice" (client_userData "Alice" "c9"));
    event "c2" 9 (Offer candidate_for_alice);
    event "c1" 10 Disconnect ].

(** kim, on connection c1, joins the room named "c1"; jo, on c2, joins
    it too. *)
Definition own_room_rejoin : list Event :=
  [ event "c1" 0 Connection;
    event "c1" 1 (JoinRoom "c1" "kim" None);
    event "c2" 2 Connection;
    event "c2" 3 (JoinRoom "c1" "jo" None) ].

(** Glare seen from bob's client: it has started a call to alice, so
    [peerRef.current] is the peer it created as initiator, when alice's
    own offer comes in. *)
Definition calling_client : Client.State :=
  {| Client.peerRef := Some 0%nat;
     Client.peers := [{| Client.initiator := true; Client.target := "alice";
                         Client.signalled := []; Client.destroyed := false |}];
     Client.callStatus := Client.CALLING;
     Client.callerInfo := None;
     Client.suspended := [] |}.

Definition offer_from_alice : Client.OfferData :=
  {| Client.caller := "alice"; Client.callerName := Some "Alice";
     Client.kind := "video"; Client.offer := "sdp-offer-2";
     Client.sessionId := "s1" |}.

(** A second offer for the same call. *)
Definition second_offer_from_alice : Client.OfferData :=
  {| Client.caller := "alice"; Client.callerName := Some "Alice";
     Client.kind := "video"; Client.offer := "sdp-offer-3";
     Client.sessionId := "s1" |}.

(** Two offers arrive while the first run of the offer handler waits
    for the camera; then both media requests are granted. *)
Definition offers_before_media : list ClientEvent :=
  [ OfferArrives offer_from_alice; OfferArrives second_offer_from_alice;
    MediaSettles true; MediaSettles true ].

(** The same, with a render, and the effect clean-up it brings, after
    each of the first three events. *)
Definition offers_before_media_render : list ClientEvent :=
  [ OfferArrives offer_from_alice; EffectCleanup;
    OfferArrives second_offer_from_alice; EffectCleanup;
    MediaSettles true; EffectCleanup; MediaSettles true ].

(** What bob's client sees during glare once its own peer exists. *)
Definition glare_traffic : list ClientEvent :=
  [ OfferArrives offer_from_alice; EffectCleanup; CandidateArrives (Some "candidate");
    OfferArrives second_offer_from_alice; MediaSettles true ].

(** A client that has not created any peer connection. *)
Definition idle_client : Client.State :=
  {| Client.peerRef := None; Client.peers := []; Client.callStatus := Client.IDLE;
     Client.callerInfo := None; Client.suspended := [] |}.

(** A local stream with one audio and one video track, both enabled. *)
Definition camera_and_microphone : VideoCall.Media :=
  {| VideoCall.localStream :=
       Some [ {| VideoCall.kind := VideoCall.audio; VideoCall.enabled := true |};
              {| VideoCall.kind := VideoCall.video; VideoCall.enabled := true |} ];
     VideoCall.isMuted := false; VideoCall.isVideoOff := false |}.

(* ===================================================================== *)
(** ** Lemmas on the insertion-ordered collections                       *)
(* ===================================================================== *)

Section js_collections_lemmas.
Context {K V : Type} `{EqDecision K}.
Implicit Types (k : K) (v : V) (m : list (K * V)).

Lemma jm_get_set_eq k v m : jm_get k (jm_set k v m) = Some v.
Proof.
  induction m as [|[k' v'] m IH]; simpl.
  - by rewrite decide_True.
  - destruct (decide (k' = k)) as [->|Hne]; simpl.
    + by rewrite decide_True.
    + by rewrite decide_False.
Qed.

Lemma jm_get_set_ne k k' v m : k ≠ k' → jm_get k' (jm_set k v m) = jm_get k' m.
Proof.
  intros Hne. induction m as [|[k0 v0] m IH]; simpl.
  - by rewrite decide_False.
  - destruct (decide (k0 = k)) as [->|Hk0]; simpl.
    + by rewrite !decide_False.
    + by rewrite IH.
Qed.

Lemma jm_get_set k k' v m :
  jm_get k' (jm_set k v m) = if decide (k = k') then Some v else jm_get k' m.
Proof.
  destruct (decide (k = k')) as [->|Hne];
    [apply jm_get_set_eq | by apply jm_get_set_ne].
Qed.

Lemma jm_get_delete_eq k m : jm_get k (jm_delete k m) = None.
Proof.
  unfold jm_delete. induction m as [|[k' v'] m IH]; [done|].
  rewrite filter_cons. simpl. destruct (decide (k' ≠ k)); simpl; [|done].
  by rewrite decide_False.
Qed.

Lemma jm_get_delete_ne k k' m : k ≠ k' → jm_get k' (jm_delete k m) = jm_get k' m.
Proof.
  intros Hne. unfold jm_delete. induction m as [|[k0 v0] m IH]; [done|].
  rewrite filter_cons. simpl. destruct (decide (k0 ≠ k)) as [Hk|Hk]; simpl.
  - by rewrite IH.
  - apply dec_stable in Hk as ->. by rewrite decide_False.
Qed.

Lemma jm_has_set k k' v m :
  jm_has k' (jm_set k v m) = bool_decide (k = k') || jm_has k' m.
Proof.
  unfold jm_has. rewrite jm_get_set.
  destruct (decide (k = k')) as [->|Hne].
  - by rewrite bool_decide_true.
  - by rewrite bool_decide_false.
Qed.

Lemma jm_has_get k m : jm_has k m = true ↔ is_Some (jm_get k m).
Proof.
  unfold jm_has. destruct (jm_get k m); split; try done; by eauto.
Qed.

Lemma jm_has_delete k k' m :
  jm_has k' (jm_delete k m) = negb (bool_decide (k = k')) && jm_has k' m.
Proof.
  unfold jm_has. destruct (decide (k = k')) as [->|Hne].
  - by rewrite jm_get_delete_eq, bool_decide_true.
  - by rewrite jm_get_delete_ne, bool_decide_false.
Qed.

Lemma jm_get_elem_of k v m : jm_get k m = Some v → (k, v) ∈ m.
Proof.
  induction m as [|[k' v'] m IH]; simpl; [done|].
  destruct (decide (k' = k)) as [->|Hne].
  - intros [= ->]. apply list_elem_of_here.
  - intros Hg. apply list_elem_of_further. by apply IH.
Qed.

Lemma jm_get_None_keys k m : jm_get k m = None ↔ k ∉ m.*1.
Proof.
  induction m as [|[k' v'] m IH]; simpl.
  - split; [intros _; apply not_elem_of_nil | done].
  - rewrite not_elem_of_cons. destruct (decide (k' = k)) as [->|Hne].
    + split; [done | by intros [? _]].
    + rewrite IH. split; [by intros ?; split | by intros [_ ?]].
Qed.

Lemma jm_set_keys_present k v m :
  is_Some (jm_get k m) → (jm_set k v m).*1 = m.*1.
Proof.
  induction m as [|[k' v'] m IH]; csimpl.
  - by intros [? ?].
  - destruct (decide (k' = k)) as [->|Hne]; csimpl; [done|].
    intros Hs. by rewrite IH.
Qed.

Lemma jm_set_keys_absent k v m :
  jm_get k m = None → (jm_set k v m).*1 = m.*1 ++ [k].
Proof.
  induction m as [|[k' v'] m IH]; csimpl; [done|].
  destruct (decide (k' = k)) as [->|Hne]; csimpl; [done|].
  intros Hs. by rewrite IH.
Qed.

Lemma jm_set_NoDup k v m : NoDup m.*1 → NoDup (jm_set k v m).*1.
Proof.
  intros Hnd. destruct (jm_get k m) eqn:Hg.
  - by rewrite jm_set_keys_present.
  - rewrite jm_set_keys_absent by done.
    apply NoDup_app. split_and!; [done| |apply NoDup_singleton].
    intros x Hx ->%list_elem_of_singleton. by apply jm_get_None_keys in Hg.
Qed.

Lemma jm_delete_NoDup k m : NoDup m.*1 → NoDup (jm_delete k m).*1.
Proof.
  unfold jm_delete. induction m as [|[k' v'] m IH]; simpl; [done|].
  rewrite NoDup_cons. intros [Hk' Hnd]. rewrite filter_cons. simpl.
  destruct (decide (k' ≠ k)); simpl; [|by apply IH].
  apply NoDup_cons. split; [|by apply IH].
  intros Hin. apply Hk'. apply list_elem_of_fmap in Hin as [[k0 v0] [-> Hin]].
  apply list_elem_of_filter in Hin as [_ Hin].
  apply list_elem_of_fmap. by exists (k0, v0).
Qed.

(** With distinct keys, a key that is present has exactly one entry. *)
Lemma jm_NoDup_one_entry k m :
  NoDup m.*1 → is_Some (jm_get k m) → length (filter (λ e, e.1 = k) m) = 1.
Proof.
  induction m as [|[k' v'] m IH]; simpl.
  - by intros _ [? ?].
  - rewrite NoDup_cons. intros [Hk' Hnd]. rewrite filter_cons. simpl.
    destruct (decide (k' = k)) as [->|Hne].
    + intros _. destruct (filter _ m) as [|[k0 v0] l] eqn:Hf; [done|].
      exfalso. apply Hk'.
      assert ((k0, v0) ∈ filter (λ e, e.1 = k) m) as Hin
        by (rewrite Hf; apply list_elem_of_here).
      apply list_elem_of_filter in Hin as [Hk0 Hin]. simpl in Hk0. subst k0.
      apply list_elem_of_fmap. by exists (k, v0).
    + by apply IH.
Qed.

Lemma js_set_add_elem (x y : K) (l : list K) :
  y ∈ js_set_add x l ↔ y = x ∨ y ∈ l.
Proof.
  unfold js_set_add. destruct (decide (x ∈ l)) as [Hin|Hnin].
  - split; [by right | intros [->|?]; done].
  - rewrite elem_of_app, list_elem_of_singleton. tauto.
Qed.

Lemma js_set_add_NoDup (x : K) (l : list K) : NoDup l → NoDup (js_set_add x l).
Proof.
  intros Hnd. unfold js_set_add. destruct (decide (x ∈ l)); [done|].
  apply NoDup_app. split_and!; [done| |apply NoDup_singleton].
  by intros y Hy ->%list_elem_of_singleton.
Qed.
End js_collections_lemmas.

(* ===================================================================== *)
(** ** Truthiness                                                        *)
(* ===================================================================== *)

Lemma truthy_falsy x : truthy x = true → falsy x = false.
Proof. unfold truthy. by intros ?%negb_true_iff. Qed.

Lemma truthy_nonempty x : truthy x = true ↔ x ≠ "".
Proof.
  unfold truthy, falsy. rewrite negb_true_iff, bool_decide_eq_false. done.
Qed.

(** Turn hypotheses [truthy x = true] into [falsy x = false] and rewrite
    with them, to enter the branch of a handler past its checks. *)
Ltac pass_checks :=
  repeat match goal with
         | H : truthy _ = true |- _ => apply truthy_falsy in H; try rewrite H
         end.

(* ===================================================================== *)
(** ** What each helper and handler touches                              *)
(* ===================================================================== *)

Lemma leaveRoom_frame s conn room userId :
  activeCalls (leaveRoom s conn room userId).1 = activeCalls s ∧
  userSessions (leaveRoom s conn room userId).1 = userSessions s ∧
  callNotes (leaveRoom s conn room userId).1 = callNotes s.
Proof.
  unfold leaveRoom, socket_leave. destruct (falsy room); [done|].
  destruct (socketRooms s !! conn); simpl;
    (destruct (rooms s !! room) as [roomData|]; [|done]);
    destruct (jm_get conn roomData); case_decide; done.
Qed.

Lemma leave_current_room_frame s conn userId :
  activeCalls (leave_current_room s conn userId).1 = activeCalls s ∧
  userSessions (leave_current_room s conn userId).1 = userSessions s ∧
  callNotes (leave_current_room s conn userId).1 = callNotes s.
Proof.
  unfold leave_current_room. case_decide; [|done].
  destruct (list_find _ _) as [[i r]|]; [|done].
  destruct (truthy r); [apply leaveRoom_frame | done].
Qed.

Lemma clear_currentCall_has sid us p id :
  jm_has id (clear_currentCall sid us p) = jm_has id us.
Proof.
  unfold clear_currentCall. destruct (jm_get p us) as [u|] eqn:Hp; [|done].
  case_decide; [|done]. rewrite jm_has_set.
  destruct (decide (p = id)) as [->|Hne].
  - unfold jm_has. rewrite Hp. apply orb_true_r.
  - by rewrite bool_decide_false.
Qed.

Lemma foldl_clear_currentCall_has sid ps us id :
  jm_has id (foldl (clear_currentCall sid) us ps) = jm_has id us.
Proof.
  revert us. induction ps as [|p ps IH]; intros us; simpl; [done|].
  by rewrite IH, clear_currentCall_has.
Qed.

(** [endCall] removes the call (if any) and keeps the registry's keys. *)
Lemma endCall_activeCalls s sid userId reason ck :
  activeCalls (endCall s sid userId reason ck).1 =
  if falsy sid then activeCalls s else delete sid (activeCalls s).
Proof.
  unfold endCall. destruct (falsy sid); [done|].
  destruct (activeCalls s !! sid) as [call|] eqn:Hc.
  - by case_decide.
  - simpl. symmetry. by apply delete_id.
Qed.

Lemma endCall_registered s sid userId reason ck id :
  registered (endCall s sid userId reason ck).1 id = registered s id.
Proof.
  unfold endCall, registered. destruct (falsy sid); [done|].
  destruct (activeCalls s !! sid) as [call|]; [|done].
  case_decide; simpl; apply foldl_clear_currentCall_has.
Qed.

Lemma endCall_rooms s sid userId reason ck :
  rooms (endCall s sid userId reason ck).1 = rooms s ∧
  socketRooms (endCall s sid userId reason ck).1 = socketRooms s.
Proof.
  unfold endCall. destruct (falsy sid); [done|].
  destruct (activeCalls s !! sid) as [call|]; [|done].
  by case_decide.
Qed.

(* ===================================================================== *)
(** ** The ledger and the registry                                       *)
(* ===================================================================== *)

Lemma call_registered_mono s s' c :
  (∀ id, registered s id = true → registered s' id = true) →
  call_registered s c = true → call_registered s' c = true.
Proof.
  intros Hmono. unfold call_registered.
  rewrite !andb_true_iff, !forallb_forall.
  intros [[Hc He] Hp]. split_and!; auto.
Qed.

Lemma ledger_registered_mono s s' :
  (∀ id, registered s id = true → registered s' id = true) →
  activeCalls s' ⊆ activeCalls s →
  ledger_registered s → ledger_registered s'.
Proof.
  intros Hmono Hsub Hok sid c Hsid.
  eapply call_registered_mono; [done|].
  eapply Hok. by eapply lookup_weaken.
Qed.

Lemma ledger_registered_insert s s' sid c :
  (∀ id, registered s id = true → registered s' id = true) →
  activeCalls s' = <[sid := c]> (activeCalls s) →
  call_registered s' c = true →
  ledger_registered s → ledger_registered s'.
Proof.
  intros Hmono Hins Hc Hok sid' c'. rewrite Hins, lookup_insert.
  case_decide.
  - by intros [= <-].
  - intros Hsid'. eapply call_registered_mono; [done|]. by eapply Hok.
Qed.

Lemma registered_set_present s id u id' :
  jm_get id (userSessions s) = Some u →
  ∀ v, registered (set_userSessions (jm_set id v (userSessions s)) s) id'
       = registered s id'.
Proof.
  intros Hid v. unfold registered. simpl. rewrite jm_has_set.
  destruct (decide (id = id')) as [->|Hne].
  - unfold jm_has. rewrite Hid. apply orb_true_r.
  - by rewrite bool_decide_false.
Qed.

(** A call that does not reference [id] stays registered when [id] is
    removed from the registry. *)
Lemma call_registered_delete s s' id c :
  (∀ x, x ≠ id → registered s x = true → registered s' x = true) →
  references c id = false →
  call_registered s c = true → call_registered s' c = true.
Proof.
  intros Hkeep. unfold references, call_registered.
  rewrite !orb_false_iff, !bool_decide_eq_false, !andb_true_iff, !forallb_forall.
  intros [[Hc He] Hp] [[Rc Re] Rp]. split_and!.
  - apply Hkeep; [congruence | done].
  - apply Hkeep; [congruence | done].
  - intros x Hx. apply Hkeep; [|by apply Rp].
    intros ->. apply Hp. by apply list_elem_of_In.
Qed.

Lemma on_register_user_ledger s conn ck userId userData :
  ledger_registered s →
  ledger_registered (on_register_user s conn ck userId userData).1.
Proof.
  unfold on_register_user. destruct (falsy userId); [done|]. simpl.
  apply ledger_registered_mono; [|done].
  intros id Hid. unfold registered in *. simpl. rewrite jm_has_set, Hid.
  apply orb_true_r.
Qed.

Lemma on_join_room_frame s conn ck room userId userData :
  activeCalls (on_join_room s conn ck room userId userData).1 = activeCalls s ∧
  (∀ id, registered (on_join_room s conn ck room userId userData).1 id
         = registered s id) ∧
  callNotes (on_join_room s conn ck room userId userData).1 = callNotes s.
Proof.
  unfold on_join_room. destruct (falsy room || falsy userId); [done|].
  pose proof (leave_current_room_frame s conn userId) as (Hc & Hu & Hn).
  destruct (leave_current_room s conn userId) as [s1 out1]. simpl in *.
  destruct (jm_get userId (userSessions s1)) as [u|] eqn:Hget; simpl.
  - split_and!; [done| |done]. intros id. unfold registered. simpl.
    rewrite jm_has_set, <- Hu. destruct (decide (userId = id)) as [->|Hne].
    + unfold jm_has. rewrite Hget. apply orb_true_r.
    + by rewrite bool_decide_false.
  - split_and!; [done| |done]. intros id. unfold registered. simpl. by rewrite Hu.
Qed.

Lemma on_initiate_call_ledger s conn ck data uuid :
  registered s (ic_caller data) = true → registered s (ic_to data) = true →
  ledger_registered s →
  ledger_registered (on_initiate_call s conn ck data uuid).1.
Proof.
  intros Hcaller Hto Hok. unfold on_initiate_call.
  destruct (falsy (ic_to data) || falsy (ic_caller data)); [done|].
  set (sid := if truthy (ic_sessionId data) then ic_sessionId data else uuid).
  set (call := {| c_caller := ic_caller data |}).
  set (s1 := set_activeCalls _ s).
  assert (∃ s2, (match jm_get (ic_caller data) (userSessions s1) with
                 | Some userData =>
                     set_userSessions
                       (jm_set (ic_caller data)
                          (with_currentCall (Some sid) userData) (userSessions s1)) s1
                 | None => s1 end) = s2 ∧
                activeCalls s2 = <[sid := call]> (activeCalls s) ∧
                ∀ id, registered s2 id = registered s id) as (s2 & -> & Hc2 & Hr2).
  { destruct (jm_get (ic_caller data) (userSessions s1)) as [u|] eqn:Hget.
    - eexists; split_and!; [done|done|].
      intros id. by erewrite registered_set_present.
    - by eexists. }
  assert (ledger_registered s2) as Hok2.
  { eapply (ledger_registered_insert s); [|done| |done].
    - intros id. by rewrite Hr2.
    - unfold call_registered. simpl. by rewrite !Hr2, Hcaller, Hto. }
  by destruct (jm_get (ic_to data) (userSessions s2)).
Qed.

Lemma on_accept_call_ledger s conn ck data :
  registered s (ac_callerId data) = true →
  ledger_registered s →
  ledger_registered (on_accept_call s conn ck data).1.
Proof.
  intros Hcallee Hok. unfold on_accept_call.
  destruct (falsy (ac_to data) || falsy (ac_sessionId data)); [done|].
  destruct (activeCalls s !! ac_sessionId data) as [call|] eqn:Hcall; [|done].
  set (call' := accepted call _ _ _).
  set (s1 := set_activeCalls _ s).
  assert (∃ s2, (match jm_get (ac_callerId data) (userSessions s1) with
                 | Some userData =>
                     set_userSessions
                       (jm_set (ac_callerId data)
                          (with_currentCall (Some (ac_sessionId data)) userData)
                          (userSessions s1)) s1
                 | None => s1 end) = s2 ∧
                activeCalls s2 = <[ac_sessionId data := call']> (activeCalls s) ∧
                ∀ id, registered s2 id = registered s id) as (s2 & -> & Hc2 & Hr2).
  { destruct (jm_get (ac_callerId data) (userSessions s1)) as [u|] eqn:Hget.
    - eexists; split_and!; [done|done|].
      intros id. by erewrite registered_set_present.
    - by eexists. }
  assert (ledger_registered s2) as Hok2.
  { eapply (ledger_registered_insert s); [|done| |done].
    - intros id. by rewrite Hr2.
    - apply Hok in Hcall.
      apply (call_registered_mono s s2) in Hcall; [|by intros id; rewrite Hr2].
      assert (registered s2 (ac_callerId data) = true) as H2 by by rewrite Hr2.
      revert Hcall. unfold call_registered, call', accepted.
      cbn [c_caller c_callee c_participants].
      rewrite !andb_true_iff, forallb_app, andb_true_iff. cbn [forallb].
      rewrite H2. by intros [[-> ->] ->]. }
  by destruct (jm_get (ac_to data) (userSessions s2)).
Qed.

Lemma on_reject_call_ledger s conn to sid reason :
  ledger_registered s → ledger_registered (on_reject_call s conn to sid reason).1.
Proof.
  intros Hok. unfold on_reject_call.
  destruct (falsy to || falsy sid); [done|].
  destruct (activeCalls s !! sid) as [call|]; [|done].
  apply (ledger_registered_mono s); [|apply delete_subseteq|done].
  intros id. unfold registered. cbn -[foldl].
  by rewrite foldl_clear_currentCall_has.
Qed.

Lemma endCall_ledger s sid userId reason ck :
  ledger_registered s → ledger_registered (endCall s sid userId reason ck).1.
Proof.
  intros Hok. apply (ledger_registered_mono s); [| |done].
  - intros id. by rewrite endCall_registered.
  - rewrite endCall_activeCalls. destruct (falsy sid); [done|].
    apply delete_subseteq.
Qed.

Lemma session_of_socket_get us conn userId data :
  session_of_socket us conn = Some (userId, data) →
  (userId, data) ∈ us ∧ s_socketId data = conn.
Proof.
  unfold session_of_socket.
  destruct (list_find _ us) as [[i [u d]]|] eqn:Hfind; [|done].
  intros [= -> ->]. apply list_find_Some in Hfind as (Hi & Hs & _).
  split; [by eapply list_elem_of_lookup_2 | done].
Qed.

Lemma on_disconnect_ledger s conn ck :
  guarded s {| ev_conn := conn; ev_clock := ck; ev_msg := Disconnect |} = true →
  ledger_registered s → ledger_registered (on_disconnect s conn ck).1.
Proof.
  unfold guarded, on_disconnect. simpl. intros Hg Hok.
  destruct (session_of_socket (userSessions s) conn) as [[userId data]|]; [|done].
  apply bool_decide_eq_true in Hg.
  set (s0 := set_socketRooms _ s).
  assert (∃ r, (match s_currentCall data with
                | Some currentCall =>
                    if truthy currentCall
                    then endCall s0 currentCall userId "Participant disconnected" ck
                    else (s0, [])
                | None => (s0, [])
                end) = r ∧
               (∀ id, registered r.1 id = registered s id) ∧
               activeCalls r.1 ⊆ activeCalls s ∧
               ∀ sid c, activeCalls r.1 !! sid = Some c → references c userId = false)
    as ([s1 out1] & -> & Hr1 & Hsub1 & Href1).
  { eexists; split; [done|].
    destruct (s_currentCall data) as [cc|] eqn:Hcc.
    - destruct (truthy cc) eqn:Htr.
      + split_and!.
        * intros id. by rewrite endCall_registered.
        * rewrite endCall_activeCalls. destruct (falsy cc); [done|].
          apply delete_subseteq.
        * intros sid c. rewrite endCall_activeCalls.
          rewrite (truthy_falsy _ Htr).
          rewrite lookup_delete. case_decide; [done|].
          intros Hsid. destruct (references c userId) eqn:Href; [|done].
          destruct (Hg _ _ Hsid Href) as [_ [= ->]]. done.
      + split_and!; [done|done|]. simpl. intros sid c Hsid.
        destruct (references c userId) eqn:Href; [|done].
        destruct (Hg _ _ Hsid Href) as [Ht [= ->]]. congruence.
    - split_and!; [done|done|]. simpl. intros sid c Hsid.
      destruct (references c userId) eqn:Href; [|done].
      by destruct (Hg _ _ Hsid Href) as [_ ?]. }
  cbn [fst] in *.
  assert (∃ r, (match s_currentRoom data with
                | Some currentRoom =>
                    if truthy currentRoom then leaveRoom s1 conn currentRoom userId
                    else (s1, [])
                | None => (s1, [])
                end) = r ∧
               activeCalls r.1 = activeCalls s1 ∧
               userSessions r.1 = userSessions s1)
    as ([s2 out2] & -> & Hc2 & Hu2).
  { eexists; split; [done|]. destruct (s_currentRoom data) as [r|]; [|done].
    destruct (truthy r); [|done].
    by destruct (leaveRoom_frame s1 conn r userId) as (? & ? & _). }
  cbn [fst] in *. intros sid c Hsid. cbn in Hsid. rewrite Hc2 in Hsid.
  eapply (call_registered_delete s1 _ userId).
  - intros x Hx. unfold registered. simpl. rewrite jm_has_delete, Hu2.
    intros ->. by rewrite bool_decide_false.
  - by eapply Href1.
  - eapply (call_registered_mono s); [by intros id; rewrite Hr1|].
    eapply Hok. by eapply lookup_weaken.
Qed.

Lemma guarded_step s e :
  guarded s e = true → ledger_registered s → ledger_registered (handle s e).1.
Proof.
  destruct e as [conn ck msg]. unfold handle. simpl.
  destruct msg; intros Hg Hok; simpl; try done.
  - by apply on_register_user_ledger.
  - pose proof (on_join_room_frame s conn ck room userId userData) as (Hc & Hr & _).
    apply (ledger_registered_mono s); [|by rewrite Hc|done].
    intros id. by rewrite Hr.
  - unfold on_offer. by destruct (jm_get _ _).
  - unfold on_answer. by destruct (jm_get _ _).
  - unfold on_ice_candidate. by destruct (jm_get _ _).
  - unfold guarded in Hg. simpl in Hg. apply andb_true_iff in Hg as [? ?].
    by apply on_initiate_call_ledger.
  - by apply on_accept_call_ledger.
  - by apply on_reject_call_ledger.
  - unfold on_end_call. destruct (falsy sessionId); [done|].
    by apply endCall_ledger.
  - by apply on_disconnect_ledger.
Qed.

Lemma run_app s es1 es2 :
  run s (es1 ++ es2) =
  ((run (run s es1).1 es2).1, (run s es1).2 ++ (run (run s es1).1 es2).2).
Proof.
  revert s. induction es1 as [|e es1 IH]; intros s; simpl.
  - by destruct (run s es2).
  - destruct (handle s e) as [s1 out1]. rewrite IH.
    destruct (run s1 es1) as [s2 out2]. simpl.
    destruct (run s2 es2) as [s3 out3]. simpl. by rewrite app_assoc.
Qed.

Lemma run_cons s e es : (run s (e :: es)).1 = (run (handle s e).1 es).1.
Proof.
  simpl. destruct (handle s e) as [s1 out1]. simpl. by destruct (run s1 es).
Qed.

Lemma reachable_run s es : reachable s → reachable (run s es).1.
Proof.
  revert s. induction es as [|e es IH]; intros s Hs; [done|].
  rewrite run_cons. apply IH. by constructor.
Qed.

(* ===================================================================== *)
(** ** C1: the ledger and unregistered identities                        *)
(* ===================================================================== *)

Lemma all_guarded_ledger s es :
  all_guarded s es = true → ledger_registered s → ledger_registered (run s es).1.
Proof.
  revert s. induction es as [|e es IH]; intros s Hg Hok; [done|].
  simpl in Hg. apply andb_true_iff in Hg as [Hge Hges].
  rewrite run_cons. apply IH; [done|]. by apply guarded_step.
Qed.

(** C1 (as amended).  Over every sequence of handled events in which each
    initiate-call names a registered caller and callee, each accept-call
    names a registered callerId, and every live call that references the
    identity removed by a disconnect is the one recorded as that
    session's currentCall, every identity referenced by an entry of
    activeCalls (caller, callee, participants) is a key of userSessions
    after each handler. *)
Theorem ledger_registered_when_guarded (es : list Event) :
  all_guarded init es = true → ledger_registered (run init es).1.
Proof.
  intros Hg. apply all_guarded_ledger; [done|].
  unfold ledger_registered, init. simpl. apply map_Forall_empty.
Qed.

Lemma ledger_registered_when_guarded_witness :
  all_guarded init (call_in_progress ++ [event "c1" 30 Disconnect]) = true ∧
  ledger_registered (run init (call_in_progress ++ [event "c1" 30 Disconnect])).1.
Proof.
  assert (all_guarded init (call_in_progress ++ [event "c1" 30 Disconnect]) = true)
    as Hg by (vm_compute; reflexivity).
  split; [exact Hg|].
  exact (ledger_registered_when_guarded _ Hg).
Defined.

(** C1 as stated fails: initiate-call does not require the caller to be
    registered, and the call it stores names the unregistered caller. *)
Lemma ledger_references_unregistered_caller :
  (run init unregistered_caller).2 =
    [ to_self "c2" (UserRegistered "bob");
      (ToRoom "c2", IncomingCall "s1" "alice" "video" (Some "sdp-offer") (Some "{}"));
      to_self "c1" (CallInitiated "s1" "bob") ] ∧
  ¬ ledger_registered (run init unregistered_caller).1.
Proof.
  split; [by vm_compute|].
  intros Hok.
  assert (activeCalls (run init unregistered_caller).1 !! "s1" =
          Some {| c_caller := "alice"; c_callee := "bob"; c_participants := ["alice"];
                  c_type := "video"; c_offer := Some "sdp-offer"; c_startedAt := 3;
                  c_status := Initiated; c_answer := None; c_answeredAt := None |})
    as Hcall by (vm_compute; reflexivity).
  apply Hok in Hcall. vm_compute in Hcall. discriminate.
Qed.

(* ===================================================================== *)
(** ** How the ledger changes in one step                                *)
(* ===================================================================== *)

Lemma on_initiate_call_activeCalls s conn ck data uuid :
  activeCalls (on_initiate_call s conn ck data uuid).1 = activeCalls s ∨
  ∃ c, activeCalls (on_initiate_call s conn ck data uuid).1
         = <[initiated_id data uuid := c]> (activeCalls s) ∧
       c_participants c = [ic_caller data] ∧ c_status c = Initiated ∧
       c_startedAt c = ck 0%nat.
Proof.
  unfold on_initiate_call.
  destruct (falsy (ic_to data) || falsy (ic_caller data)); [by left|]. right.
  eexists. split.
  - simpl. destruct (jm_get (ic_caller data) (userSessions s)); simpl;
      destruct (jm_get (ic_to data) _); reflexivity.
  - done.
Qed.

Lemma on_accept_call_activeCalls s conn ck data :
  activeCalls (on_accept_call s conn ck data).1 = activeCalls s ∨
  ∃ c, activeCalls s !! ac_sessionId data = Some c ∧
       activeCalls (on_accept_call s conn ck data).1
         = <[ac_sessionId data := accepted c (ac_callerId data) (ac_answer data) (ck 0%nat)]>
             (activeCalls s).
Proof.
  unfold on_accept_call.
  destruct (falsy (ac_to data) || falsy (ac_sessionId data)); [by left|].
  destruct (activeCalls s !! ac_sessionId data) as [c|] eqn:Hc; [|by left].
  right. exists c. split; [done|]. simpl.
  destruct (jm_get (ac_callerId data) (userSessions s)); simpl;
    by destruct (jm_get (ac_to data) _).
Qed.

Lemma on_reject_call_activeCalls s conn to sid reason :
  activeCalls (on_reject_call s conn to sid reason).1 ⊆ activeCalls s.
Proof.
  unfold on_reject_call. destruct (falsy to || falsy sid); [done|].
  destruct (activeCalls s !! sid); [apply delete_subseteq | done].
Qed.

Lemma endCall_activeCalls_subseteq s sid userId reason ck :
  activeCalls (endCall s sid userId reason ck).1 ⊆ activeCalls s.
Proof.
  rewrite endCall_activeCalls. destruct (falsy sid); [done|apply delete_subseteq].
Qed.

Lemma on_disconnect_activeCalls s conn ck :
  activeCalls (on_disconnect s conn ck).1 ⊆ activeCalls s.
Proof.
  unfold on_disconnect.
  destruct (session_of_socket _ conn) as [[userId data]|]; [|done].
  set (s0 := set_socketRooms _ s).
  assert (∃ r, (match s_currentCall data with
                | Some currentCall =>
                    if truthy currentCall
                    then endCall s0 currentCall userId "Participant disconnected" ck
                    else (s0, [])
                | None => (s0, [])
                end) = r ∧ activeCalls r.1 ⊆ activeCalls s) as ([s1 out1] & -> & H1).
  { eexists; split; [done|]. destruct (s_currentCall data) as [cc|]; [|done].
    destruct (truthy cc); [|done]. apply (endCall_activeCalls_subseteq s0). }
  destruct (s_currentRoom data) as [r|]; [|done].
  destruct (truthy r); [|done].
  destruct (leaveRoom_frame s1 conn r userId) as (Hc & _).
  destruct (leaveRoom s1 conn r userId) as [s2 out2]. simpl in *. by rewrite Hc.
Qed.

(** Every entry of the ledger after a step was there before, or was
    stored by [initiate-call], or is an existing entry updated by
    [accept-call]. *)
Lemma handle_activeCalls_inv s e sid c :
  activeCalls (handle s e).1 !! sid = Some c →
  activeCalls s !! sid = Some c ∨
  (∃ data uuid, ev_msg e = InitiateCall data uuid ∧ sid = initiated_id data uuid ∧
                c_participants c = [ic_caller data] ∧ c_status c = Initiated ∧
                c_startedAt c = ev_clock e 0%nat) ∨
  (∃ data c0, ev_msg e = AcceptCall data ∧ sid = ac_sessionId data ∧
              activeCalls s !! sid = Some c0 ∧
              c = accepted c0 (ac_callerId data) (ac_answer data) (ev_clock e 0%nat)).
Proof.
  destruct e as [conn ck msg]. unfold handle. simpl. destruct msg; simpl.
  - by left.
  - unfold on_register_user. destruct (falsy userId); by left.
  - destruct (on_join_room_frame s conn ck room userId userData) as (-> & _).
    by left.
  - unfold on_offer. destruct (jm_get _ _); by left.
  - unfold on_answer. destruct (jm_get _ _); by left.
  - unfold on_ice_candidate. destruct (jm_get _ _); by left.
  - destruct (on_initiate_call_activeCalls s conn ck data uuid)
      as [->|(c' & -> & Hp & Hst & Ht)]; [by left|].
    rewrite lookup_insert. case_decide; [|by left].
    intros [= <-]. right; left. by exists data, uuid.
  - destruct (on_accept_call_activeCalls s conn ck data)
      as [->|(c0 & Hc0 & ->)]; [by left|].
    rewrite lookup_insert. case_decide; [|by left].
    intros [= <-]. right; right. exists data, c0. by subst.
  - intros Hsid. left.
    by eapply lookup_weaken; [|apply on_reject_call_activeCalls].
  - intros Hsid. left. revert Hsid. unfold on_end_call.
    destruct (falsy sessionId); [done|]. intros Hsid.
    by eapply lookup_weaken; [|apply endCall_activeCalls_subseteq].
  - intros Hsid. left.
    by eapply lookup_weaken; [|apply on_disconnect_activeCalls].
Qed.

(** Every call of a reachable ledger has a participant: its caller is
    the first one and nothing removes participants. *)
Lemma reachable_participants s sid c :
  reachable s → activeCalls s !! sid = Some c → c_participants c ≠ [].
Proof.
  intros Hs. revert sid c. induction Hs as [|s e Hs IH]; intros sid c.
  - unfold init. simpl. by rewrite lookup_empty.
  - intros [Hc|[(data & uuid & _ & _ & Hp & _)|(data & c0 & _ & _ & _ & ->)]]
      %handle_activeCalls_inv.
    + by eapply IH.
    + by rewrite Hp.
    + simpl. by intros [_ ?]%app_eq_nil.
Qed.

(* ===================================================================== *)
(** ** [endCall]: who is notified, what is recorded                      *)
(* ===================================================================== *)

Section notified.
Context (us : list (string * Session)).

Lemma collect_socket_NoDup ps acc :
  NoDup acc → NoDup (foldl (collect_socket us) acc ps).
Proof.
  revert acc. induction ps as [|p ps IH]; intros acc Hnd; simpl; [done|].
  apply IH. unfold collect_socket. destruct (jm_get p us) as [u|]; [|done].
  destruct (truthy (s_socketId u)); [by apply js_set_add_NoDup | done].
Qed.

Lemma collect_socket_elem ps acc sock :
  sock ∈ foldl (collect_socket us) acc ps ↔
  sock ∈ acc ∨
  ∃ p u, p ∈ ps ∧ jm_get p us = Some u ∧ truthy (s_socketId u) = true ∧
         s_socketId u = sock.
Proof.
  revert acc. induction ps as [|p ps IH]; intros acc; simpl.
  - split; [by left|]. intros [?|(p & u & Hp & _)]; [done|].
    by apply elem_of_nil in Hp.
  - rewrite IH. unfold collect_socket at 1. split.
    + intros [Hacc|(p' & u & Hp' & Hu)].
      * destruct (jm_get p us) as [u|] eqn:Hget; [|by left].
        destruct (truthy (s_socketId u)) eqn:Ht; [|by left].
        apply js_set_add_elem in Hacc as [->|?]; [|by left].
        right. exists p, u. split; [apply list_elem_of_here | done].
      * right. exists p', u. split; [by apply list_elem_of_further | done].
    + intros [Hacc|(p' & u & Hp' & Hget & Ht & Hs)].
      * left. destruct (jm_get p us) as [u|]; [|done].
        destruct (truthy (s_socketId u)); [|done].
        apply js_set_add_elem. by right.
      * apply elem_of_cons in Hp' as [->|Hp'].
        -- left. rewrite Hget, Ht. apply js_set_add_elem. by left.
        -- right. by exists p', u.
Qed.

Lemma socketsToNotify_NoDup ps : NoDup (socketsToNotify us ps).
Proof. apply collect_socket_NoDup, NoDup_nil_2. Qed.

Lemma socketsToNotify_elem ps p u :
  p ∈ ps → jm_get p us = Some u → truthy (s_socketId u) = true →
  s_socketId u ∈ socketsToNotify us ps.
Proof.
  intros Hp Hget Ht. apply collect_socket_elem. right. by exists p, u.
Qed.
End notified.

Lemma call_ended_to_app sock out1 out2 :
  call_ended_to sock (out1 ++ out2) = call_ended_to sock out1 ++ call_ended_to sock out2.
Proof. unfold call_ended_to. by rewrite filter_app, fmap_app. Qed.

(** One emit per collected socket: a socket of the list gets the event
    exactly once. *)
Lemma call_ended_to_once sock e socks :
  is_call_ended e = true → NoDup socks → sock ∈ socks →
  call_ended_to sock ((λ x, (ToRoom x, e)) <$> socks) = [e].
Proof.
  intros He. unfold call_ended_to.
  induction socks as [|x socks IH]; intros Hnd Hin; [by apply elem_of_nil in Hin|].
  apply NoDup_cons in Hnd as [Hx Hnd]. csimpl. rewrite filter_cons. simpl.
  destruct (decide (x = sock)) as [->|Hne].
  - rewrite decide_True by (split; [by left | done]). csimpl. f_equal.
    clear IH Hin. induction socks as [|y socks IH]; [done|].
    apply not_elem_of_cons in Hx as [Hy Hx]. apply NoDup_cons in Hnd as [_ Hnd].
    csimpl. rewrite filter_cons. simpl.
    rewrite decide_False by (intros [[[=]|[=]] _]; congruence). by apply IH.
  - rewrite decide_False by (intros [[[=]|[=]] _]; congruence).
    apply IH; [done|]. by apply elem_of_cons in Hin as [->|?].
Qed.

Lemma leaveRoom_no_call_ended s conn room userId sock :
  call_ended_to sock (leaveRoom s conn room userId).2 = [].
Proof.
  unfold leaveRoom. destruct (falsy room); [done|].
  destruct (rooms _ !! room) as [roomData|]; [|done].
  destruct (jm_get conn roomData); by case_decide.
Qed.

(** The result of [endCall] on a call of the ledger. *)
Lemma endCall_out s sid c userId reason ck :
  activeCalls s !! sid = Some c → truthy sid = true →
  (endCall s sid userId reason ck).2 =
  (λ sock, (ToRoom sock, CallEnded sid reason userId (ck 0%nat - c_startedAt c)%Z)) <$>
    socketsToNotify (userSessions s) (c_participants c).
Proof.
  intros Hc Ht. unfold endCall. pass_checks. rewrite Hc. by case_decide.
Qed.

Lemma endCall_callNotes s sid c userId reason ck :
  activeCalls s !! sid = Some c → truthy sid = true → c_participants c ≠ [] →
  callNotes (endCall s sid userId reason ck).1 =
  callNotes s ++
  [{| r_sessionId := sid; r_participants := c_participants c; r_type := c_type c;
      r_startedAt := c_startedAt c; r_endedAt := ck 1%nat;
      r_duration := (ck 2%nat - c_startedAt c)%Z;
      r_status := if includes "rejected" reason then "rejected" else "completed";
      r_endedBy := userId; r_reason := reason |}].
Proof.
  intros Hc Ht Hp. unfold endCall. pass_checks. rewrite Hc.
  case_decide as Hlen; [done|].
  destruct (c_participants c); [done | simpl in Hlen; lia].
Qed.

Lemma endCall_removes s sid userId reason ck :
  truthy sid = true → activeCalls (endCall s sid userId reason ck).1 !! sid = None.
Proof.
  intros Ht. rewrite endCall_activeCalls. pass_checks. apply lookup_delete_eq.
Qed.

(* ===================================================================== *)
(** ** C2: ending a call                                                 *)
(* ===================================================================== *)

Lemma endCall_notifies_once s sid c userId reason ck p u :
  activeCalls s !! sid = Some c → truthy sid = true →
  p ∈ c_participants c → live_session s p u →
  call_ended_to (s_socketId u) (endCall s sid userId reason ck).2 =
  [CallEnded sid reason userId (ck 0%nat - c_startedAt c)%Z].
Proof.
  intros Hc Ht Hp [Hget Hsock]. rewrite (endCall_out s sid c) by done.
  apply call_ended_to_once; [done|apply socketsToNotify_NoDup|].
  by eapply socketsToNotify_elem.
Qed.

(** C2 (as amended).  A call of the live ledger ended by an end-call
    message, or by the disconnect of a connection whose session records
    it as currentCall, is removed from the ledger, and the socket of
    every participant that has a live session is sent exactly one
    call-ended event, carrying the reason and the time since the call
    was initiated; for a disconnect the reason is the string
    "Participant disconnected". *)
Theorem call_ended_exactly_once (s : State) (sid : string) (c : Call) :
  activeCalls s !! sid = Some c → truthy sid = true →
  (∀ conn ck to reason,
     activeCalls (on_end_call s conn ck to sid reason).1 !! sid = None ∧
     ∀ p u, p ∈ c_participants c → live_session s p u →
       ∃ endedBy,
         call_ended_to (s_socketId u) (on_end_call s conn ck to sid reason).2 =
         [CallEnded sid (default "Call ended" reason) endedBy
                    (ck 0%nat - c_startedAt c)%Z]) ∧
  (∀ conn ck userId data,
     session_of_socket (userSessions s) conn = Some (userId, data) →
     s_currentCall data = Some sid →
     activeCalls (on_disconnect s conn ck).1 !! sid = None ∧
     ∀ p u, p ∈ c_participants c → live_session s p u →
       call_ended_to (s_socketId u) (on_disconnect s conn ck).2 =
       [CallEnded sid "Participant disconnected" userId
                  (ck 0%nat - c_startedAt c)%Z]).
Proof.
  intros Hc Ht. split.
  - intros conn ck to reason. unfold on_end_call.
    rewrite (truthy_falsy _ Ht).
    split; [by apply endCall_removes|].
    intros p u Hp Hlive. eexists. by eapply endCall_notifies_once.
  - intros conn ck userId data Hsess Hcur. unfold on_disconnect. simpl.
    rewrite Hsess, Hcur, Ht.
    set (s0 := set_socketRooms _ s).
    pose proof (endCall_removes s0 sid userId "Participant disconnected" ck Ht) as Hrm.
    assert (∀ p u, p ∈ c_participants c → live_session s p u →
              call_ended_to (s_socketId u)
                (endCall s0 sid userId "Participant disconnected" ck).2 =
              [CallEnded sid "Participant disconnected" userId
                         (ck 0%nat - c_startedAt c)%Z]) as Hout.
    { intros p u Hp Hlive. by eapply (endCall_notifies_once s0). }
    destruct (endCall s0 sid userId "Participant disconnected" ck) as [s1 out1].
    simpl in Hrm, Hout.
    assert (∃ r, (match s_currentRoom data with
                  | Some currentRoom =>
                      if truthy currentRoom then leaveRoom s1 conn currentRoom userId
                      else (s1, [])
                  | None => (s1, [])
                  end) = r ∧ activeCalls r.1 = activeCalls s1 ∧
                 ∀ sock, call_ended_to sock r.2 = [])
      as ([s2 out2] & -> & Hc2 & Hout2).
    { eexists; split; [done|]. destruct (s_currentRoom data) as [r|]; [|done].
      destruct (truthy r); [|done]. split.
      - by destruct (leaveRoom_frame s1 conn r userId) as (? & _).
      - intros sock. apply leaveRoom_no_call_ended. }
    simpl in *. rewrite Hc2. split; [done|].
    intros p u Hp Hlive.
    by rewrite call_ended_to_app, Hout2, app_nil_r, (Hout p u Hp Hlive).
Qed.

Lemma call_ended_exactly_once_witness :
  call_ended_to "c2"
    (on_disconnect (run init call_in_progress).1 "c1" (at_time 30)).2 =
  [CallEnded "s1" "Participant disconnected" "alice" 20].
Proof.
  set (s := (run init call_in_progress).1).
  assert (activeCalls s !! "s1" =
          Some {| c_caller := "alice"; c_callee := "bob";
                  c_participants := ["alice"; "bob"]; c_type := "video";
                  c_offer := Some "sdp-offer"; c_startedAt := 10;
                  c_status := InProgress; c_answer := Some "sdp-answer";
                  c_answeredAt := Some 20%Z |}) as Hc by (vm_compute; reflexivity).
  assert (truthy "s1" = true) as Ht by reflexivity.
  assert (session_of_socket (userSessions s) "c1" =
          Some ("alice",
                {| s_socketId := "c1"; s_userId := "alice";
                   s_currentRoom := Some "abc"; s_currentCall := Some "s1";
                   s_userData := None; s_meta := "Alice"; s_connectedAt := 1 |}))
    as Hsess by (vm_compute; reflexivity).
  assert (live_session s "bob"
            {| s_socketId := "c2"; s_userId := "bob"; s_currentRoom := Some "abc";
               s_currentCall := Some "s1"; s_userData := None; s_meta := "Bob";
               s_connectedAt := 4 |}) as Hlive by (split; vm_compute; reflexivity).
  assert ("bob" ∈ ["alice"; "bob"]) as Hp
    by (apply list_elem_of_further, list_elem_of_here).
  destruct (call_ended_exactly_once s "s1" _ Hc Ht) as [_ Hdisc].
  destruct (Hdisc "c1" (at_time 30) _ _ Hsess eq_refl) as [_ Hout].
  exact (Hout "bob" _ Hp Hlive).
Defined.

(** C2 as stated fails on the reason string: the event a disconnect
    delivers does not carry "participant disconnected". *)
Lemma disconnect_reason_is_capitalised :
  call_ended_to "c2"
    (on_disconnect (run init call_in_progress).1 "c1" (at_time 30)).2 =
  [CallEnded "s1" "Participant disconnected" "alice" 20] ∧
  ¬ ∃ endedBy duration,
      call_ended_to "c2"
        (on_disconnect (run init call_in_progress).1 "c1" (at_time 30)).2 =
      [CallEnded "s1" "participant disconnected" endedBy duration].
Proof.
  assert (call_ended_to "c2"
            (on_disconnect (run init call_in_progress).1 "c1" (at_time 30)).2 =
          [CallEnded "s1" "Participant disconnected" "alice" 20]) as H
    by (vm_compute; reflexivity).
  split; [exact H|]. rewrite H. intros (endedBy & duration & [=]).
Qed.

(* ===================================================================== *)
(** ** C10: the reported duration                                        *)
(* ===================================================================== *)

(** No key of the literal of [saveCallDetails] is a path of
    [callNoteSchema], so the document constructed from it holds the
    default of [createdAt] and nothing else. *)
Lemma construct_call_details r now :
  CallNote.construct CallNote.callNoteSchema (CallNote.literal r) now =
  [("createdAt", CallNote.VDate now)].
Proof. reflexivity. Qed.

Lemma call_details_not_stored r now : CallNote.stored r now = None.
Proof. reflexivity. Qed.

(** C10 (divergence).  When a call of the ledger is ended, call-ended
    goes to the sockets of the participants with the clock reading taken
    for it minus the call's startedAt as duration, and [saveCallDetails]
    builds a literal with the same startedAt and, as duration, its own
    clock reading minus startedAt; answeredAt and the status play no
    part.  The literal is passed to [new CallNote(...)], whose schema has
    none of its keys and requires four others: the document has no
    duration (nor any other key of the literal), it fails validation,
    and nothing is stored. *)
Theorem duration_counts_from_startedAt (s : State) (sid : string) (c : Call)
    (userId reason : string) (ck : Clock) :
  reachable s → activeCalls s !! sid = Some c → truthy sid = true →
  (endCall s sid userId reason ck).2 =
    (λ sock, (ToRoom sock, CallEnded sid reason userId (ck 0%nat - c_startedAt c)%Z))
      <$> socketsToNotify (userSessions s) (c_participants c) ∧
  ∃ record,
    callNotes (endCall s sid userId reason ck).1 = callNotes s ++ [record] ∧
    r_sessionId record = sid ∧
    r_startedAt record = c_startedAt c ∧
    r_endedAt record = ck 1%nat ∧
    r_duration record = (ck 2%nat - c_startedAt c)%Z ∧
    ∀ now,
      (∀ key v, (key, v) ∈ CallNote.literal record →
         jm_get key (CallNote.construct CallNote.callNoteSchema
                       (CallNote.literal record) now) = None) ∧
      CallNote.validate CallNote.callNoteSchema
        (CallNote.construct CallNote.callNoteSchema (CallNote.literal record) now)
        = false ∧
      CallNote.stored record now = None.
Proof.
  intros Hs Hc Ht. split.
  - by rewrite (endCall_out s sid c).
  - rewrite (endCall_callNotes s sid c);
      [|done|done|by eapply reachable_participants].
    eexists. split; [reflexivity|]. split_and!; [done..|].
    intros now. rewrite construct_call_details. split_and!; [|done..].
    intros key v Hin. unfold CallNote.literal in Hin.
    repeat (apply elem_of_cons in Hin as [[= -> _]|Hin]; [reflexivity|]).
    by apply elem_of_nil in Hin.
Qed.

Lemma duration_counts_from_startedAt_witness :
  (endCall (run init call_in_progress).1 "s1" "alice" "Call ended by user"
           (ticking 30)).2 =
    [(ToRoom "c1", CallEnded "s1" "Call ended by user" "alice" 20);
     (ToRoom "c2", CallEnded "s1" "Call ended by user" "alice" 20)] ∧
  ∃ record,
    callNotes (endCall (run init call_in_progress).1 "s1" "alice"
                       "Call ended by user" (ticking 30)).1 = [record] ∧
    r_startedAt record = 10%Z ∧ r_endedAt record = 31%Z ∧
    r_duration record = 22%Z ∧
    CallNote.stored record 33 = None.
Proof.
  assert (activeCalls (run init call_in_progress).1 !! "s1" =
          Some {| c_caller := "alice"; c_callee := "bob";
                  c_participants := ["alice"; "bob"]; c_type := "video";
                  c_offer := Some "sdp-offer"; c_startedAt := 10;
                  c_status := InProgress; c_answer := Some "sdp-answer";
                  c_answeredAt := Some 20%Z |}) as Hc by (vm_compute; reflexivity).
  destruct (duration_counts_from_startedAt (run init call_in_progress).1 "s1" _
              "alice" "Call ended by user" (ticking 30)
              (reachable_run init call_in_progress reachable_init) Hc eq_refl)
    as (Hout & record & Hnotes & _ & Hstart & Hend & Hdur & Hstored).
  split; [rewrite Hout; vm_compute; reflexivity|].
  exists record. split_and!.
  - rewrite Hnotes. vm_compute. reflexivity.
  - exact Hstart.
  - exact Hend.
  - exact Hdur.
  - apply (Hstored 33%Z).
Defined.

(* ===================================================================== *)
(** ** C3: rejecting a call                                              *)
(* ===================================================================== *)

(** What reject-call does for a call of the ledger when [to] has a
    session: the event goes to that session's socket and the call is
    removed. *)
Lemma on_reject_call_found s conn to sid reason c u :
  truthy to = true → truthy sid = true →
  activeCalls s !! sid = Some c → jm_get to (userSessions s) = Some u →
  (on_reject_call s conn to sid reason).2 =
    [(ToRoom (s_socketId u), CallRejected sid (default "Call rejected" reason))] ∧
  activeCalls (on_reject_call s conn to sid reason).1 !! sid = None.
Proof.
  intros Hto Hsid Hc Hu. unfold on_reject_call.
  pass_checks. rewrite Hc, Hu. simpl. split; [done|apply lookup_delete_eq].
Qed.

(** C3 (divergence).  The reject-call handler never builds a call
    record: [callNotes] is the same after it as before, whatever the
    state and the message.  In the run where bob rejects alice's call,
    alice is sent call-rejected and the call is removed, and no record
    exists afterwards. *)
Theorem reject_call_writes_no_record :
  (∀ s conn to sid reason,
     callNotes (on_reject_call s conn to sid reason).1 = callNotes s) ∧
  (on_reject_call (run init alice_calls_bob).1 "c2" "alice" "s1"
                  (Some "Call rejected by user")).2 =
    [(ToRoom "c1", CallRejected "s1" "Call rejected by user")] ∧
  activeCalls (on_reject_call (run init alice_calls_bob).1 "c2" "alice" "s1"
                              (Some "Call rejected by user")).1 !! "s1" = None ∧
  callNotes (on_reject_call (run init alice_calls_bob).1 "c2" "alice" "s1"
                            (Some "Call rejected by user")).1 = [].
Proof.
  split_and!; [|by vm_compute..].
  intros s conn to sid reason. unfold on_reject_call.
  destruct (falsy to || falsy sid); [done|].
  by destruct (activeCalls s !! sid).
Qed.

(* ===================================================================== *)
(** ** C9: a removed call id                                             *)
(* ===================================================================== *)

(** C9 (as amended).  Once a call id is absent from the live ledger, no
    sequence of handled messages re-creates an entry for it unless it
    contains an initiate-call that stores its call under that very id:
    offer, answer, ice-candidate, accept-call, reject-call and end-call
    (and every other message) leave the id absent. *)
Theorem removed_call_stays_removed (s : State) (sid : string) (es : list Event) :
  activeCalls s !! sid = None → Forall (not_initiate_of sid) es →
  activeCalls (run s es).1 !! sid = None.
Proof.
  revert s. induction es as [|e es IH]; intros s Hnone Hes; [done|].
  apply Forall_cons in Hes as [He Hes]. rewrite run_cons. apply IH; [|done].
  destruct (activeCalls (handle s e).1 !! sid) as [c|] eqn:Hc; [|done].
  apply handle_activeCalls_inv in Hc
    as [Hc|[(data & uuid & Hmsg & -> & _)|(data & c0 & _ & _ & Hc0 & _)]].
  - congruence.
  - unfold not_initiate_of in He. rewrite Hmsg in He. done.
  - congruence.
Qed.

Lemma removed_call_stays_removed_witness :
  activeCalls (run (run init call_ended).1 late_messages).1 !! "s1" = None.
Proof.
  apply (removed_call_stays_removed (run init call_ended).1 "s1" late_messages).
  - vm_compute. reflexivity.
  - unfold late_messages. repeat (apply Forall_cons; split; [exact I|]).
    apply Forall_nil_2.
Defined.

(** C9 as stated fails for initiate-call: the call "s1" was ended and
    removed, and an initiate-call that carries the same session id puts
    an entry under "s1" back into the ledger. *)
Lemma initiate_call_reuses_ended_id :
  is_Some (activeCalls (run init call_in_progress).1 !! "s1") ∧
  activeCalls (run init call_ended).1 !! "s1" = None ∧
  is_Some (activeCalls (run init (call_ended ++ [initiate_again 40])).1 !! "s1").
Proof. split_and!; vm_compute; eauto. Qed.

(* ===================================================================== *)
(** ** C6: replayed transitions                                          *)
(* ===================================================================== *)

Lemma on_accept_call_found s conn ck data c :
  falsy (ac_to data) || falsy (ac_sessionId data) = false →
  activeCalls s !! ac_sessionId data = Some c →
  activeCalls (on_accept_call s conn ck data).1 =
  <[ac_sessionId data := accepted c (ac_callerId data) (ac_answer data) (ck 0%nat)]>
    (activeCalls s).
Proof.
  intros Hf Hc. unfold on_accept_call. rewrite Hf, Hc. simpl.
  destruct (jm_get (ac_callerId data) (userSessions s)); simpl;
    by destruct (jm_get (ac_to data) _).
Qed.

(** C6 (as amended).  No handler detects a replay.  An accept-call for a
    call of the ledger is handled like the first one, whatever the call
    has been through: callerId is appended to the participants array,
    the status is set to in-progress, answer and answeredAt are those of
    this accept, and call-accepted goes to the socket of [to] (an error
    to the sender when [to] has no session).  So when the call is in
    progress and callerId already is a participant, as in a replay, the
    set of participants and the status are unchanged; when callerId is
    not a participant yet, the set grows.  An initiate-call stored
    under the id of a call of the ledger replaces it by a fresh call,
    initiated, with the caller as only participant.  A reject-call or
    end-call for a session id that is not in the ledger changes nothing,
    and emits nothing but the error for a missing id. *)
Theorem replay_keeps_participants_and_status (s : State) (sid : string) :
  (∀ c conn ck data,
     activeCalls s !! sid = Some c → ac_sessionId data = sid →
     truthy (ac_to data) = true → truthy sid = true →
     activeCalls (on_accept_call s conn ck data).1 =
       <[sid := accepted c (ac_callerId data) (ac_answer data) (ck 0%nat)]>
         (activeCalls s) ∧
     (on_accept_call s conn ck data).2 =
       match route s (ac_to data) with
       | Some sock =>
           [(ToRoom sock, CallAccepted sid (ac_answer data) (ac_callerId data))]
       | None =>
           [to_self conn (Error "Failed to accept call" "Caller is no longer connected")]
       end ∧
     (c_status c = InProgress → ac_callerId data ∈ c_participants c →
        same_set_and_status
          c (accepted c (ac_callerId data) (ac_answer data) (ck 0%nat))) ∧
     (ac_callerId data ∉ c_participants c →
        ¬ same_set_and_status
            c (accepted c (ac_callerId data) (ac_answer data) (ck 0%nat)))) ∧
  (∀ c conn ck data uuid,
     activeCalls s !! sid = Some c → initiated_id data uuid = sid →
     truthy (ic_to data) = true → truthy (ic_caller data) = true →
     ∃ c', activeCalls (on_initiate_call s conn ck data uuid).1 !! sid = Some c' ∧
           c_status c' = Initiated ∧ c_participants c' = [ic_caller data]) ∧
  (activeCalls s !! sid = None →
     ∀ conn ck to reason,
       on_reject_call s conn to sid reason =
         (s, if falsy to || falsy sid
             then [to_self conn (Error "Failed to reject call"
                                       "Recipient and session ID are required")]
             else []) ∧
       on_end_call s conn ck to sid reason =
         (s, if falsy sid
             then [to_self conn (Error "Failed to end call" "Session ID is required")]
             else [])).
Proof.
  split_and!.
  - intros c conn ck data Hc <- Hto Hsid. split_and!.
    + apply on_accept_call_found; [|done].
      by rewrite (truthy_falsy _ Hto), (truthy_falsy _ Hsid).
    + unfold on_accept_call, route.
      rewrite (truthy_falsy _ Hto), (truthy_falsy _ Hsid), Hc. simpl.
      destruct (jm_get (ac_callerId data) (userSessions s)) as [u|] eqn:Hu; simpl.
      * rewrite jm_get_set.
        destruct (decide (ac_callerId data = ac_to data)) as [Heq|Hne].
        -- rewrite <- Heq, Hu. done.
        -- by destruct (jm_get (ac_to data) (userSessions s)).
      * by destruct (jm_get (ac_to data) (userSessions s)).
    + intros Hst Hin. split; [|done].
      intros x. simpl. rewrite elem_of_app, list_elem_of_singleton.
      split; [tauto|]. intros [?| ->]; done.
    + intros Hnin [Hset _]. apply Hnin, Hset. simpl.
      rewrite elem_of_app, list_elem_of_singleton. by right.
  - intros c conn ck data uuid Hc <- Hto Hcaller.
    unfold on_initiate_call, initiated_id.
    rewrite (truthy_falsy _ Hto), (truthy_falsy _ Hcaller). simpl.
    destruct (jm_get (ic_caller data) (userSessions s)); simpl;
      destruct (jm_get (ic_to data) _); simpl; rewrite lookup_insert_eq;
      by eexists.
  - intros Hnone conn ck to reason. split.
    + unfold on_reject_call. rewrite Hnone. by destruct (falsy to || falsy sid).
    + unfold on_end_call, endCall. rewrite Hnone. by destruct (falsy sid).
Qed.

Lemma replay_keeps_participants_and_status_witness :
  same_set_and_status
    {| c_caller := "alice"; c_callee := "bob"; c_participants := ["alice"; "bob"];
       c_type := "video"; c_offer := Some "sdp-offer"; c_startedAt := 10;
       c_status := InProgress; c_answer := Some "sdp-answer";
       c_answeredAt := Some 20%Z |}
    (accepted
       {| c_caller := "alice"; c_callee := "bob"; c_participants := ["alice"; "bob"];
          c_type := "video"; c_offer := Some "sdp-offer"; c_startedAt := 10;
          c_status := InProgress; c_answer := Some "sdp-answer";
          c_answeredAt := Some 20%Z |}
       "bob" (Some "sdp-answer-2") 25) ∧
  on_reject_call (run init call_ended).1 "c2" "alice" "s1" None
    = ((run init call_ended).1, []) ∧
  on_end_call (run init call_ended).1 "c2" (at_time 50) "alice" "s1" None
    = ((run init call_ended).1, []).
Proof.
  destruct (replay_keeps_participants_and_status (run init call_in_progress).1 "s1")
    as (Haccept & _ & _).
  destruct (replay_keeps_participants_and_status (run init call_ended).1 "s1")
    as (_ & _ & Hgone).
  assert (activeCalls (run init call_in_progress).1 !! "s1" =
          Some {| c_caller := "alice"; c_callee := "bob";
                  c_participants := ["alice"; "bob"]; c_type := "video";
                  c_offer := Some "sdp-offer"; c_startedAt := 10;
                  c_status := InProgress; c_answer := Some "sdp-answer";
                  c_answeredAt := Some 20%Z |}) as Hc by (vm_compute; reflexivity).
  destruct (Haccept _ "c2" (at_time 25)
              {| ac_to := "alice"; ac_answer := Some "sdp-answer-2";
                 ac_sessionId := "s1"; ac_callerId := "bob" |}
              Hc eq_refl eq_refl eq_refl) as (_ & _ & Hsame & _).
  split.
  - apply Hsame; [reflexivity|]. simpl.
    apply list_elem_of_further, list_elem_of_here.
  - assert (activeCalls (run init call_ended).1 !! "s1" = None) as Hnone
      by (vm_compute; reflexivity).
    exact (Hgone Hnone "c2" (at_time 50) "alice" None).
Defined.

(** C6 as stated fails for a replayed initiate-call: once bob has
    accepted, the call has status in-progress and participants alice and
    bob; the same initiate-call handled again stores a fresh entry with
    status initiated and alice as the only participant. *)
Lemma replayed_initiate_resets_call :
  ∃ c1 c2,
    activeCalls (run init call_in_progress).1 !! "s1" = Some c1 ∧
    activeCalls (run init (call_in_progress ++ [initiate_again 40])).1 !! "s1" = Some c2 ∧
    c_status c1 = InProgress ∧ c_participants c1 = ["alice"; "bob"] ∧
    c_status c2 = Initiated ∧ c_participants c2 = ["alice"] ∧
    ¬ same_set_and_status c1 c2.
Proof.
  eexists _, _. split_and!; [by vm_compute..|].
  intros [_ Hst]. vm_compute in Hst. discriminate.
Qed.

(* ===================================================================== *)
(** ** C5 and C4: the relay and re-registration                          *)
(* ===================================================================== *)

Lemma relay_result s conn ck k data :
  handle s {| ev_conn := conn; ev_clock := ck; ev_msg := relay_msg k data |} =
  (s,
   match jm_get (rd_to data) (userSessions s) with
   | None => [to_self conn (Error (relay_error k) (target_not_found (rd_to data)))]
   | Some targetUser =>
       [(ToRoom (s_socketId targetUser),
         match k with
         | KOffer => OfferFwd data
         | KAnswer => AnswerFwd data
         | KIceCandidate => IceFwd conn (rd_candidate data) (rd_sessionId data)
         end)]
   end).
Proof.
  unfold handle. destruct k; simpl;
    unfold on_offer, on_answer, on_ice_candidate;
    by destruct (jm_get (rd_to data) (userSessions s)).
Qed.

(** C5 (as amended).  A relay message leaves the state as it is.  When
    the target has no session, the only emit is an error to the sending
    socket that names the target.  When it has one, the only emit goes
    to the socket id stored in that session: for offer and answer the
    data object as it came, with nothing added; for ice-candidate an
    object built from the sending connection's socket id ([from]) and
    the candidate and sessionId of the data. *)
Theorem relay_forwards_or_reports (s : State) (conn : string) (ck : Clock)
    (k : RelayKind) (data : RelayData) :
  (handle s {| ev_conn := conn; ev_clock := ck; ev_msg := relay_msg k data |}).1 = s ∧
  (handle s {| ev_conn := conn; ev_clock := ck; ev_msg := relay_msg k data |}).2 =
  match jm_get (rd_to data) (userSessions s) with
  | None =>
      [to_self conn
         (Error match k with
                | KOffer => "Failed to send offer"
                | KAnswer => "Failed to send answer"
                | KIceCandidate => "Failed to send ICE candidate"
                end
                ("Target user " +:+ rd_to data +:+ " not found"))]
  | Some targetUser =>
      [(ToRoom (s_socketId targetUser),
        match k with
        | KOffer => OfferFwd data
        | KAnswer => AnswerFwd data
        | KIceCandidate => IceFwd conn (rd_candidate data) (rd_sessionId data)
        end)]
  end.
Proof.
  rewrite relay_result. split; [done|]. simpl.
  destruct (jm_get (rd_to data) (userSessions s)); [done|]. by destruct k.
Qed.

(** C5 as stated fails on the tag: alice (connection c1) relays to bob;
    the answer arrives as it was sent, without any sender in it, and the
    ice-candidate arrives in a new object that names the socket id c1,
    not the identity alice. *)
Lemma relay_does_not_tag_with_identity :
  let s := (run init alice_and_bob).1 in
  let answer := {| rd_to := "bob"; rd_caller := ""; rd_sessionId := "s1";
                   rd_candidate := None; rd_body := "sdp-answer" |} in
  let ice := {| rd_to := "bob"; rd_caller := ""; rd_sessionId := "s1";
                rd_candidate := Some "candidate"; rd_body := "" |} in
  session_of_socket (userSessions s) "c1" ≫= (λ e, Some e.1) = Some "alice" ∧
  (on_answer s "c1" answer).2 = [(ToRoom "c2", AnswerFwd answer)] ∧
  ¬ relay_as_specified s "c1" "alice" KAnswer answer (on_answer s "c1" answer).2 ∧
  (on_ice_candidate s "c1" ice).2 = [(ToRoom "c2", IceFwd "c1" (Some "candidate") "s1")] ∧
  ¬ relay_as_specified s "c1" "alice" KIceCandidate ice (on_ice_candidate s "c1" ice).2.
Proof.
  intros s answer ice.
  assert (jm_get "bob" (userSessions s) =
          Some {| s_socketId := "c2"; s_userId := "bob"; s_currentRoom := Some "abc";
                  s_currentCall := None; s_userData := None; s_meta := "Bob";
                  s_connectedAt := 4 |}) as Hbob by (vm_compute; reflexivity).
  split_and!; [by vm_compute|by vm_compute| |by vm_compute|].
  - unfold relay_as_specified, on_answer. simpl. rewrite Hbob.
    intros (e & [= <-] & _ & Htag). vm_compute in Htag. discriminate.
  - unfold relay_as_specified, on_ice_candidate. simpl. rewrite Hbob.
    intros (e & [= <-] & _ & Htag). vm_compute in Htag. discriminate.
Qed.

(** C4 as stated fails when the userData of the registration carries a
    socketId: alice registers again from connection c9 with a userData
    that still names c1, the registration is accepted, and the next
    ice-candidate for alice is addressed to the stale c1. *)
Lemma reregistration_keeps_payload_socket :
  let r := on_register_user (run init alice_reconnects).1 "c9" (at_time 7)
             "alice" (client_userData "Alice" "c1") in
  session_of_socket (userSessions (run init alice_reconnects).1) "c1"
    ≫= (λ e, Some e.1) = Some "alice" ∧
  r.2 = [to_self "c9" (UserRegistered "alice")] ∧
  (handle r.1 (event "c2" 8 (IceCandidate candidate_for_alice))).2 =
    [(ToRoom "c1", IceFwd "c2" (Some "candidate") "s1")] ∧
  (ToRoom "c9", IceFwd "c2" (Some "candidate") "s1") ∉
    (handle r.1 (event "c2" 8 (IceCandidate candidate_for_alice))).2.
Proof.
  intros r. split_and!; [by vm_compute..|].
  assert ((handle r.1 (event "c2" 8 (IceCandidate candidate_for_alice))).2 =
          [(ToRoom "c1", IceFwd "c2" (Some "candidate") "s1")]) as ->
    by (vm_compute; reflexivity).
  intros [[=]|[]%elem_of_nil]%elem_of_cons.
Qed.

(* ===================================================================== *)
(** ** C8: a second offer on the client                                  *)
(* ===================================================================== *)

Lemma roles_alter (f : Client.Peer → Client.Peer) (i : nat)
    (peers : list Client.Peer) :
  (∀ p, (Client.initiator (f p), Client.target (f p)) =
        (Client.initiator p, Client.target p)) →
  (λ p, (Client.initiator p, Client.target p)) <$> alter f i peers =
  (λ p, (Client.initiator p, Client.target p)) <$> peers.
Proof.
  intros Hf. revert i. induction peers as [|p peers IH]; intros [|i]; csimpl;
    [done|done|by rewrite Hf|by rewrite IH].
Qed.

Lemma roles_signal i data c : roles (VideoCall.signal i data c) = roles c.
Proof.
  unfold roles, VideoCall.signal. simpl. apply roles_alter.
  intros p. by destruct (Client.destroyed p).
Qed.

(** Peer connections are only ever added at the end: whatever happens,
    those constructed so far keep their role and target. *)
Lemma client_step_roles c e : roles c `prefix_of` roles (client_step c e).
Proof.
  destruct e; simpl.
  - unfold Client.on_offer. by destruct (Client.peerRef c).
  - unfold Client.on_offer_resume. destruct (Client.suspended c); [done|].
    destruct granted; [|done]. unfold roles. simpl. rewrite fmap_app.
    by apply prefix_app_r.
  - unfold VideoCall.on_answer. destruct (Client.peerRef c) as [i|]; [|done].
    destruct (Client.peers c !! i) as [p|]; [|done].
    destruct (Client.destroyed p); [done|]. by rewrite roles_signal.
  - unfold VideoCall.on_ice_candidate. destruct (Client.peerRef c) as [i|]; [|done].
    destruct candidate; [|done]. by rewrite roles_signal.
  - done.
  - done.
  - unfold roles, VideoCall.effect_cleanup. simpl.
    destruct (Client.peerRef c); [|done]. by rewrite roles_alter.
Qed.

Lemma client_run_roles c es : roles c `prefix_of` roles (client_run c es).
Proof.
  revert c. induction es as [|e es IH]; intros c; [done|]. simpl.
  etrans; [apply client_step_roles|apply IH].
Qed.

(** With a peer in [peerRef.current] and no run of the offer handler
    waiting, a step constructs nothing and leaves both as they are. *)
Lemma client_step_guarded c e i :
  Client.peerRef c = Some i → Client.suspended c = [] →
  Client.peerRef (client_step c e) = Some i ∧
  Client.suspended (client_step c e) = [] ∧
  roles (client_step c e) = roles c.
Proof.
  intros Hp Hs. destruct e; simpl.
  - unfold Client.on_offer. by rewrite Hp.
  - unfold Client.on_offer_resume. by rewrite Hs.
  - unfold VideoCall.on_answer. rewrite Hp.
    destruct (Client.peers c !! i) as [p|]; [|done].
    destruct (Client.destroyed p); [done|]. by rewrite roles_signal.
  - unfold VideoCall.on_ice_candidate. rewrite Hp.
    destruct candidate; [|done]. by rewrite roles_signal.
  - done.
  - done.
  - unfold roles, VideoCall.effect_cleanup. simpl. rewrite Hp.
    by rewrite roles_alter.
Qed.

Lemma client_run_guarded c es i :
  Client.peerRef c = Some i → Client.suspended c = [] →
  Client.peerRef (client_run c es) = Some i ∧
  Client.suspended (client_run c es) = [] ∧
  roles (client_run c es) = roles c.
Proof.
  revert c. induction es as [|e es IH]; intros c Hp Hs; [done|]. simpl.
  destruct (client_step_guarded c e i Hp Hs) as (Hp' & Hs' & Hr').
  destruct (IH _ Hp' Hs') as (? & ? & ?). split_and!; [done|done|congruence].
Qed.

(** X22.  What the guard of the offer handler achieves.  While
    [peerRef.current] holds a peer connection and no run of the offer
    handler waits for [getUserMedia], every incoming offer is discarded:
    over any sequence of offers, answers, candidates, media results,
    status changes, reject clicks and effect clean-ups the ref stays
    what it is, no run of the offer handler is started and no peer
    connection is constructed, and in every state that such a sequence
    leads to an offer changes nothing.  Whatever the state and the
    sequence, the peer connections constructed so far keep the role and
    the target they were constructed with. *)
Theorem guarded_client_discards_offers (c : Client.State) (i : nat)
    (es : list ClientEvent) :
  Client.peerRef c = Some i → Client.suspended c = [] →
  (Client.peerRef (client_run c es) = Some i ∧
   Client.suspended (client_run c es) = [] ∧
   roles (client_run c es) = roles c ∧
   length (Client.peers (client_run c es)) = length (Client.peers c) ∧
   ∀ data, Client.on_offer (client_run c es) data = client_run c es) ∧
  (∀ c' es', roles c' `prefix_of` roles (client_run c' es')).
Proof.
  intros Hp Hs. destruct (client_run_guarded c es i Hp Hs) as (Hp' & Hs' & Hr').
  split_and!; try done.
  - unfold roles in Hr'. apply (f_equal length) in Hr'.
    by rewrite !length_fmap in Hr'.
  - intros data. unfold Client.on_offer. by rewrite Hp'.
  - intros c' es'. apply client_run_roles.
Qed.

Lemma guarded_client_discards_offers_witness :
  Client.peerRef (client_run calling_client glare_traffic) = Some 0%nat ∧
  roles (client_run calling_client glare_traffic) = [(true, "alice")] ∧
  Client.on_offer (client_run calling_client glare_traffic) offer_from_alice =
    client_run calling_client glare_traffic.
Proof.
  destruct (guarded_client_discards_offers calling_client 0 glare_traffic
              eq_refl eq_refl) as ((Href & _ & Hroles & _ & Hoffer) & _).
  split_and!; [exact Href|exact Hroles|apply Hoffer].
Defined.

(** C8 (divergence).  The guard of the offer handler reads
    [peerRef.current] when an offer arrives, and the ref is assigned
    only when the media request of the run has settled.  With no peer
    in the ref every offer starts a run of the handler, also when other
    runs are waiting; and a run whose media request is granted
    constructs an answering peer and assigns it to the ref, whatever
    the ref holds by then, without destroying what it held.  So when a
    second offer for the call arrives while the run for the first one
    waits for the camera, it is not discarded: a second peer connection
    is constructed for the call.  When both media requests are granted
    with no effect clean-up in between, the client holds two live
    answering peer connections, the first no longer in the ref; when
    the clean-up runs after every event, it destroys the first once it
    is in the ref, and the second is constructed all the same. *)
Theorem offer_during_media_request_is_taken_up :
  (∀ c data, Client.peerRef c = None →
     Client.suspended (Client.on_offer c data) = Client.suspended c ++ [data] ∧
     Client.peerRef (Client.on_offer c data) = None) ∧
  (∀ c data rest, Client.suspended c = data :: rest →
     Client.peers (Client.on_offer_resume c true) =
       Client.peers c ++
       [{| Client.initiator := false; Client.target := Client.caller data;
           Client.signalled := [Client.offer data]; Client.destroyed := false |}] ∧
     Client.peerRef (Client.on_offer_resume c true) = Some (length (Client.peers c))) ∧
  (let c := client_run idle_client offers_before_media in
   Client.peers c =
     [ {| Client.initiator := false; Client.target := "alice";
          Client.signalled := ["sdp-offer-2"]; Client.destroyed := false |};
       {| Client.initiator := false; Client.target := "alice";
          Client.signalled := ["sdp-offer-3"]; Client.destroyed := false |} ] ∧
   length (Client.live_peers c) = 2%nat ∧
   Client.peerRef c = Some 1%nat) ∧
  (let c := client_run idle_client offers_before_media_render in
   Client.peers c =
     [ {| Client.initiator := false; Client.target := "alice";
          Client.signalled := ["sdp-offer-2"]; Client.destroyed := true |};
       {| Client.initiator := false; Client.target := "alice";
          Client.signalled := ["sdp-offer-3"]; Client.destroyed := false |} ] ∧
   Client.peerRef c = Some 1%nat).
Proof.
  split; [|split; [|split]].
  - intros c data Hnone. unfold Client.on_offer. by rewrite Hnone.
  - intros c data rest Hsusp. unfold Client.on_offer_resume. by rewrite Hsusp.
  - cbv zeta. split_and!; reflexivity.
  - cbv zeta. split_and!; reflexivity.
Qed.

(* ===================================================================== *)
(** ** C7: joining a room                                                *)
(* ===================================================================== *)

Lemma socket_leave_rooms s conn room : rooms (socket_leave s conn room) = rooms s.
Proof. unfold socket_leave. by destruct (socketRooms s !! conn). Qed.

Lemma leaveRoom_rooms_distinct s conn room userId :
  rooms_distinct s → rooms_distinct (leaveRoom s conn room userId).1.
Proof.
  intros Hd. unfold leaveRoom. destruct (falsy room); [done|].
  pose proof (socket_leave_rooms s conn room) as Hr.
  destruct (rooms (socket_leave s conn room) !! room) as [roomData|] eqn:Hroom.
  2:{ simpl. intros r m. rewrite Hr. apply Hd. }
  assert (NoDup roomData.*1) as Hnd by (rewrite Hr in Hroom; by eapply Hd).
  assert (rooms_distinct (set_rooms (delete room (rooms (socket_leave s conn room)))
                            (socket_leave s conn room))) as Hdel.
  { intros r m; simpl; rewrite Hr.
    rewrite lookup_delete. case_decide; [done|]. apply Hd. }
  assert (∀ m' : list (string * Member), NoDup m'.*1 →
            rooms_distinct (set_rooms (<[room := m']> (rooms (socket_leave s conn room)))
                              (socket_leave s conn room))) as Hins.
  { intros m' Hm' r m; simpl; rewrite Hr.
    rewrite lookup_insert. case_decide; [by intros [= <-]|]. apply Hd. }
  destruct (jm_get conn roomData); case_decide; simpl;
    try exact Hdel; apply Hins; try done; by apply jm_delete_NoDup.
Qed.

Lemma leaveRoom_only_user_left s conn room userId :
  Forall is_user_left (leaveRoom s conn room userId).2.
Proof.
  unfold leaveRoom. destruct (falsy room); [by constructor|].
  destruct (rooms _ !! room) as [roomData|]; [|by constructor].
  destruct (jm_get conn roomData); case_decide; simpl;
    repeat constructor; by eexists _, _, _, _.
Qed.

Lemma leave_current_room_rooms_distinct s conn userId :
  rooms_distinct s → rooms_distinct (leave_current_room s conn userId).1.
Proof.
  intros Hd. unfold leave_current_room. case_decide; [|done].
  destruct (list_find _ _) as [[i r]|]; [|done].
  destruct (truthy r); [by apply leaveRoom_rooms_distinct | done].
Qed.

Lemma leave_current_room_only_user_left s conn userId :
  Forall is_user_left (leave_current_room s conn userId).2.
Proof.
  unfold leave_current_room. case_decide; [|by constructor].
  destruct (list_find _ _) as [[i r]|]; [|by constructor].
  destruct (truthy r); [apply leaveRoom_only_user_left | by constructor].
Qed.

(** State and emits of a [join-room] that passes the check of its
    arguments, in terms of the state left by the leave block. *)
Lemma on_join_room_result s conn ck room userId userData :
  truthy room = true → truthy userId = true →
  let s1 := (leave_current_room s conn userId).1 in
  let roomData :=
    jm_set conn {| m_userId := userId; m_userData := userData; m_joinedAt := ck 0%nat |}
           (default [] (rooms s1 !! room)) in
  rooms (on_join_room s conn ck room userId userData).1 = <[room := roomData]> (rooms s1) ∧
  (on_join_room s conn ck room userId userData).2 =
    (leave_current_room s conn userId).2 ++
    [(ToOthers conn room, UserJoined userId conn userData (participants_of conn roomData))] ++
    (if decide (0 < length (participants_of conn roomData))
     then [to_self conn (RoomJoined room (participants_of conn roomData))]
     else []).
Proof.
  intros Hroom Huser. unfold on_join_room.
  pass_checks. simpl.
  destruct (leave_current_room s conn userId) as [s1 out1]. simpl.
  by destruct (jm_get userId (userSessions s1)).
Qed.

Lemma on_join_room_rooms_distinct s conn ck room userId userData :
  rooms_distinct s → rooms_distinct (on_join_room s conn ck room userId userData).1.
Proof.
  intros Hd. destruct (truthy room && truthy userId) eqn:Ht.
  - apply andb_true_iff in Ht as [Hroom Huser].
    destruct (on_join_room_result s conn ck room userId userData Hroom Huser)
      as [Hrooms _].
    pose proof (leave_current_room_rooms_distinct s conn userId Hd) as Hd1.
    intros r m. rewrite Hrooms, lookup_insert. case_decide; [|apply Hd1].
    intros [= <-]. apply jm_set_NoDup.
    destruct (rooms _ !! room) as [m0|] eqn:Hm0; simpl; [by eapply Hd1|].
    apply NoDup_nil_2.
  - unfold on_join_room. unfold truthy in Ht.
    rewrite <- negb_orb in Ht. apply negb_false_iff in Ht. by rewrite Ht.
Qed.

Lemma on_disconnect_rooms_distinct s conn ck :
  rooms_distinct s → rooms_distinct (on_disconnect s conn ck).1.
Proof.
  intros Hd. unfold on_disconnect.
  destruct (session_of_socket _ conn) as [[userId data]|]; [|done].
  set (s0 := set_socketRooms _ s).
  assert (∃ r, (match s_currentCall data with
                | Some currentCall =>
                    if truthy currentCall
                    then endCall s0 currentCall userId "Participant disconnected" ck
                    else (s0, [])
                | None => (s0, [])
                end) = r ∧ rooms_distinct r.1) as ([s1 out1] & -> & H1).
  { eexists; split; [done|]. destruct (s_currentCall data) as [cc|]; [|done].
    destruct (truthy cc); [|done].
    intros r m. destruct (endCall_rooms s0 cc userId "Participant disconnected" ck)
      as [-> _]. apply Hd. }
  simpl in H1.
  destruct (s_currentRoom data) as [r|]; [|done].
  destruct (truthy r); [|done].
  pose proof (leaveRoom_rooms_distinct s1 conn r userId H1) as H2.
  by destruct (leaveRoom s1 conn r userId) as [s2 out2].
Qed.

Lemma handle_rooms_distinct s e :
  rooms_distinct s → rooms_distinct (handle s e).1.
Proof.
  intros Hd. destruct e as [conn ck msg]. unfold handle. simpl. destruct msg.
  - done.
  - unfold on_register_user. by destruct (falsy userId).
  - by apply on_join_room_rooms_distinct.
  - unfold on_offer. by destruct (jm_get _ _).
  - unfold on_answer. by destruct (jm_get _ _).
  - unfold on_ice_candidate. by destruct (jm_get _ _).
  - unfold on_initiate_call.
    destruct (falsy (ic_to data) || falsy (ic_caller data)); [done|]. simpl.
    destruct (jm_get (ic_caller data) (userSessions s)); simpl;
      by destruct (jm_get (ic_to data) _).
  - unfold on_accept_call.
    destruct (falsy (ac_to data) || falsy (ac_sessionId data)); [done|].
    destruct (activeCalls s !! ac_sessionId data); [|done]. simpl.
    destruct (jm_get (ac_callerId data) (userSessions s)); simpl;
      by destruct (jm_get (ac_to data) _).
  - unfold on_reject_call. destruct (falsy to || falsy sessionId); [done|].
    by destruct (activeCalls s !! sessionId).
  - unfold on_end_call. destruct (falsy sessionId); [done|].
    intros r m. destruct (endCall_rooms s sessionId
      match session_of_socket (userSessions s) conn with
      | Some (userId, _) => if truthy userId then userId else to
      | None => to
      end (default "Call ended" reason) ck) as [-> _]. apply Hd.
  - by apply on_disconnect_rooms_distinct.
Qed.

Lemma reachable_rooms_distinct s : reachable s → rooms_distinct s.
Proof.
  induction 1 as [|s e Hs IH]; [|by apply handle_rooms_distinct].
  intros r m. unfold init. simpl. by rewrite lookup_empty.
Qed.



Lemma on_join_room_one_membership s conn ck room userId userData :
  rooms_distinct s → truthy room = true → truthy userId = true →
  length (memberships (on_join_room s conn ck room userId userData).1 conn room) = 1.
Proof.
  intros Hd Hroom Huser.
  destruct (on_join_room_result s conn ck room userId userData Hroom Huser)
    as [Hrooms _].
  pose proof (leave_current_room_rooms_distinct s conn userId Hd) as Hd1.
  unfold memberships. rewrite Hrooms, lookup_insert_eq. simpl.
  apply jm_NoDup_one_entry.
  - apply jm_set_NoDup.
    destruct (rooms _ !! room) as [m0|] eqn:Hm0; simpl; [by eapply Hd1|].
    apply NoDup_nil_2.
  - rewrite jm_get_set_eq. by eexists.
Qed.




(* ===================================================================== *)
(** ** The Room Directory                                                *)
(* ===================================================================== *)

Section rooms_invariant.
(** A property of member maps that [set] establishes and that [delete]
    keeps as long as an entry is left. *)
Context (P : list (string * Member) → Prop).
Hypothesis P_set : ∀ k v m, P m ∨ m = [] → P (jm_set k v m).
Hypothesis P_delete : ∀ k m, P m → length (jm_delete k m) ≠ 0 → P (jm_delete k m).






End rooms_invariant.




(* ===================================================================== *)
(** ** The shape of ledger entries and of call records                   *)
(* ===================================================================== *)

Lemma on_initiate_call_stores s conn ck data uuid :
  activeCalls (on_initiate_call s conn ck data uuid).1 = activeCalls s ∨
  activeCalls (on_initiate_call s conn ck data uuid).1 =
  <[initiated_id data uuid :=
      {| c_caller := ic_caller data; c_callee := ic_to data;
         c_participants := [ic_caller data];
         c_type := default "video" (ic_type data); c_offer := ic_offer data;
         c_startedAt := ck 0%nat; c_status := Initiated;
         c_answer := None; c_answeredAt := None |}]> (activeCalls s).
Proof.
  unfold on_initiate_call.
  destruct (falsy (ic_to data) || falsy (ic_caller data)); [by left|]. right.
  simpl. destruct (jm_get (ic_caller data) (userSessions s)); simpl;
    by destruct (jm_get (ic_to data) _).
Qed.

Lemma map_Forall_weaken {A} (P : string → A → Prop) (m m' : gmap string A) :
  m' ⊆ m → map_Forall P m → map_Forall P m'.
Proof. intros Hsub HP k x Hk. eapply HP. by eapply lookup_weaken. Qed.

Section ledger_invariant.
(** A property of calls that holds of a freshly initiated call and that
    accepting keeps. *)
Context (Q : Call → Prop).
Hypothesis Q_initiated : ∀ caller callee type offer now,
  Q {| c_caller := caller; c_callee := callee; c_participants := [caller];
       c_type := type; c_offer := offer; c_startedAt := now;
       c_status := Initiated; c_answer := None; c_answeredAt := None |}.
Hypothesis Q_accepted : ∀ c callerId answer now,
  Q c → Q (accepted c callerId answer now).

Lemma handle_ledger_Forall s e :
  map_Forall (λ _, Q) (activeCalls s) →
  map_Forall (λ _, Q) (activeCalls (handle s e).1).
Proof.
  intros HQ. destruct e as [conn ck msg]. unfold handle. simpl. destruct msg.
  - done.
  - unfold on_register_user. by destruct (falsy userId).
  - by destruct (on_join_room_frame s conn ck room userId userData) as (-> & _).
  - unfold on_offer. by destruct (jm_get _ _).
  - unfold on_answer. by destruct (jm_get _ _).
  - unfold on_ice_candidate. by destruct (jm_get _ _).
  - destruct (on_initiate_call_stores s conn ck data uuid) as [-> | ->]; [done|].
    by apply map_Forall_insert_2.
  - destruct (on_accept_call_activeCalls s conn ck data)
      as [->|(c & Hc & ->)]; [done|].
    apply map_Forall_insert_2; [|done]. apply Q_accepted. by eapply HQ.
  - eapply map_Forall_weaken; [apply on_reject_call_activeCalls | done].
  - unfold on_end_call. destruct (falsy sessionId); [done|].
    eapply map_Forall_weaken; [apply endCall_activeCalls_subseteq | done].
  - eapply map_Forall_weaken; [apply on_disconnect_activeCalls | done].
Qed.

Lemma reachable_ledger_Forall s : reachable s → map_Forall (λ _, Q) (activeCalls s).
Proof.
  induction 1 as [|s e Hs IH]; [|by apply handle_ledger_Forall].
  unfold init. simpl. apply map_Forall_empty.
Qed.
End ledger_invariant.

Lemma call_shape_accepted c callerId answer now :
  call_shape c → call_shape (accepted c callerId answer now).
Proof.
  intros (Hhead & _ & _). unfold call_shape. simpl. split_and!.
  - destruct (c_participants c); [done|]. simpl in *. done.
  - split; [done|]. destruct (c_participants c) as [|p ps]; [done|].
    simpl in *. intros [= _ Hps]. by destruct ps.
  - split; done.
Qed.

(** X2.  In every reachable state, each call of the ledger has its
    caller as first participant, and it is [initiated] exactly while the
    caller is its only participant entry, which is exactly while it has
    no [answeredAt]; otherwise it is [in-progress]. *)
Theorem ledger_entries_have_shape (s : State) (sid : string) (c : Call) :
  reachable s → activeCalls s !! sid = Some c → call_shape c.
Proof.
  intros Hs. apply (reachable_ledger_Forall call_shape); [| |done].
  - intros caller callee type offer now. by split_and!.
  - intros c0 callerId answer now. apply call_shape_accepted.
Qed.

Lemma ledger_entries_have_shape_witness :
  call_shape
    {| c_caller := "alice"; c_callee := "bob"; c_participants := ["alice"; "bob"];
       c_type := "video"; c_offer := Some "sdp-offer"; c_startedAt := 10;
       c_status := InProgress; c_answer := Some "sdp-answer";
       c_answeredAt := Some 20%Z |}.
Proof.
  apply (ledger_entries_have_shape (run init call_in_progress).1 "s1").
  - apply reachable_run, reachable_init.
  - vm_compute. reflexivity.
Defined.

(** Close a goal "the records are those of before, with nothing added". *)
Ltac nothing_added :=
  exists []; rewrite app_nil_r; split_and!; [done | simpl; lia | done].

Lemma endCall_appends s sid userId reason ck :
  ∃ l, callNotes (endCall s sid userId reason ck).1 = callNotes s ++ l ∧
       (length l ≤ 1)%nat ∧ Forall record_shape l.
Proof.
  unfold endCall. destruct (falsy sid).
  { nothing_added. }
  destruct (activeCalls s !! sid) as [c|].
  2:{ nothing_added. }
  case_decide as Hlen; simpl.
  - eexists [_]. split_and!; [done|simpl; lia|].
    apply Forall_singleton. split; [|done]. simpl.
    intros Hnil. rewrite Hnil in Hlen. simpl in Hlen. lia.
  - nothing_added.
Qed.

Lemma on_disconnect_appends s conn ck :
  ∃ l, callNotes (on_disconnect s conn ck).1 = callNotes s ++ l ∧
       (length l ≤ 1)%nat ∧ Forall record_shape l.
Proof.
  unfold on_disconnect.
  destruct (session_of_socket _ conn) as [[userId data]|].
  2:{ nothing_added. }
  set (s0 := set_socketRooms _ s).
  assert (∃ r l, (match s_currentCall data with
                  | Some currentCall =>
                      if truthy currentCall
                      then endCall s0 currentCall userId "Participant disconnected" ck
                      else (s0, [])
                  | None => (s0, [])
                  end) = r ∧ callNotes r.1 = callNotes s ++ l ∧
                 (length l ≤ 1)%nat ∧ Forall record_shape l)
    as ([s1 out1] & l & -> & H1 & Hlen & Hl).
  { destruct (s_currentCall data) as [cc|].
    - destruct (truthy cc).
      + destruct (endCall_appends s0 cc userId "Participant disconnected" ck)
          as (l & ? & ? & ?). by eexists _, l.
      + eexists _, []. rewrite app_nil_r. split_and!; [done|done|simpl; lia|done].
    - eexists _, []. rewrite app_nil_r. split_and!; [done|done|simpl; lia|done]. }
  exists l. split; [|done]. simpl in H1.
  destruct (s_currentRoom data) as [r|]; [|done].
  destruct (truthy r); [|done].
  destruct (leaveRoom_frame s1 conn r userId) as (_ & _ & Hn).
  destruct (leaveRoom s1 conn r userId) as [s2 out2]. simpl in *. congruence.
Qed.

(** What one run of the event loop adds to the call records. *)
Lemma handle_appends s e :
  ∃ l, callNotes (handle s e).1 = callNotes s ++ l ∧
       (length l ≤ (if ends_calls e then 1 else 0))%nat ∧ Forall record_shape l.
Proof.
  destruct e as [conn ck msg]. unfold handle, ends_calls. simpl.
  assert (∀ s' : State, callNotes s' = callNotes s →
            ∃ l, callNotes s' = callNotes s ++ l ∧ (length l ≤ 0)%nat ∧
                 Forall record_shape l) as Hsame.
  { intros s' ->. nothing_added. }
  destruct msg; simpl.
  - by apply Hsame.
  - apply Hsame. unfold on_register_user. by destruct (falsy userId).
  - apply Hsame. by destruct (on_join_room_frame s conn ck room userId userData)
      as (_ & _ & ->).
  - apply Hsame. unfold on_offer. by destruct (jm_get _ _).
  - apply Hsame. unfold on_answer. by destruct (jm_get _ _).
  - apply Hsame. unfold on_ice_candidate. by destruct (jm_get _ _).
  - apply Hsame. unfold on_initiate_call.
    destruct (falsy (ic_to data) || falsy (ic_caller data)); [done|]. simpl.
    destruct (jm_get (ic_caller data) (userSessions s)); simpl;
      by destruct (jm_get (ic_to data) _).
  - apply Hsame. unfold on_accept_call.
    destruct (falsy (ac_to data) || falsy (ac_sessionId data)); [done|].
    destruct (activeCalls s !! ac_sessionId data); [|done]. simpl.
    destruct (jm_get (ac_callerId data) (userSessions s)); simpl;
      by destruct (jm_get (ac_to data) _).
  - apply Hsame. unfold on_reject_call.
    destruct (falsy to || falsy sessionId); [done|].
    by destruct (activeCalls s !! sessionId).
  - unfold on_end_call. destruct (falsy sessionId).
    + nothing_added.
    + apply endCall_appends.
  - apply on_disconnect_appends.
Qed.

(** X3.  The call records are append-only: a run of handlers keeps the
    records it started with as a prefix, and it adds at most one record
    for each end-call or disconnect it handles; no other message writes
    a record. *)
Theorem call_records_are_append_only (s : State) (es : list Event) :
  callNotes s `prefix_of` callNotes (run s es).1 ∧
  (length (callNotes (run s es).1) ≤
     length (callNotes s) + length (filter (λ e, ends_calls e = true) es))%nat.
Proof.
  revert s. induction es as [|e es IH]; intros s.
  - simpl. split; [done|lia].
  - rewrite run_cons. destruct (IH (handle s e).1) as [Hpre Hlen].
    destruct (handle_appends s e) as (l & Hl & Hone & _).
    rewrite Hl in Hpre, Hlen. split.
    + etrans; [|exact Hpre]. by apply prefix_app_r.
    + rewrite length_app in Hlen. rewrite filter_cons.
      destruct (ends_calls e); simpl in *; lia.
Qed.

(* ===================================================================== *)
(** ** Traffic without initiate-call                                     *)
(* ===================================================================== *)

Lemma endCall_absent s sid userId reason ck :
  activeCalls s !! sid = None → endCall s sid userId reason ck = (s, []).
Proof. intros Hnone. unfold endCall. rewrite Hnone. by destruct (falsy sid). Qed.

Lemma is_user_left_no_call_event out :
  Forall is_user_left out → Forall (λ o, is_call_event o.2 = false) out.
Proof. intros H. eapply Forall_impl; [exact H|]. by intros o (? & ? & ? & ? & ->). Qed.

Lemma on_join_room_no_call_event s conn ck room userId userData :
  Forall (λ o, is_call_event o.2 = false)
         (on_join_room s conn ck room userId userData).2.
Proof.
  destruct (truthy room && truthy userId) eqn:Ht.
  - apply andb_true_iff in Ht as [Hroom Huser].
    destruct (on_join_room_result s conn ck room userId userData Hroom Huser)
      as [_ ->].
    apply Forall_app. split.
    + apply is_user_left_no_call_event, leave_current_room_only_user_left.
    + apply Forall_cons. split; [done|]. case_decide; by repeat constructor.
  - unfold on_join_room. unfold truthy in Ht.
    rewrite <- negb_orb in Ht. apply negb_false_iff in Ht. rewrite Ht.
    by repeat constructor.
Qed.

Lemma handle_empty_ledger s e :
  activeCalls s = ∅ → is_initiate_call (ev_msg e) = false →
  activeCalls (handle s e).1 = ∅ ∧
  callNotes (handle s e).1 = callNotes s ∧
  Forall (λ o, is_call_event o.2 = false) (handle s e).2.
Proof.
  intros Hempty Hmsg. destruct e as [conn ck msg]. unfold handle. simpl in *.
  assert (∀ sid, activeCalls s !! sid = None) as Hnone
    by (intros sid; by rewrite Hempty, lookup_empty).
  destruct msg; try done; simpl.
  - unfold on_register_user. destruct (falsy userId); by repeat constructor.
  - destruct (on_join_room_frame s conn ck room userId userData) as (-> & _ & ->).
    split_and!; [done|done|apply on_join_room_no_call_event].
  - unfold on_offer. destruct (jm_get _ _); by repeat constructor.
  - unfold on_answer. destruct (jm_get _ _); by repeat constructor.
  - unfold on_ice_candidate. destruct (jm_get _ _); by repeat constructor.
  - unfold on_accept_call. rewrite Hnone.
    destruct (falsy (ac_to data) || falsy (ac_sessionId data)); by repeat constructor.
  - unfold on_reject_call. rewrite Hnone.
    by destruct (falsy to || falsy sessionId); repeat constructor.
  - unfold on_end_call. destruct (falsy sessionId); [by repeat constructor|].
    by rewrite endCall_absent.
  - unfold on_disconnect.
    destruct (session_of_socket _ conn) as [[userId data]|]; [|done].
    set (s0 := set_socketRooms _ s).
    assert ((match s_currentCall data with
             | Some currentCall =>
                 if truthy currentCall
                 then endCall s0 currentCall userId "Participant disconnected" ck
                 else (s0, [])
             | None => (s0, [])
             end) = (s0, [])) as ->.
    { destruct (s_currentCall data) as [cc|]; [|done].
      destruct (truthy cc); [|done]. apply endCall_absent, Hnone. }
    destruct (s_currentRoom data) as [r|]; [|done].
    destruct (truthy r); [|done].
    destruct (leaveRoom_frame s0 conn r userId) as (Hc & _ & Hn).
    pose proof (leaveRoom_only_user_left s0 conn r userId) as Hout.
    destruct (leaveRoom s0 conn r userId) as [s2 out2]. simpl in *.
    split_and!; [congruence|congruence|by apply is_user_left_no_call_event].
Qed.

(** X5.  Only initiate-call creates ledger entries: along any run from
    the initial state that handles no initiate-call the ledger stays
    empty, no incoming-call, call-initiated, call-accepted,
    call-rejected or call-ended is emitted, and no call record is
    written.  VideoCall.jsx emits register-user, join-room, offer,
    answer, ice-candidate, reject-call and end-call only, so the
    reject-call and end-call it sends reach nobody. *)
Theorem no_initiate_call_no_call_events (es : list Event) :
  Forall (λ e, is_initiate_call (ev_msg e) = false) es →
  activeCalls (run init es).1 = ∅ ∧
  callNotes (run init es).1 = [] ∧
  Forall (λ o, is_call_event o.2 = false) (run init es).2.
Proof.
  assert (∀ s, activeCalls s = ∅ →
            Forall (λ e, is_initiate_call (ev_msg e) = false) es →
            activeCalls (run s es).1 = ∅ ∧
            callNotes (run s es).1 = callNotes s ∧
            Forall (λ o, is_call_event o.2 = false) (run s es).2) as Hgen.
  { induction es as [|e es IH]; intros s Hempty Hes; [by repeat constructor|].
    apply Forall_cons in Hes as [He Hes].
    destruct (handle_empty_ledger s e Hempty He) as (H1 & H2 & H3).
    specialize (IH (handle s e).1 H1 Hes) as (I1 & I2 & I3).
    simpl. destruct (handle s e) as [s1 out1]. simpl in *.
    destruct (run s1 es) as [s2 out2]. simpl in *.
    split_and!; [done|congruence|by apply Forall_app]. }
  intros Hes. by apply (Hgen init).
Qed.

Lemma no_initiate_call_no_call_events_witness :
  activeCalls
    (run init (alice_and_bob ++
               [event "c2" 8 (RejectCall "alice" "s1" (Some "Call rejected by user"));
                event "c1" 9 (EndCall "bob" "s1" (Some "Call ended by user"))])).1 = ∅ ∧
  callNotes
    (run init (alice_and_bob ++
               [event "c2" 8 (RejectCall "alice" "s1" (Some "Call rejected by user"));
                event "c1" 9 (EndCall "bob" "s1" (Some "Call ended by user"))])).1 = [] ∧
  Forall (λ o, is_call_event o.2 = false)
    (run init (alice_and_bob ++
               [event "c2" 8 (RejectCall "alice" "s1" (Some "Call rejected by user"));
                event "c1" 9 (EndCall "bob" "s1" (Some "Call ended by user"))])).2.
Proof.
  apply no_initiate_call_no_call_events.
  unfold alice_and_bob. simpl. repeat (apply Forall_cons; split; [reflexivity|]).
  apply Forall_nil_2.
Defined.

(* ===================================================================== *)
(** ** The Session Registry                                              *)
(* ===================================================================== *)

Lemma sessions_ok_set_present id u v us :
  jm_get id us = Some u → sessions_ok us → sessions_ok (jm_set id v us).
Proof.
  intros Hget [Hnd Hne]. unfold sessions_ok.
  by rewrite jm_set_keys_present by (by eexists).
Qed.

Lemma sessions_ok_set id v us :
  id ≠ "" → sessions_ok us → sessions_ok (jm_set id v us).
Proof.
  intros Hid [Hnd Hne]. destruct (jm_get id us) as [u|] eqn:Hget.
  - by eapply sessions_ok_set_present.
  - split; [by apply jm_set_NoDup|].
    rewrite jm_set_keys_absent by done. apply Forall_app. split; [done|].
    by apply Forall_singleton.
Qed.

Lemma sessions_ok_delete id us : sessions_ok us → sessions_ok (jm_delete id us).
Proof.
  intros [Hnd Hne]. split; [by apply jm_delete_NoDup|].
  apply Forall_forall. intros k Hk. eapply Forall_forall in Hne; [done|].
  apply list_elem_of_fmap in Hk as ([k' x] & -> & Hin).
  apply list_elem_of_filter in Hin as [_ Hin].
  apply list_elem_of_fmap. by exists (k', x).
Qed.

Lemma sessions_ok_clear sid ps us :
  sessions_ok us → sessions_ok (foldl (clear_currentCall sid) us ps).
Proof.
  revert us. induction ps as [|p ps IH]; intros us Hok; simpl; [done|].
  apply IH. unfold clear_currentCall.
  destruct (jm_get p us) as [u|] eqn:Hp; [|done].
  case_decide; [|done]. by eapply sessions_ok_set_present.
Qed.

Lemma endCall_sessions_ok s sid userId reason ck :
  sessions_ok (userSessions s) →
  sessions_ok (userSessions (endCall s sid userId reason ck).1).
Proof.
  intros Hok. unfold endCall. destruct (falsy sid); [done|].
  destruct (activeCalls s !! sid) as [c|]; [|done].
  case_decide; simpl; by apply sessions_ok_clear.
Qed.

Lemma handle_sessions_ok s e :
  sessions_ok (userSessions s) → sessions_ok (userSessions (handle s e).1).
Proof.
  intros Hok. destruct e as [conn ck msg]. unfold handle. simpl. destruct msg.
  - done.
  - unfold on_register_user. destruct (falsy userId) eqn:Hf; [done|]. simpl.
    apply sessions_ok_set; [|done]. unfold falsy in Hf.
    by apply bool_decide_eq_false in Hf.
  - unfold on_join_room. destruct (falsy room || falsy userId); [done|].
    destruct (leave_current_room_frame s conn userId) as (_ & Hu & _).
    destruct (leave_current_room s conn userId) as [s1 out1]. simpl in *.
    destruct (jm_get userId (userSessions s1)) as [u|] eqn:Hget; simpl.
    + eapply sessions_ok_set_present; [done|]. by rewrite Hu.
    + by rewrite Hu.
  - unfold on_offer. by destruct (jm_get _ _).
  - unfold on_answer. by destruct (jm_get _ _).
  - unfold on_ice_candidate. by destruct (jm_get _ _).
  - unfold on_initiate_call.
    destruct (falsy (ic_to data) || falsy (ic_caller data)); [done|]. simpl.
    destruct (jm_get (ic_caller data) (userSessions s)) eqn:Hget; simpl;
      destruct (jm_get (ic_to data) _); simpl; try done;
      by eapply sessions_ok_set_present.
  - unfold on_accept_call.
    destruct (falsy (ac_to data) || falsy (ac_sessionId data)); [done|].
    destruct (activeCalls s !! ac_sessionId data); [|done]. simpl.
    destruct (jm_get (ac_callerId data) (userSessions s)) eqn:Hget; simpl;
      destruct (jm_get (ac_to data) _); simpl; try done;
      by eapply sessions_ok_set_present.
  - unfold on_reject_call. destruct (falsy to || falsy sessionId); [done|].
    destruct (activeCalls s !! sessionId); [|done].
    cbn -[foldl]. by apply sessions_ok_clear.
  - unfold on_end_call. destruct (falsy sessionId); [done|].
    by apply endCall_sessions_ok.
  - unfold on_disconnect.
    destruct (session_of_socket _ conn) as [[userId data]|]; [|done].
    set (s0 := set_socketRooms _ s).
    assert (∃ r, (match s_currentCall data with
                  | Some currentCall =>
                      if truthy currentCall
                      then endCall s0 currentCall userId "Participant disconnected" ck
                      else (s0, [])
                  | None => (s0, [])
                  end) = r ∧ sessions_ok (userSessions r.1)) as ([s1 out1] & -> & H1).
    { eexists; split; [done|]. destruct (s_currentCall data) as [cc|]; [|done].
      destruct (truthy cc); [|done]. by apply (endCall_sessions_ok s0). }
    simpl in H1.
    assert (∃ r, (match s_currentRoom data with
                  | Some currentRoom =>
                      if truthy currentRoom then leaveRoom s1 conn currentRoom userId
                      else (s1, [])
                  | None => (s1, [])
                  end) = r ∧ userSessions r.1 = userSessions s1)
      as ([s2 out2] & -> & Hu2).
    { eexists; split; [done|]. destruct (s_currentRoom data) as [r|]; [|done].
      destruct (truthy r); [|done].
      by destruct (leaveRoom_frame s1 conn r userId) as (_ & ? & _). }
    simpl in *. rewrite Hu2. by apply sessions_ok_delete.
Qed.

Lemma reachable_sessions_ok s : reachable s → sessions_ok (userSessions s).
Proof.
  induction 1 as [|s e Hs IH]; [|by apply handle_sessions_ok].
  split; [apply NoDup_nil_2 | apply Forall_nil_2].
Qed.

(* ===================================================================== *)
(** ** C4: where the relay sends after a re-registration                 *)
(* ===================================================================== *)

Lemma jm_elem_of_get {V} (k : string) (v : V) (m : list (string * V)) :
  NoDup m.*1 → (k, v) ∈ m → jm_get k m = Some v.
Proof.
  induction m as [|[k' v'] m IH]; csimpl; intros Hnd Hin.
  - by apply elem_of_nil in Hin.
  - apply NoDup_cons in Hnd as [Hk' Hnd].
    apply elem_of_cons in Hin as [[= <- <-]|Hin]; [by rewrite decide_True|].
    rewrite decide_False; [by apply IH|].
    intros ->. apply Hk'. apply list_elem_of_fmap. by exists (k, v).
Qed.

Lemma jm_set_same_socket (us : list (string * Session)) k v id u :
  jm_get k us = Some u → s_socketId v = s_socketId u →
  s_socketId <$> jm_get id (jm_set k v us) = s_socketId <$> jm_get id us.
Proof.
  intros Hk Hv. rewrite jm_get_set. destruct (decide (k = id)) as [<-|]; [|done].
  rewrite Hk. simpl. by rewrite Hv.
Qed.

Lemma clear_currentCall_socket sid us p id :
  s_socketId <$> jm_get id (clear_currentCall sid us p) = s_socketId <$> jm_get id us.
Proof.
  unfold clear_currentCall. destruct (jm_get p us) as [u|] eqn:Hp; [|done].
  case_decide; [|done]. by eapply jm_set_same_socket.
Qed.

Lemma foldl_clear_currentCall_socket sid ps us id :
  s_socketId <$> jm_get id (foldl (clear_currentCall sid) us ps) =
  s_socketId <$> jm_get id us.
Proof.
  revert us. induction ps as [|p ps IH]; intros us; simpl; [done|].
  by rewrite IH, clear_currentCall_socket.
Qed.

Lemma endCall_route s sid userId reason ck id :
  route (endCall s sid userId reason ck).1 id = route s id.
Proof.
  unfold route, endCall. destruct (falsy sid); [done|].
  destruct (activeCalls s !! sid) as [c|]; [|done].
  case_decide; simpl; apply foldl_clear_currentCall_socket.
Qed.

Lemma on_disconnect_route s conn ck id sock :
  sessions_ok (userSessions s) → route s id = Some sock → sock ≠ conn →
  route (on_disconnect s conn ck).1 id = Some sock.
Proof.
  intros [Hnd _] Hroute Hne. unfold on_disconnect.
  destruct (session_of_socket _ conn) as [[userId data]|] eqn:Hfind; [|done].
  apply session_of_socket_get in Hfind as [Hin Hsock]. simpl in Hin.
  assert (userId ≠ id) as Hid.
  { intros ->. unfold route in Hroute.
    rewrite (jm_elem_of_get id data (userSessions s) Hnd Hin) in Hroute.
    simpl in Hroute. congruence. }
  set (s0 := set_socketRooms _ s).
  assert (∃ r, (match s_currentCall data with
                | Some currentCall =>
                    if truthy currentCall
                    then endCall s0 currentCall userId "Participant disconnected" ck
                    else (s0, [])
                | None => (s0, [])
                end) = r ∧ route r.1 id = Some sock) as ([s1 out1] & -> & H1).
  { eexists; split; [done|]. destruct (s_currentCall data) as [cc|]; [|done].
    destruct (truthy cc); [|done]. by rewrite endCall_route. }
  simpl in H1.
  assert (∃ r, (match s_currentRoom data with
                | Some currentRoom =>
                    if truthy currentRoom then leaveRoom s1 conn currentRoom userId
                    else (s1, [])
                | None => (s1, [])
                end) = r ∧ userSessions r.1 = userSessions s1)
    as ([s2 out2] & -> & Hu2).
  { eexists; split; [done|]. destruct (s_currentRoom data) as [r|]; [|done].
    destruct (truthy r); [|done].
    by destruct (leaveRoom_frame s1 conn r userId) as (_ & ? & _). }
  unfold route in *. simpl in *. rewrite Hu2. by rewrite jm_get_delete_ne.
Qed.

(** A message that [keeps_route] leaves the route of the identity where
    it is. *)
Lemma handle_keeps_route s e userId conn :
  sessions_ok (userSessions s) → route s userId = Some conn →
  keeps_route userId conn e = true →
  route (handle s e).1 userId = Some conn.
Proof.
  intros Hok Hroute Hkeep. destruct e as [sender ck msg].
  unfold keeps_route in Hkeep. unfold handle. simpl in *. destruct msg.
  - done.
  - apply bool_decide_eq_true in Hkeep. unfold on_register_user.
    destruct (falsy userId0); [done|]. unfold route in *. simpl.
    by rewrite jm_get_set_ne.
  - apply bool_decide_eq_true in Hkeep. unfold on_join_room.
    destruct (falsy room || falsy userId0); [done|].
    destruct (leave_current_room_frame s sender userId0) as (_ & Hu & _).
    destruct (leave_current_room s sender userId0) as [s1 out1]. simpl in *.
    unfold route in *.
    destruct (jm_get userId0 (userSessions s1)) as [u|] eqn:Hget; simpl;
      [|by rewrite Hu].
    rewrite jm_get_set. destruct (decide (userId0 = userId)) as [->|Hid].
    + destruct Hkeep as [?| ->]; done.
    + by rewrite Hu.
  - unfold on_offer. by destruct (jm_get _ _).
  - unfold on_answer. by destruct (jm_get _ _).
  - unfold on_ice_candidate. by destruct (jm_get _ _).
  - unfold on_initiate_call.
    destruct (falsy (ic_to data) || falsy (ic_caller data)); [done|]. simpl.
    unfold route in *.
    destruct (jm_get (ic_caller data) (userSessions s)) eqn:Hget; simpl;
      destruct (jm_get (ic_to data) _); simpl; try done;
      by erewrite jm_set_same_socket.
  - unfold on_accept_call.
    destruct (falsy (ac_to data) || falsy (ac_sessionId data)); [done|].
    destruct (activeCalls s !! ac_sessionId data); [|done]. simpl.
    unfold route in *.
    destruct (jm_get (ac_callerId data) (userSessions s)) eqn:Hget; simpl;
      destruct (jm_get (ac_to data) _); simpl; try done;
      by erewrite jm_set_same_socket.
  - unfold on_reject_call. destruct (falsy to || falsy sessionId); [done|].
    destruct (activeCalls s !! sessionId); [|done].
    unfold route in *. cbn -[foldl]. by rewrite foldl_clear_currentCall_socket.
  - unfold on_end_call. destruct (falsy sessionId); [done|].
    by rewrite endCall_route.
  - apply bool_decide_eq_true in Hkeep. apply on_disconnect_route; [done..|].
    by intros ->.
Qed.

Lemma run_keeps_route s es userId conn :
  sessions_ok (userSessions s) → route s userId = Some conn →
  Forall (λ e, keeps_route userId conn e = true) es →
  route (run s es).1 userId = Some conn.
Proof.
  revert s. induction es as [|e es IH]; intros s Hok Hroute Hes; [done|].
  apply Forall_cons in Hes as [He Hes]. rewrite run_cons. apply IH; [| |done].
  - by apply handle_sessions_ok.
  - by apply handle_keeps_route.
Qed.

(** C4 (as amended).  A register-user with a user id is never refused:
    it replaces whatever session the identity had.  When the userData
    of the message carries no socketId of its own, or the id of the
    registering connection (as the client of this repository sends it),
    the session holds the registering connection, and it keeps holding
    it over every sequence of messages in which the identity is not
    registered again, no join-room names it from another connection and
    the registering connection does not disconnect: every offer, answer
    and ice-candidate for that identity relayed after such a sequence is
    addressed to that connection and to no other socket id. *)
Theorem reregistration_routes_to_new_connection (s : State) (conn : string)
    (ck : Clock) (userId : string) (userData : option UserData) :
  reachable s →
  truthy userId = true →
  userData ≫= ud_socketId = None ∨ userData ≫= ud_socketId = Some conn →
  (on_register_user s conn ck userId userData).2 = [to_self conn (UserRegistered userId)] ∧
  (∃ u, jm_get userId (userSessions (on_register_user s conn ck userId userData).1)
          = Some u ∧ s_socketId u = conn) ∧
  ∀ es, Forall (λ e, keeps_route userId conn e = true) es →
    ∀ k sender ck' data, rd_to data = userId →
      ∃ e,
        (handle (run (on_register_user s conn ck userId userData).1 es).1
                {| ev_conn := sender; ev_clock := ck'; ev_msg := relay_msg k data |}).2
        = [(ToRoom conn, e)] ∧
        ∀ stale e', stale ≠ conn →
          (ToRoom stale, e') ∉
          (handle (run (on_register_user s conn ck userId userData).1 es).1
                  {| ev_conn := sender; ev_clock := ck'; ev_msg := relay_msg k data |}).2.
Proof.
  intros Hs Ht Hud.
  pose proof (handle_sessions_ok s
                {| ev_conn := conn; ev_clock := ck;
                   ev_msg := RegisterUser userId userData |}
                (reachable_sessions_ok s Hs)) as Hok.
  unfold handle in Hok. simpl in Hok. revert Hok.
  unfold on_register_user. rewrite (truthy_falsy _ Ht). cbn [fst snd]. intros Hok.
  set (u := new_session conn userId userData (ck 0%nat)).
  assert (s_socketId u = conn) as Hu.
  { unfold u, new_session. simpl. by destruct Hud as [-> | ->]. }
  split_and!; [done| |].
  { exists u. split; [|done]. simpl. apply jm_get_set_eq. }
  intros es Hes k sender ck' data Hto.
  set (s1 := set_userSessions (jm_set userId u (userSessions s)) s) in *.
  assert (route s1 userId = Some conn) as Hroute.
  { unfold route, s1. simpl. rewrite jm_get_set_eq. simpl. f_equal. exact Hu. }
  pose proof (run_keeps_route s1 es userId conn Hok Hroute Hes) as Hrun.
  rewrite relay_result. simpl. rewrite Hto. unfold route in Hrun.
  destruct (jm_get userId (userSessions (run s1 es).1)) as [u'|]; [|done].
  simpl in Hrun. injection Hrun as ->.
  eexists. split; [done|].
  intros stale e' Hne [[=]|[]%elem_of_nil]%elem_of_cons. done.
Qed.

Lemma reregistration_routes_to_new_connection_witness :
  ∃ e,
    (handle (run (on_register_user (run init alice_reconnects).1 "c9" (at_time 7)
                    "alice" (client_userData "Alice" "c9")).1
                 after_reregistration).1
            (event "c2" 12 (relay_msg KIceCandidate candidate_for_alice))).2
    = [(ToRoom "c9", e)].
Proof.
  destruct (reregistration_routes_to_new_connection
              (run init alice_reconnects).1 "c9" (at_time 7) "alice"
              (client_userData "Alice" "c9")
              (reachable_run init alice_reconnects reachable_init)
              eq_refl (or_intror eq_refl))
    as (_ & _ & Hrelay).
  assert (Forall (λ e, keeps_route "alice" "c9" e = true) after_reregistration)
    as Hes.
  { unfold after_reregistration.
    repeat (apply Forall_cons; split; [reflexivity|]). apply Forall_nil_2. }
  destruct (Hrelay _ Hes KIceCandidate "c2" (at_time 12) candidate_for_alice eq_refl)
    as (e & He & _).
  exists e. exact He.
Defined.

(** X6.  In every reachable state the keys of userSessions are non-empty
    identities, each registered once: register-user refuses an empty
    user id, and every other handler only updates or deletes entries. *)
Theorem registry_keys_are_identities (s : State) :
  reachable s →
  NoDup (userSessions s).*1 ∧ ∀ id, registered s id = true → id ≠ "".
Proof.
  intros Hs. destruct (reachable_sessions_ok s Hs) as [Hnd Hne].
  split; [done|]. intros id Hid. eapply Forall_forall in Hne; [done|].
  unfold registered in Hid. apply jm_has_get in Hid as [u Hu].
  apply jm_get_elem_of in Hu. apply list_elem_of_fmap. by exists (id, u).
Qed.

Lemma registry_keys_are_identities_witness :
  NoDup (userSessions (run init call_in_progress).1).*1 ∧
  ∀ id, registered (run init call_in_progress).1 id = true → id ≠ "".
Proof.
  apply registry_keys_are_identities. apply reachable_run, reachable_init.
Defined.

(* ===================================================================== *)
(** ** After [endCall]                                                   *)
(* ===================================================================== *)

Lemma clear_currentCall_other sid us p id :
  p ≠ id → jm_get id (clear_currentCall sid us p) = jm_get id us.
Proof.
  intros Hne. unfold clear_currentCall. destruct (jm_get p us) as [u|]; [|done].
  case_decide; [|done]. by apply jm_get_set_ne.
Qed.

Lemma clear_currentCall_cleared sid us p u :
  jm_get p (clear_currentCall sid us p) = Some u → s_currentCall u ≠ Some sid.
Proof.
  unfold clear_currentCall. destruct (jm_get p us) as [u0|] eqn:Hp; [|congruence].
  case_decide as Hcur.
  - rewrite jm_get_set_eq. by intros [= <-].
  - rewrite Hp. by intros [= <-].
Qed.

Lemma clear_currentCall_keeps_cleared sid us q p :
  (∀ u, jm_get p us = Some u → s_currentCall u ≠ Some sid) →
  ∀ u, jm_get p (clear_currentCall sid us q) = Some u → s_currentCall u ≠ Some sid.
Proof.
  intros Hp u. destruct (decide (q = p)) as [->|Hne].
  - apply clear_currentCall_cleared.
  - rewrite clear_currentCall_other by done. apply Hp.
Qed.

Lemma foldl_clear_currentCall_cleared sid ps us p :
  p ∈ ps ∨ (∀ u, jm_get p us = Some u → s_currentCall u ≠ Some sid) →
  ∀ u, jm_get p (foldl (clear_currentCall sid) us ps) = Some u →
       s_currentCall u ≠ Some sid.
Proof.
  revert us. induction ps as [|q ps IH]; intros us Hp; simpl.
  - destruct Hp as [Hin|Hp]; [by apply elem_of_nil in Hin | done].
  - apply IH. destruct Hp as [Hin|Hp].
    + apply elem_of_cons in Hin as [->|Hin]; [|by left].
      right. apply clear_currentCall_cleared.
    + right. by apply clear_currentCall_keeps_cleared.
Qed.

Lemma foldl_clear_currentCall_other sid ps us id :
  id ∉ ps → jm_get id (foldl (clear_currentCall sid) us ps) = jm_get id us.
Proof.
  revert us. induction ps as [|q ps IH]; intros us Hid; simpl; [done|].
  apply not_elem_of_cons in Hid as [Hne Hid].
  rewrite IH by done. by apply clear_currentCall_other.
Qed.

Lemma endCall_userSessions s sid c userId reason ck :
  activeCalls s !! sid = Some c → truthy sid = true →
  userSessions (endCall s sid userId reason ck).1 =
  foldl (clear_currentCall sid) (userSessions s) (c_participants c).
Proof.
  intros Hc Ht. unfold endCall. pass_checks. rewrite Hc. by case_decide.
Qed.

(** X7.  Ending a call of the ledger resets currentCall in the session
    of every participant (no participant session still points at the
    ended call), leaves the sessions of all other identities as they
    were, and makes a second endCall for the same id a no-op: it changes
    nothing and emits nothing, so nobody is notified twice and no second
    record is written. *)
Theorem endCall_releases_participants (s : State) (sid : string) (c : Call)
    (userId reason : string) (ck : Clock) :
  activeCalls s !! sid = Some c → truthy sid = true →
  (∀ p u, p ∈ c_participants c →
     jm_get p (userSessions (endCall s sid userId reason ck).1) = Some u →
     s_currentCall u ≠ Some sid) ∧
  (∀ id, id ∉ c_participants c →
     jm_get id (userSessions (endCall s sid userId reason ck).1) =
     jm_get id (userSessions s)) ∧
  (∀ userId' reason' ck',
     endCall (endCall s sid userId reason ck).1 sid userId' reason' ck' =
     ((endCall s sid userId reason ck).1, [])).
Proof.
  intros Hc Ht. split_and!.
  - intros p u Hp. rewrite (endCall_userSessions s sid c) by done.
    apply foldl_clear_currentCall_cleared. by left.
  - intros id Hid. rewrite (endCall_userSessions s sid c) by done.
    by apply foldl_clear_currentCall_other.
  - intros userId' reason' ck'. apply endCall_absent. by apply endCall_removes.
Qed.

Lemma endCall_releases_participants_witness :
  endCall (endCall (run init call_in_progress).1 "s1" "alice" "Call ended"
                   (at_time 30)).1 "s1" "bob" "Call ended" (at_time 31) =
  ((endCall (run init call_in_progress).1 "s1" "alice" "Call ended"
            (at_time 30)).1, []).
Proof.
  assert (activeCalls (run init call_in_progress).1 !! "s1" =
          Some {| c_caller := "alice"; c_callee := "bob";
                  c_participants := ["alice"; "bob"]; c_type := "video";
                  c_offer := Some "sdp-offer"; c_startedAt := 10;
                  c_status := InProgress; c_answer := Some "sdp-answer";
                  c_answeredAt := Some 20%Z |}) as Hc by (vm_compute; reflexivity).
  destruct (endCall_releases_participants (run init call_in_progress).1 "s1" _
              "alice" "Call ended" (at_time 30) Hc eq_refl) as (_ & _ & H).
  exact (H "bob" "Call ended" (at_time 31)).
Defined.

(* ===================================================================== *)
(** ** initiate-call and accept-call when the peer is missing            *)
(* ===================================================================== *)

(** X8.  initiate-call stores the call before it looks up the callee:
    with a caller and a callee id given, the call is in the ledger under
    its session id afterwards, [initiated] with the caller as only
    participant, whether the callee has a session or not.  When the
    callee has none, the only emit is the error "Callee is not
    connected" to the sender; when it has one, its socket is sent
    incoming-call and the sender call-initiated. *)
Theorem initiate_call_stores_before_lookup (s : State) (conn : string) (ck : Clock)
    (data : InitiateCallMsg) (uuid : string) :
  truthy (ic_to data) = true → truthy (ic_caller data) = true →
  (∃ c, activeCalls (on_initiate_call s conn ck data uuid).1 !! initiated_id data uuid
          = Some c ∧
        c_caller c = ic_caller data ∧ c_callee c = ic_to data ∧
        c_participants c = [ic_caller data] ∧ c_status c = Initiated ∧
        c_startedAt c = ck 0%nat) ∧
  (∀ u, jm_get (ic_caller data) (userSessions s) = Some u →
        jm_get (ic_caller data) (userSessions (on_initiate_call s conn ck data uuid).1)
        = Some (with_currentCall (Some (initiated_id data uuid)) u)) ∧
  match jm_get (ic_to data) (userSessions s) with
  | None =>
      (on_initiate_call s conn ck data uuid).2 =
      [to_self conn (Error "Failed to initiate call" "Callee is not connected")]
  | Some calleeSession =>
      ∃ callerInfo,
        (on_initiate_call s conn ck data uuid).2 =
        [(ToRoom (s_socketId calleeSession),
          IncomingCall (initiated_id data uuid) (ic_caller data)
                       (default "video" (ic_type data)) (ic_offer data) callerInfo);
         to_self conn (CallInitiated (initiated_id data uuid) (ic_to data))]
  end.
Proof.
  intros Hto Hcaller. unfold on_initiate_call, initiated_id. pass_checks. simpl.
  destruct (jm_get (ic_caller data) (userSessions s)) as [u|] eqn:Hu; simpl.
  - rewrite jm_get_set.
    destruct (decide (ic_caller data = ic_to data)) as [Heq|Hne].
    + rewrite <- Heq, Hu. simpl. split_and!.
      * eexists. split; [apply lookup_insert_eq|done].
      * intros ? [= <-]. apply jm_get_set_eq.
      * by eexists.
    + destruct (jm_get (ic_to data) (userSessions s)) as [v|]; simpl; split_and!.
      * eexists. split; [apply lookup_insert_eq|done].
      * intros ? [= <-]. apply jm_get_set_eq.
      * by eexists.
      * eexists. split; [apply lookup_insert_eq|done].
      * intros ? [= <-]. apply jm_get_set_eq.
      * done.
  - destruct (jm_get (ic_to data) (userSessions s)) as [v|]; simpl; split_and!.
    + eexists. split; [apply lookup_insert_eq|done].
    + done.
    + by eexists.
    + eexists. split; [apply lookup_insert_eq|done].
    + done.
    + done.
Qed.

Lemma initiate_call_stores_before_lookup_witness :
  ∃ c, activeCalls
         (on_initiate_call (run init alice_and_bob).1 "c1" (at_time 10)
                           (call_msg "carol" "alice" "s2") "uuid-1").1 !! "s2" = Some c ∧
       c_participants c = ["alice"] ∧ c_status c = Initiated.
Proof.
  destruct (initiate_call_stores_before_lookup (run init alice_and_bob).1 "c1"
              (at_time 10) (call_msg "carol" "alice" "s2") "uuid-1" eq_refl eq_refl)
    as ((c & Hc & _ & _ & Hp & Hst & _) & _ & _).
  exists c. split_and!; [exact Hc | exact Hp | exact Hst].
Defined.

(** X9.  accept-call for a session id that is not in the ledger changes
    nothing and answers with the error "Call session not found".  For a
    call of the ledger it appends callerId and marks the call
    [in-progress] before it looks up the caller: when [to] has no
    session the sender gets the error "Caller is no longer connected"
    and the call stays [in-progress]; otherwise the socket of [to] is
    sent call-accepted. *)
Theorem accept_call_outcomes (s : State) (conn : string) (ck : Clock)
    (data : AcceptCallMsg) :
  truthy (ac_to data) = true → truthy (ac_sessionId data) = true →
  match activeCalls s !! ac_sessionId data with
  | None =>
      on_accept_call s conn ck data =
      (s, [to_self conn (Error "Failed to accept call" "Call session not found")])
  | Some c =>
      activeCalls (on_accept_call s conn ck data).1 !! ac_sessionId data =
        Some (accepted c (ac_callerId data) (ac_answer data) (ck 0%nat)) ∧
      match jm_get (ac_to data) (userSessions s) with
      | None =>
          (on_accept_call s conn ck data).2 =
          [to_self conn (Error "Failed to accept call" "Caller is no longer connected")]
      | Some callerSession =>
          (on_accept_call s conn ck data).2 =
          [(ToRoom (s_socketId callerSession),
            CallAccepted (ac_sessionId data) (ac_answer data) (ac_callerId data))]
      end
  end.
Proof.
  intros Hto Hsid.
  destruct (activeCalls s !! ac_sessionId data) as [c|] eqn:Hc.
  2:{ unfold on_accept_call. pass_checks. by rewrite Hc. }
  split.
  { rewrite (on_accept_call_found s conn ck data c); [apply lookup_insert_eq| |done].
    by pass_checks. }
  unfold on_accept_call. pass_checks. rewrite Hc. simpl.
  destruct (jm_get (ac_callerId data) (userSessions s)) as [u|] eqn:Hu; simpl.
  - rewrite jm_get_set.
    destruct (decide (ac_callerId data = ac_to data)) as [Heq|Hne].
    + by rewrite <- Heq, Hu.
    + by destruct (jm_get (ac_to data) (userSessions s)).
  - by destruct (jm_get (ac_to data) (userSessions s)).
Qed.

Lemma accept_call_outcomes_witness :
  on_accept_call (run init alice_and_bob).1 "c2" (at_time 20)
                 (accept_msg "alice" "s1" "bob") =
  ((run init alice_and_bob).1,
   [to_self "c2" (Error "Failed to accept call" "Call session not found")]).
Proof.
  pose proof (accept_call_outcomes (run init alice_and_bob).1 "c2" (at_time 20)
                (accept_msg "alice" "s1" "bob") eq_refl eq_refl) as H.
  assert (activeCalls (run init alice_and_bob).1 !! "s1" = None) as Hnone
    by (vm_compute; reflexivity).
  unfold accept_msg in H. cbn [ac_sessionId] in H. rewrite Hnone in H. exact H.
Defined.

(* ===================================================================== *)
(** ** Registration and the disconnect that follows                      *)
(* ===================================================================== *)

Lemma session_of_socket_cons k u us conn :
  session_of_socket ((k, u) :: us) conn =
  if decide (s_socketId u = conn) then Some (k, u) else session_of_socket us conn.
Proof.
  unfold session_of_socket. csimpl. case_decide; [done|].
  by destruct (list_find _ us) as [[i x]|].
Qed.

Lemma session_of_socket_None us conn :
  (∀ id u, (id, u) ∈ us → s_socketId u ≠ conn) → session_of_socket us conn = None.
Proof.
  induction us as [|[k u] us IH]; intros Hall; [done|].
  rewrite session_of_socket_cons, decide_False.
  - apply IH. intros id v Hin. apply (Hall id v). by apply list_elem_of_further.
  - apply (Hall k u). apply list_elem_of_here.
Qed.

Lemma jm_set_elem_of {V} (k : string) (v : V) us x :
  NoDup us.*1 → x ∈ jm_set k v us → x = (k, v) ∨ (x ∈ us ∧ x.1 ≠ k).
Proof.
  induction us as [|[k' v'] us IH]; csimpl.
  - intros _ ->%list_elem_of_singleton. by left.
  - rewrite NoDup_cons. intros [Hk' Hnd]. case_decide as Hk.
    + subst k'. intros [->|Hin]%elem_of_cons; [by left|]. right.
      split; [by apply list_elem_of_further|].
      intros Hx. apply Hk'. apply list_elem_of_fmap. exists x. by rewrite Hx.
    + intros [->|Hin]%elem_of_cons.
      * right. split; [apply list_elem_of_here | done].
      * destruct (IH Hnd Hin) as [->|[Hin' Hne]]; [by left|].
        right. split; [by apply list_elem_of_further | done].
Qed.

(** The session found for [conn] once [userId] is set to a session on
    [conn] and no other identity is on it. *)
Lemma session_of_socket_set us conn userId v :
  NoDup us.*1 → s_socketId v = conn →
  (∀ id u, (id, u) ∈ us → s_socketId u = conn → id = userId) →
  session_of_socket (jm_set userId v us) conn = Some (userId, v).
Proof.
  intros Hnd Hv. induction us as [|[k u] us IH]; intros Hall; csimpl.
  - by rewrite session_of_socket_cons, decide_True.
  - apply NoDup_cons in Hnd as [Hk Hnd]. case_decide as Hku.
    + by rewrite session_of_socket_cons, decide_True.
    + rewrite session_of_socket_cons, decide_False.
      * apply IH; [done|]. intros id w Hin. apply (Hall id w). by apply list_elem_of_further.
      * intros Hsock. apply Hku. apply (Hall k u); [apply list_elem_of_here | done].
Qed.

(** X10.  Reconnection as migration.  In a reachable state, when an
    identity registers again from a new connection, with a userData that carries no socketId or
    that of the new connection, and the old connection, on which no
    other identity was registered, disconnects as the next event, that
    disconnect finds no session: it emits nothing and changes nothing
    but socket.io's own room list, and the new registration stays in
    the registry. *)
Theorem stale_disconnect_keeps_new_registration (s : State)
    (conn_old conn_new : string) (ck ck' : Clock) (userId : string)
    (userData : option UserData) :
  reachable s → truthy userId = true → conn_old ≠ conn_new →
  only_identity_of s conn_old userId →
  userData ≫= ud_socketId = None ∨ userData ≫= ud_socketId = Some conn_new →
  on_disconnect (on_register_user s conn_new ck userId userData).1 conn_old ck' =
    (set_socketRooms
       (delete conn_old (socketRooms (on_register_user s conn_new ck userId userData).1))
       (on_register_user s conn_new ck userId userData).1, []) ∧
  jm_get userId
    (userSessions
       (on_disconnect (on_register_user s conn_new ck userId userData).1
                      conn_old ck').1) =
    Some (new_session conn_new userId userData (ck 0%nat)).
Proof.
  intros Hs Ht Hne Honly Hud.
  destruct (reachable_sessions_ok s Hs) as [Hnd _].
  unfold on_register_user. rewrite (truthy_falsy _ Ht). cbn [fst].
  set (v := new_session conn_new userId userData (ck 0%nat)).
  assert (s_socketId v = conn_new) as Hv.
  { unfold v, new_session. simpl. by destruct Hud as [-> | ->]. }
  assert (session_of_socket (jm_set userId v (userSessions s)) conn_old = None) as Hnone.
  { apply session_of_socket_None. intros id u Hin Hsock.
    apply jm_set_elem_of in Hin; [|done]. destruct Hin as [[= -> ->]|[Hin Hid]].
    - congruence.
    - simpl in Hid. apply Hid. by eapply Honly. }
  unfold on_disconnect. simpl. rewrite Hnone. split; [done|]. simpl.
  apply jm_get_set_eq.
Qed.

Lemma stale_disconnect_keeps_new_registration_witness :
  jm_get "alice"
    (userSessions
       (on_disconnect
          (on_register_user (run init alice_reconnects).1 "c9" (at_time 7) "alice"
                            (client_userData "Alice" "c9")).1
          "c1" (at_time 8)).1) =
  Some (new_session "c9" "alice" (client_userData "Alice" "c9") 7).
Proof.
  assert (only_identity_of (run init alice_reconnects).1 "c1" "alice") as Honly.
  { intros id u Hin Hsock.
    assert (userSessions (run init alice_reconnects).1 =
            [("alice", {| s_socketId := "c1"; s_userId := "alice";
                          s_currentRoom := Some "abc"; s_currentCall := None;
                          s_userData := None; s_meta := "Alice"; s_connectedAt := 1 |});
             ("bob", {| s_socketId := "c2"; s_userId := "bob";
                        s_currentRoom := Some "abc"; s_currentCall := None;
                        s_userData := None; s_meta := "Bob"; s_connectedAt := 4 |})])
      as Hus by (vm_compute; reflexivity).
    rewrite Hus in Hin.
    apply elem_of_cons in Hin as [[= -> ->]|Hin]; [done|].
    apply elem_of_cons in Hin as [[= -> ->]|Hin]; [simpl in Hsock; discriminate|].
    by apply elem_of_nil in Hin. }
  assert ("c1" ≠ "c9") as Hne by discriminate.
  destruct (stale_disconnect_keeps_new_registration (run init alice_reconnects).1
              "c1" "c9" (at_time 7) (at_time 8) "alice" (client_userData "Alice" "c9")
              (reachable_run init alice_reconnects reachable_init) eq_refl Hne Honly
              (or_intror eq_refl)) as [_ H].
  exact H.
Defined.

(** X11.  register-user replaces the session object as a whole: the
    currentCall and currentRoom of the session it replaces are not
    carried over.  When, in a reachable state, the userData of the
    registration carries no socketId or that of the registering
    connection, and no call or room of its own, and the registering connection, on which no other
    identity is registered, disconnects as the next event, the identity
    is removed from the registry but nothing is emitted, no call is
    ended and no room is left: the ledger and the Room Directory are
    those of before the registration. *)
Theorem reregistration_forgets_current_call (s : State) (conn : string)
    (ck ck' : Clock) (userId : string) (userData : option UserData) :
  reachable s → truthy userId = true →
  only_identity_of s conn userId →
  userData ≫= ud_socketId = None ∨ userData ≫= ud_socketId = Some conn →
  userData ≫= ud_currentCall = None → userData ≫= ud_currentRoom = None →
  (on_disconnect (on_register_user s conn ck userId userData).1 conn ck').2 = [] ∧
  activeCalls (on_disconnect (on_register_user s conn ck userId userData).1 conn ck').1
    = activeCalls s ∧
  rooms (on_disconnect (on_register_user s conn ck userId userData).1 conn ck').1
    = rooms s ∧
  jm_get userId
    (userSessions
       (on_disconnect (on_register_user s conn ck userId userData).1 conn ck').1)
    = None.
Proof.
  intros Hs Ht Honly Hud Hcall Hroom.
  destruct (reachable_sessions_ok s Hs) as [Hnd _].
  unfold on_register_user. rewrite (truthy_falsy _ Ht). cbn [fst].
  set (v := new_session conn userId userData (ck 0%nat)).
  assert (s_socketId v = conn) as Hv.
  { unfold v, new_session. simpl. by destruct Hud as [-> | ->]. }
  assert (session_of_socket (jm_set userId v (userSessions s)) conn = Some (userId, v))
    as Hfound by by apply session_of_socket_set.
  unfold on_disconnect. simpl. rewrite Hfound. simpl. rewrite Hcall, Hroom. simpl.
  split_and!; [done|done|done|]. apply jm_get_delete_eq.
Qed.

Lemma reregistration_forgets_current_call_witness :
  is_Some (activeCalls (run init call_in_progress).1 !! "s1") ∧
  activeCalls
    (on_disconnect
       (on_register_user (run init call_in_progress).1 "c1" (at_time 25) "alice"
                         (client_userData "Alice" "c1")).1 "c1" (at_time 30)).1
    = activeCalls (run init call_in_progress).1.
Proof.
  split; [vm_compute; eauto|].
  assert (only_identity_of (run init call_in_progress).1 "c1" "alice") as Honly.
  { intros id u Hin Hsock.
    assert (userSessions (run init call_in_progress).1 =
            [("alice", {| s_socketId := "c1"; s_userId := "alice";
                          s_currentRoom := Some "abc"; s_currentCall := Some "s1";
                          s_userData := None; s_meta := "Alice"; s_connectedAt := 1 |});
             ("bob", {| s_socketId := "c2"; s_userId := "bob";
                        s_currentRoom := Some "abc"; s_currentCall := Some "s1";
                        s_userData := None; s_meta := "Bob"; s_connectedAt := 4 |})])
      as Hus by (vm_compute; reflexivity).
    rewrite Hus in Hin.
    apply elem_of_cons in Hin as [[= -> ->]|Hin]; [done|].
    apply elem_of_cons in Hin as [[= -> ->]|Hin]; [simpl in Hsock; discriminate|].
    by apply elem_of_nil in Hin. }
  destruct (reregistration_forgets_current_call (run init call_in_progress).1 "c1"
              (at_time 25) (at_time 30) "alice" (client_userData "Alice" "c1")
              (reachable_run init call_in_progress reachable_init) eq_refl Honly
              (or_intror eq_refl) eq_refl eq_refl) as (_ & H & _).
  exact H.
Defined.

(* ===================================================================== *)
(** ** Joining, moving between rooms, disconnecting                      *)
(* ===================================================================== *)

Lemma filter_key_absent {V} (k : string) (m : list (string * V)) :
  jm_get k m = None → filter (λ e, e.1 = k) m = [].
Proof.
  induction m as [|[k' v'] m IH]; simpl; [done|].
  destruct (decide (k' = k)) as [->|Hne]; [done|].
  intros Hg. rewrite filter_cons, decide_False by done. by apply IH.
Qed.

Lemma filter_key_deleted {V} (k : string) (m : list (string * V)) :
  filter (λ e, e.1 = k) (jm_delete k m) = [].
Proof. apply filter_key_absent, jm_get_delete_eq. Qed.

(** After [leaveRoom] the connection has no entry in the room. *)
Lemma leaveRoom_memberships s conn room userId :
  truthy room = true →
  memberships (leaveRoom s conn room userId).1 conn room = [].
Proof.
  intros Ht. unfold leaveRoom, memberships. pass_checks.
  pose proof (socket_leave_rooms s conn room) as Hr.
  destruct (rooms (socket_leave s conn room) !! room) as [roomData|] eqn:Hroom.
  2:{ simpl. by rewrite Hroom. }
  destruct (jm_get conn roomData) eqn:Hget; case_decide; simpl.
  - by rewrite lookup_delete_eq.
  - rewrite lookup_insert_eq. simpl. apply filter_key_deleted.
  - by rewrite lookup_delete_eq.
  - rewrite lookup_insert_eq. simpl. by apply filter_key_absent.
Qed.

Lemma leaveRoom_other_room s conn room userId room' :
  room ≠ room' → rooms (leaveRoom s conn room userId).1 !! room' = rooms s !! room'.
Proof.
  intros Hne. unfold leaveRoom. destruct (falsy room); [done|].
  pose proof (socket_leave_rooms s conn room) as Hr.
  destruct (rooms (socket_leave s conn room) !! room) as [roomData|] eqn:Hroom.
  2:{ simpl. by rewrite Hr. }
  destruct (jm_get conn roomData); case_decide; simpl; rewrite Hr;
    by rewrite ?lookup_delete_ne, ?lookup_insert_ne.
Qed.

Lemma on_join_room_userSessions s conn ck room userId userData :
  truthy room = true → truthy userId = true →
  userSessions (on_join_room s conn ck room userId userData).1 =
  match jm_get userId (userSessions s) with
  | Some u => jm_set userId (with_room_socket room conn u) (userSessions s)
  | None => userSessions s
  end.
Proof.
  intros Hroom Huser. unfold on_join_room. pass_checks. simpl.
  destruct (leave_current_room_frame s conn userId) as (_ & Hu & _).
  destruct (leave_current_room s conn userId) as [s1 out1]. simpl in *.
  rewrite Hu. by destruct (jm_get userId (userSessions s)).
Qed.

(** X12.  The disconnect handler leaves a room only through the session
    it finds for the connection.  When the joining identity is
    registered (and is the only identity on the connection), a
    disconnect after the join removes the connection from the room and
    the identity from the registry.  join-room itself does not ask for a
    registration: when no session belongs to the connection, the
    disconnect finds nothing to clean up and the membership entry stays
    in the room. *)
Theorem disconnect_leaves_room_through_session (s : State) (conn : string)
    (ck ck' : Clock) (room userId : string) (userData : option UserData) :
  reachable s → truthy room = true → truthy userId = true →
  (∀ u, jm_get userId (userSessions s) = Some u → only_identity_of s conn userId →
     memberships
       (on_disconnect (on_join_room s conn ck room userId userData).1 conn ck').1
       conn room = [] ∧
     jm_get userId
       (userSessions
          (on_disconnect (on_join_room s conn ck room userId userData).1 conn ck').1)
       = None) ∧
  (jm_get userId (userSessions s) = None →
   (∀ id u, (id, u) ∈ userSessions s → s_socketId u ≠ conn) →
     length (memberships
               (on_disconnect (on_join_room s conn ck room userId userData).1 conn ck').1
               conn room) = 1%nat).
Proof.
  intros Hs Hroom Huser.
  pose proof (on_join_room_userSessions s conn ck room userId userData Hroom Huser)
    as Hus.
  split.
  - intros u Hu Honly. rewrite Hu in Hus.
    destruct (reachable_sessions_ok s Hs) as [Hnd _].
    set (w := with_room_socket room conn u) in *.
    assert (session_of_socket
              (userSessions (on_join_room s conn ck room userId userData).1) conn
            = Some (userId, w)) as Hfound
      by (rewrite Hus; by apply session_of_socket_set).
    unfold on_disconnect. simpl. rewrite Hfound. simpl. rewrite Hroom.
    set (s0 := set_socketRooms _ _).
    destruct (match s_currentCall u with
              | Some currentCall =>
                  if truthy currentCall
                  then endCall s0 currentCall userId "Participant disconnected" ck'
                  else (s0, [])
              | None => (s0, [])
              end) as [s1 out1].
    pose proof (leaveRoom_memberships s1 conn room userId Hroom) as Hm.
    destruct (leaveRoom_frame s1 conn room userId) as (_ & Hu1 & _).
    destruct (leaveRoom s1 conn room userId) as [s2 out2]. simpl in *.
    split; [done|]. apply jm_get_delete_eq.
  - intros Hnone Hother. rewrite Hnone in Hus.
    assert (session_of_socket
              (userSessions (on_join_room s conn ck room userId userData).1) conn
            = None) as Hnot by (rewrite Hus; by apply session_of_socket_None).
    unfold on_disconnect. simpl. rewrite Hnot. simpl.
    apply (on_join_room_one_membership s conn ck room userId userData);
      [by apply reachable_rooms_distinct | done | done].
Qed.

Lemma disconnect_leaves_room_through_session_witness :
  length (memberships
            (on_disconnect
               (on_join_room init "c1" (at_time 1) "abc" "alice" None).1
               "c1" (at_time 2)).1 "c1" "abc") = 1%nat.
Proof.
  destruct (disconnect_leaves_room_through_session init "c1" (at_time 1) (at_time 2)
              "abc" "alice" None reachable_init eq_refl eq_refl) as [_ H].
  apply H; [reflexivity|]. intros id u Hin. by apply elem_of_nil in Hin.
Defined.

Lemma leaveRoom_socketRooms s conn room userId :
  truthy room = true →
  socketRooms (leaveRoom s conn room userId).1 = socketRooms (socket_leave s conn room).
Proof.
  intros Ht. unfold leaveRoom. pass_checks.
  destruct (rooms (socket_leave s conn room) !! room) as [roomData|]; [|done].
  destruct (jm_get conn roomData); by case_decide.
Qed.

Lemma on_join_room_socketRooms s conn ck room userId userData :
  truthy room = true → truthy userId = true →
  socketRooms (on_join_room s conn ck room userId userData).1 =
  <[conn := js_set_add room (socket_rooms (leave_current_room s conn userId).1 conn)]>
    (socketRooms (leave_current_room s conn userId).1).
Proof.
  intros Hroom Huser. unfold on_join_room. pass_checks. simpl.
  destruct (leave_current_room s conn userId) as [s1 out1]. simpl.
  by destruct (jm_get userId (userSessions s1)).
Qed.

(** The leave block of join-room for a socket that is in its own room
    and in [r1]. *)
Lemma leave_current_room_in_room s conn userId r1 :
  socket_rooms s conn = [conn; r1] → r1 ≠ conn → truthy r1 = true →
  leave_current_room s conn userId = leaveRoom s conn r1 userId.
Proof.
  intros Hrs Hne Ht. unfold leave_current_room. rewrite Hrs. simpl.
  rewrite decide_False by (by intros ?). rewrite decide_True by done.
  simpl. by rewrite Ht.
Qed.

(** X13.  When, in a reachable state, a socket whose socket.io room
    list is its own room and one other room r1 joins a room r2, r1 and r2 being different and
    neither of them named after the socket's own id, it is first taken
    out of r1 (its entry there is gone, and if it had one the others in
    r1 are sent user-left), then entered into r2 with exactly one entry,
    and socket.io's room list of the socket is its own room and r2. *)
Theorem join_room_moves_the_connection (s : State) (conn : string) (ck : Clock)
    (r1 r2 userId : string) (userData : option UserData) :
  reachable s → socket_rooms s conn = [conn; r1] →
  r1 ≠ conn → r2 ≠ conn → r1 ≠ r2 →
  truthy r1 = true → truthy r2 = true → truthy userId = true →
  memberships (on_join_room s conn ck r2 userId userData).1 conn r1 = [] ∧
  length (memberships (on_join_room s conn ck r2 userId userData).1 conn r2) = 1%nat ∧
  socket_rooms (on_join_room s conn ck r2 userId userData).1 conn = [conn; r2] ∧
  (∀ roomData m, rooms s !! r1 = Some roomData → jm_get conn roomData = Some m →
     ∃ rest, (on_join_room s conn ck r2 userId userData).2 =
             (ToOthers conn r1, UserLeft conn userId) :: rest).
Proof.
  intros Hs Hrs Hr1 Hr2 Hne Ht1 Ht2 Hu.
  pose proof (leave_current_room_in_room s conn userId r1 Hrs Hr1 Ht1) as Hleave.
  destruct (on_join_room_result s conn ck r2 userId userData Ht2 Hu) as [Hrooms Hout].
  assert (socketRooms s !! conn = Some [conn; r1]) as Hsock.
  { unfold socket_rooms in Hrs. by destruct (socketRooms s !! conn); simplify_eq/=. }
  split_and!.
  - unfold memberships. rewrite Hrooms, lookup_insert_ne by done.
    rewrite Hleave. by apply leaveRoom_memberships.
  - apply on_join_room_one_membership; [by apply reachable_rooms_distinct|done|done].
  - unfold socket_rooms at 1.
    rewrite on_join_room_socketRooms, lookup_insert_eq by done. simpl.
    unfold socket_rooms. rewrite Hleave, leaveRoom_socketRooms by done.
    unfold socket_leave. rewrite Hsock. simpl. rewrite lookup_insert_eq. simpl.
    unfold js_set_delete. rewrite !filter_cons, filter_nil.
    rewrite decide_True by done. rewrite decide_False by (by intros ?).
    unfold js_set_add. rewrite decide_False; [done|].
    by intros ->%list_elem_of_singleton.
  - intros roomData m Hroom Hget. rewrite Hout, Hleave.
    unfold leaveRoom. rewrite (truthy_falsy _ Ht1), socket_leave_rooms, Hroom, Hget, Hu.
    destruct (decide (length (jm_delete conn roomData) = 0)); simpl;
      eexists; reflexivity.
Qed.

Lemma join_room_moves_the_connection_witness :
  memberships
    (on_join_room (run init alice_and_bob).1 "c1" (at_time 6) "xyz" "alice"
                  (client_userData "Alice" "c1")).1 "c1" "abc" = [] ∧
  socket_rooms
    (on_join_room (run init alice_and_bob).1 "c1" (at_time 6) "xyz" "alice"
                  (client_userData "Alice" "c1")).1 "c1" = ["c1"; "xyz"].
Proof.
  assert (socket_rooms (run init alice_and_bob).1 "c1" = ["c1"; "abc"]) as Hrs
    by (vm_compute; reflexivity).
  assert ("abc" ≠ "c1" ∧ "xyz" ≠ "c1" ∧ "abc" ≠ "xyz") as (H1 & H2 & H3)
    by (split_and!; discriminate).
  destruct (join_room_moves_the_connection (run init alice_and_bob).1 "c1" (at_time 6)
              "abc" "xyz" "alice" (client_userData "Alice" "c1")
              (reachable_run init alice_and_bob reachable_init) Hrs H1 H2 H3
              eq_refl eq_refl eq_refl) as (Ha & _ & Hb & _).
  split; [exact Ha | exact Hb].
Defined.

(** The leave block of join-room for a socket that is in no room but
    its own. *)
Lemma leave_current_room_own_room s conn userId :
  socket_rooms s conn = [conn] → leave_current_room s conn userId = (s, []).
Proof.
  intros Hrs. unfold leave_current_room. rewrite Hrs.
  case_decide as Hlen; [simpl in Hlen; lia|done].
Qed.

(** X21.  The room named after a socket's own id is never left by a
    join: the block that leaves the current room looks for a room other
    than the socket's id.  When, in a reachable state, a socket whose
    socket.io room list is its own room only (it may have joined the room of that name) joins
    a room r2 of another name, its entries in the room named after it
    stay as they are, no user-left is emitted, and it is entered into
    r2: a connection that had joined the room named after its id is in
    two rooms of the directory afterwards. *)
Theorem own_room_is_never_left (s : State) (conn : string) (ck : Clock)
    (r2 userId : string) (userData : option UserData) :
  reachable s → socket_rooms s conn = [conn] → r2 ≠ conn →
  truthy r2 = true → truthy userId = true →
  memberships (on_join_room s conn ck r2 userId userData).1 conn conn =
    memberships s conn conn ∧
  length (memberships (on_join_room s conn ck r2 userId userData).1 conn r2) = 1%nat ∧
  socket_rooms (on_join_room s conn ck r2 userId userData).1 conn = [conn; r2] ∧
  Forall (λ o, ¬ is_user_left o) (on_join_room s conn ck r2 userId userData).2.
Proof.
  intros Hs Hrs Hr2 Ht2 Hu.
  pose proof (leave_current_room_own_room s conn userId Hrs) as Hleave.
  destruct (on_join_room_result s conn ck r2 userId userData Ht2 Hu) as [Hrooms Hout].
  split_and!.
  - unfold memberships. rewrite Hrooms, lookup_insert_ne by done. by rewrite Hleave.
  - apply on_join_room_one_membership; [by apply reachable_rooms_distinct|done|done].
  - unfold socket_rooms at 1.
    rewrite on_join_room_socketRooms, lookup_insert_eq by done. simpl.
    rewrite Hleave. simpl. rewrite Hrs. unfold js_set_add.
    rewrite decide_False; [done|]. by intros ->%list_elem_of_singleton.
  - rewrite Hout, Hleave. clear Hout Hrooms. simpl. apply Forall_cons. split.
    + intros (? & ? & ? & ? & [=]).
    + case_decide; [|by apply Forall_nil].
      apply Forall_cons. split; [|by apply Forall_nil].
      intros (? & ? & ? & ? & [=]).
Qed.

Lemma own_room_is_never_left_witness :
  length (memberships
            (on_join_room (run init own_room_rejoin).1 "c1" (at_time 4) "abc" "kim"
                          None).1 "c1" "c1") = 1%nat ∧
  length (memberships
            (on_join_room (run init own_room_rejoin).1 "c1" (at_time 4) "abc" "kim"
                          None).1 "c1" "abc") = 1%nat.
Proof.
  assert ("abc" ≠ "c1") as Hne by discriminate.
  destruct (own_room_is_never_left (run init own_room_rejoin).1 "c1" (at_time 4)
              "abc" "kim" None
              (reachable_run init own_room_rejoin reachable_init)
              eq_refl Hne eq_refl eq_refl) as (Hown & Hnew & _ & _).
  split; [rewrite Hown; vm_compute; reflexivity|exact Hnew].
Defined.

(* ===================================================================== *)
(** ** VideoCall.jsx: the call timer and the debug log                   *)
(* ===================================================================== *)

(** X14.  For a call duration of less than 100 minutes, formatTime gives
    exactly five characters: the tens and units of the minutes, a colon,
    the tens and units of the seconds within the minute. *)
Theorem formatTime_is_MM_SS (seconds : Z) :
  (0 ≤ seconds < 6000)%Z →
  VideoCall.formatTime (Some seconds) =
  String (VideoCall.digit (seconds / 600))
    (String (VideoCall.digit (seconds / 60 mod 10))
      (String ":"%char
        (String (VideoCall.digit (seconds mod 60 / 10))
          (String (VideoCall.digit (seconds mod 10)) "")))).
Proof.
  intros Hrange.
  assert (forallb
            (λ n, String.eqb
                    (VideoCall.formatTime (Some n))
                    (String (VideoCall.digit (n / 600))
                      (String (VideoCall.digit (n / 60 mod 10))
                        (String ":"%char
                          (String (VideoCall.digit (n mod 60 / 10))
                            (String (VideoCall.digit (n mod 10)) ""))))))
            (seqZ 0 6000) = true) as Hall by (vm_compute; reflexivity).
  rewrite forallb_forall in Hall.
  apply String.eqb_eq, Hall, list_elem_of_In, elem_of_seqZ. lia.
Qed.

Lemma formatTime_is_MM_SS_witness :
  VideoCall.formatTime (Some 754%Z) =
  String (VideoCall.digit (754 / 600))
    (String (VideoCall.digit (754 / 60 mod 10))
      (String ":"%char
        (String (VideoCall.digit (754 mod 60 / 10))
          (String (VideoCall.digit (754 mod 10)) "")))).
Proof. apply formatTime_is_MM_SS. lia. Defined.

Lemma slice_last_length {A} (n : nat) (l : list A) :
  length (VideoCall.slice_last n l) = (length l `min` n)%nat.
Proof. unfold VideoCall.slice_last. rewrite length_drop. lia. Qed.

(** X15.  The debug log is bounded: after any sequence of addDebugLog
    calls it holds the entries of the most recent 51 calls, in the order
    of the calls, and nothing else. *)
Theorem debug_log_keeps_last_51 (calls : list (string * option string * string)) :
  VideoCall.logged calls =
  drop (length calls - 51)
       ((λ call, {| VideoCall.message := call.1.1;
                    VideoCall.type := default "info" call.1.2;
                    VideoCall.timestamp := call.2 |}) <$> calls) ∧
  (length (VideoCall.logged calls) ≤ 51)%nat.
Proof.
  assert (VideoCall.logged calls =
          drop (length calls - 51)
               ((λ call, {| VideoCall.message := call.1.1;
                            VideoCall.type := default "info" call.1.2;
                            VideoCall.timestamp := call.2 |}) <$> calls)) as Heq.
  { induction calls as [|call calls IH] using rev_ind; [done|].
    unfold VideoCall.logged in *. rewrite foldl_snoc, IH.
    unfold VideoCall.addDebugLog, VideoCall.slice_last.
    rewrite fmap_app, length_app, length_drop, length_fmap, drop_drop. simpl.
    set (l := _ <$> calls).
    assert (length l = length calls) as Hl by apply length_fmap.
    destruct (decide (length calls ≤ 50)%nat) as [Hle|Hgt].
    - replace (length calls - 51 + (length calls - (length calls - 51) - 50))%nat
        with 0%nat by lia.
      replace (length calls + 1 - 51)%nat with 0%nat by lia. done.
    - replace (length calls - 51 + (length calls - (length calls - 51) - 50))%nat
        with (length calls + 1 - 51)%nat by lia.
      rewrite drop_app_le by lia. done. }
  split; [exact Heq|]. rewrite Heq, length_drop, length_fmap. lia.
Qed.

(* ===================================================================== *)
(** ** VideoCall.jsx: mute and video toggles                             *)
(* ===================================================================== *)

Lemma flip_tracks_involutive k tracks :
  VideoCall.flip_tracks k (VideoCall.flip_tracks k tracks) = tracks.
Proof.
  unfold VideoCall.flip_tracks. rewrite <- list_fmap_compose.
  rewrite <- (list_fmap_id tracks) at 2. apply list_fmap_ext.
  intros i [k' e] _. simpl. destruct (decide (k' = k)) as [Hk|Hk]; simpl.
  - rewrite decide_True by done. simpl. by rewrite negb_involutive.
  - by rewrite decide_False.
Qed.

Lemma flip_tracks_commute tracks :
  VideoCall.flip_tracks VideoCall.audio (VideoCall.flip_tracks VideoCall.video tracks) =
  VideoCall.flip_tracks VideoCall.video (VideoCall.flip_tracks VideoCall.audio tracks).
Proof.
  unfold VideoCall.flip_tracks. rewrite <- !list_fmap_compose.
  apply list_fmap_ext. intros i [[] e] _; reflexivity.
Qed.

(** X16.  The toggles only flip flags: toggling mute twice (or video
    twice) gives back the media state one started from, the two toggles
    commute, toggleMute leaves every video track as it is, and when the
    buttons agree with the tracks before a toggle they agree after it.
    Without a local stream a toggle does nothing. *)
Theorem toggles_flip_flags_only (m : VideoCall.Media) :
  VideoCall.toggleMute (VideoCall.toggleMute m) = m ∧
  VideoCall.toggleVideo (VideoCall.toggleVideo m) = m ∧
  VideoCall.toggleMute (VideoCall.toggleVideo m) =
    VideoCall.toggleVideo (VideoCall.toggleMute m) ∧
  (∀ tracks tracks',
     VideoCall.localStream m = Some tracks →
     VideoCall.localStream (VideoCall.toggleMute m) = Some tracks' →
     filter (λ t, VideoCall.kind t = VideoCall.video) tracks' =
     filter (λ t, VideoCall.kind t = VideoCall.video) tracks) ∧
  (VideoCall.in_sync m →
     VideoCall.in_sync (VideoCall.toggleMute m) ∧
     VideoCall.in_sync (VideoCall.toggleVideo m)) ∧
  (VideoCall.localStream m = None →
     VideoCall.toggleMute m = m ∧ VideoCall.toggleVideo m = m).
Proof.
  destruct m as [[tracks|] muted off];
    unfold VideoCall.toggleMute, VideoCall.toggleVideo; simpl.
  2:{ split_and!; done. }
  split_and!.
  - by rewrite flip_tracks_involutive, negb_involutive.
  - by rewrite flip_tracks_involutive, negb_involutive.
  - by rewrite flip_tracks_commute.
  - intros ? tracks' [= <-] [= <-]. unfold VideoCall.flip_tracks.
    induction tracks as [|[[] e] tracks IH]; csimpl; [done| |];
      rewrite !filter_cons; simpl; repeat case_decide; try done;
      by rewrite IH.
  - intros Hsync. unfold VideoCall.in_sync in *. simpl in *.
    split; intros ? t [= <-] Hin; unfold VideoCall.flip_tracks in Hin;
      apply list_elem_of_fmap in Hin as ([[] e] & -> & Hin);
      specialize (Hsync tracks _ eq_refl Hin); simpl in *; subst e; done.
  - done.
Qed.

Lemma toggles_flip_flags_only_witness :
  VideoCall.in_sync (VideoCall.toggleMute camera_and_microphone) ∧
  VideoCall.in_sync (VideoCall.toggleVideo camera_and_microphone).
Proof.
  destruct (toggles_flip_flags_only camera_and_microphone) as (_ & _ & _ & _ & H & _).
  apply H. intros tracks t [= <-] Hin.
  repeat (inversion_clear Hin as [|? ? ? Hin']; [reflexivity|rename Hin' into Hin]).
  inversion Hin.
Defined.

(* ===================================================================== *)
(** ** VideoCall.jsx against the server                                  *)
(* ===================================================================== *)

Lemma run_delivered_one s conn ck m :
  run s (delivered conn ck [m]) =
  handle s {| ev_conn := conn; ev_clock := ck; ev_msg := m |}.
Proof.
  unfold delivered. cbn [fmap list_fmap run].
  destruct (handle s _) as [s1 out1]. by rewrite app_nil_r.
Qed.

Lemma on_end_call_empty_ledger s conn ck to sid reason :
  activeCalls s = ∅ →
  (on_end_call s conn ck to sid reason).1 = s ∧
  only_to_self conn (on_end_call s conn ck to sid reason).2.
Proof.
  intros Hempty. unfold on_end_call, only_to_self.
  destruct (falsy sid); [by repeat constructor|].
  rewrite endCall_absent by (by rewrite Hempty, lookup_empty).
  by repeat constructor.
Qed.

Lemma on_reject_call_empty_ledger s conn to sid reason :
  activeCalls s = ∅ →
  (on_reject_call s conn to sid reason).1 = s ∧
  only_to_self conn (on_reject_call s conn to sid reason).2.
Proof.
  intros Hempty. unfold on_reject_call, only_to_self.
  destruct (falsy to || falsy sid); [by repeat constructor|].
  rewrite Hempty, lookup_empty. by repeat constructor.
Qed.

(** X17.  The hang-up and reject buttons of VideoCall.jsx reach nobody
    on a server whose ledger is empty (the component never sends
    initiate-call, so it is): delivering what [endCall()] or
    [rejectCall()] emit leaves the server state as it is, and whatever
    the server emits goes back to the sending connection. *)
Theorem client_hangup_reaches_nobody (s : State) (conn : string) (ck : Clock)
    (c : Client.State) (socket : bool) (otherParticipantId sessionId : string) :
  activeCalls s = ∅ →
  let ended := (VideoCall.endCall c socket otherParticipantId sessionId).2 in
  let rejected := (VideoCall.rejectCall c socket sessionId).2 in
  (run s (delivered conn ck ended)).1 = s ∧
  only_to_self conn (run s (delivered conn ck ended)).2 ∧
  (run s (delivered conn ck rejected)).1 = s ∧
  only_to_self conn (run s (delivered conn ck rejected)).2.
Proof.
  intros Hempty ended rejected. subst ended rejected.
  unfold VideoCall.endCall, VideoCall.rejectCall. cbn [fst snd].
  assert ((run s (delivered conn ck [])).1 = s ∧
          only_to_self conn (run s (delivered conn ck [])).2) as [Hnil1 Hnil2]
    by (split; [done|constructor]).
  split_and!.
  - destruct socket; [|exact Hnil1]. rewrite run_delivered_one.
    by apply on_end_call_empty_ledger.
  - destruct socket; [|exact Hnil2]. rewrite run_delivered_one.
    by apply on_end_call_empty_ledger.
  - destruct socket, (Client.callerInfo c); try exact Hnil1.
    rewrite run_delivered_one. by apply on_reject_call_empty_ledger.
  - destruct socket, (Client.callerInfo c); try exact Hnil2.
    rewrite run_delivered_one. by apply on_reject_call_empty_ledger.
Qed.

Lemma client_hangup_reaches_nobody_witness :
  (run (run init alice_and_bob).1
       (delivered "c2" (at_time 9)
          (VideoCall.endCall calling_client true "alice" "s1").2)).2 = [].
Proof.
  destruct (client_hangup_reaches_nobody (run init alice_and_bob).1 "c2" (at_time 9)
              calling_client true "alice" "s1") as (_ & _ & _ & _);
    [reflexivity|]. vm_compute. reflexivity.
Defined.

(* ===================================================================== *)
(** ** VideoCall.jsx: the peer connection of the answering side          *)
(* ===================================================================== *)

(** X19.  A candidate that arrives while the offer handler waits for
    [getUserMedia] is lost: no peer exists yet, the ice-candidate
    handler leaves the client as it is, and the peer created when the
    handler resumes has been fed the offer only. *)
Theorem early_candidate_is_lost (c : Client.State) (data : Client.OfferData)
    (candidate : option blob) :
  Client.peerRef c = None →
  Client.suspended c = [] →
  let waiting := Client.on_offer c data in
  VideoCall.on_ice_candidate waiting candidate = waiting ∧
  ∃ i p,
    let resumed :=
      Client.on_offer_resume (VideoCall.on_ice_candidate waiting candidate) true in
    Client.peerRef resumed = Some i ∧
    Client.peers resumed !! i = Some p ∧
    Client.signalled p = [Client.offer data].
Proof.
  intros Hpeer Hsusp. simpl.
  assert (VideoCall.on_ice_candidate (Client.on_offer c data) candidate =
          Client.on_offer c data) as Hlost.
  { unfold VideoCall.on_ice_candidate, Client.on_offer. by rewrite Hpeer. }
  split; [exact Hlost|]. rewrite Hlost.
  unfold Client.on_offer, Client.on_offer_resume. rewrite Hpeer. simpl.
  rewrite Hsusp. simpl. eexists (length (Client.peers c)), _.
  split_and!;
    [reflexivity|by rewrite lookup_app_r, Nat.sub_diag by lia|reflexivity].
Qed.

Lemma early_candidate_is_lost_witness :
  VideoCall.on_ice_candidate (Client.on_offer idle_client offer_from_alice)
    (Some "candidate") = Client.on_offer idle_client offer_from_alice.
Proof.
  destruct (early_candidate_is_lost idle_client offer_from_alice (Some "candidate"))
    as [H _]; [reflexivity|reflexivity|exact H].
Defined.
